(** * DocumentDB MCP tools: query-shape normaliser, explain analyser,
      optimisation advisor and cross-collection join

    A shallow embedding of [tools/workflow.py], [tools/document.py],
    [tools/index.py], [tools/collection.py] and [tools/database.py] of the
    legacy DocumentDB MCP server, with the properties of its specification
    stated over it, and further properties of the tools after them.

    Python values are the tree-shaped values a BSON/JSON decoder produces
    (floating-point numbers are left out: every counter the analyser reads
    is an integer).  Exceptions are explicit: fallible code lives in the
    [result] monad, and the join, which updates documents in place, threads
    a store of document objects. *)

From Stdlib Require Import ZArith String Ascii List Bool Lia.
From stdpp Require Import base option list strings gmap.

Open Scope Z_scope.

(* ================================================================== *)
(** * Values, exceptions and dictionaries                              *)
(* ================================================================== *)

(** A Python value.  [VDict] keeps the insertion order of a [dict];
    [VErr] is an instance of the [ErrorResponse] dataclass of
    [models.py]. *)
#[local] Unset Elimination Schemes.
Inductive pyval : Type :=
  | VNone
  | VBool (b : bool)
  | VInt (n : Z)
  | VStr (s : string)
  | VList (items : list pyval)
  | VDict (entries : list (string * pyval))
  | VErr (error : string).
#[local] Set Elimination Schemes.

Abbreviation dict := (list (string * pyval)).

Inductive exn_class : Type :=
  | AttributeError
  | TypeError
  | KeyError
  | StopIteration
  | ZeroDivisionError
  | OverflowError
  | RecursionError
  | RuntimeError
  | DriverError.

(** An exception: its class and the text [str(e)] gives. *)
Record exn : Type := Exn { exn_class_of : exn_class; str : string }.

Inductive result (A : Type) : Type :=
  | Ok (a : A)
  | Raise (e : exn).
Arguments Ok {A} a.
Arguments Raise {A} e.

#[global] Instance result_ret : MRet result := fun A a => Ok a.
#[global] Instance result_bind : MBind result :=
  fun A B f m => match m with Ok a => f a | Raise e => Raise e end.

(** [try: body / except Exception as e: handler e]. *)
Definition try_except {A : Type} (body : result A) (handler : exn -> result A)
  : result A :=
  match body with
  | Ok a => Ok a
  | Raise e => handler e
  end.

(** What a tool returns to its caller: its value, or an [ErrorResponse]. *)
Inductive response (A : Type) : Type :=
  | Success (a : A)
  | ErrorResponse (error : string).
Arguments Success {A} a.
Arguments ErrorResponse {A} error.

Definition type_name (v : pyval) : string :=
  match v with
  | VNone => "NoneType"
  | VBool _ => "bool"
  | VInt _ => "int"
  | VStr _ => "str"
  | VList _ => "list"
  | VDict _ => "dict"
  | VErr _ => "ErrorResponse"
  end.

Definition attribute_error (v : pyval) (attr : string) : exn :=
  Exn AttributeError
      ("'" +:+ type_name v +:+ "' object has no attribute '" +:+ attr +:+ "'").

Definition not_iterable (v : pyval) : exn :=
  Exn TypeError ("'" +:+ type_name v +:+ "' object is not iterable").

Definition not_container (v : pyval) : exn :=
  Exn TypeError ("argument of type '" +:+ type_name v +:+ "' is not iterable").

Definition unhashable (v : pyval) : exn :=
  Exn TypeError ("unhashable type: '" +:+ type_name v +:+ "'").

(** [bool(v)]. *)
Definition truthy (v : pyval) : bool :=
  match v with
  | VNone => false
  | VBool b => b
  | VInt n => negb (Z.eqb n 0)
  | VStr s => negb (String.eqb s EmptyString)
  | VList l => match l with [] => false | _ => true end
  | VDict d => match d with [] => false | _ => true end
  | VErr _ => true
  end.

Definition isinstance_dict (v : pyval) : bool :=
  match v with VDict _ => true | _ => false end.

Definition isinstance_list (v : pyval) : bool :=
  match v with VList _ => true | _ => false end.

(** ** Dictionaries *)

Fixpoint dict_get (k : string) (d : dict) : option pyval :=
  match d with
  | [] => None
  | (k', v) :: d' => if String.eqb k k' then Some v else dict_get k d'
  end.

(** [k in d]. *)
Definition dict_mem (k : string) (d : dict) : bool :=
  match dict_get k d with Some _ => true | None => false end.

(** [d[k] = v]: an existing key keeps its place, a new one goes last. *)
Fixpoint dict_set (k : string) (v : pyval) (d : dict) : dict :=
  match d with
  | [] => [(k, v)]
  | (k', v') :: d' =>
      if String.eqb k k' then (k', v) :: d' else (k', v') :: dict_set k v d'
  end.

Definition dict_keys (d : dict) : list string := map fst d.

(** [doc.get(field)] on a dictionary: [None] when the field is missing. *)
Definition field_value (field : string) (doc : dict) : pyval :=
  default VNone (dict_get field doc).

(** [v.get(k)] on any value: [None] when the key is absent. *)
Definition py_get (v : pyval) (k : string) : result pyval :=
  match v with
  | VDict d => Ok (default VNone (dict_get k d))
  | _ => Raise (attribute_error v "get")
  end.

(** [v.get(k, dflt)]. *)
Definition py_get_default (v : pyval) (k : string) (dflt : pyval)
  : result pyval :=
  match v with
  | VDict d => Ok (default dflt (dict_get k d))
  | _ => Raise (attribute_error v "get")
  end.

(** [v.items()]. *)
Definition py_items (v : pyval) : result dict :=
  match v with
  | VDict d => Ok d
  | _ => Raise (attribute_error v "items")
  end.

(* ================================================================== *)
(** * [workflow.py]: query shapes                                      *)
(* ================================================================== *)

Record QueryShape : Type := mkQueryShape {
  shapeKey : string;
  eqFields : list string;
  rangeFields : list string
}.

Definition range_operators : list string :=
  ["$gt"; "$gte"; "$lt"; "$lte"; "$in"; "$nin"; "$regex"].

(** [any(op in v for op in [...])]. *)
Definition uses_range_operator (v : dict) : bool :=
  existsb (fun op => dict_mem op v) range_operators.

(** One turn of the loop [for k, v in query.items()], on the pair
    [(eq_fields, range_fields)]. *)
Definition shape_step (acc : list string * list string) (kv : string * pyval)
  : list string * list string :=
  let '(eq_fields, range_fields) := acc in
  let '(k, v) := kv in
  match v with
  | VDict ops =>
      if uses_range_operator ops
      then (eq_fields, range_fields ++ [k])
      else (eq_fields ++ [k], range_fields)
  | _ => (eq_fields ++ [k], range_fields)
  end.

Definition normalize_query_shape (query : pyval) : result QueryShape :=
  items ← py_items query;
  let '(eq_fields, range_fields) := fold_left shape_step items ([], []) in
  let shape_key :=
    "EQ[" +:+ String.concat "," eq_fields +:+ "]|RANGE["
          +:+ String.concat "," range_fields +:+ "]" in
  Ok (mkQueryShape shape_key eq_fields range_fields).

Definition query_shape (query : pyval) : result (response QueryShape) :=
  try_except
    (filter ← py_get_default query "filter" query;
     shape_info ← normalize_query_shape filter;
     Ok (Success shape_info))
    (fun e => Ok (ErrorResponse (str e))).

(* ================================================================== *)
(** * Equality, containment and iteration of values                    *)
(* ================================================================== *)

(** [a == b].  Booleans compare as the integers 0 and 1, lists item by
    item, dictionaries key by key whatever the order of their entries. *)
Fixpoint py_eq (a b : pyval) {struct a} : bool :=
  match a, b with
  | VNone, VNone => true
  | VBool x, VBool y => Bool.eqb x y
  | VBool x, VInt n => Z.eqb (Z.b2z x) n
  | VInt n, VBool x => Z.eqb n (Z.b2z x)
  | VInt m, VInt n => Z.eqb m n
  | VStr s, VStr t => String.eqb s t
  | VList l, VList l' =>
      (fix items_eq (l l' : list pyval) {struct l} : bool :=
         match l, l' with
         | [], [] => true
         | x :: l, y :: l' => py_eq x y && items_eq l l'
         | _, _ => false
         end) l l'
  | VDict d, VDict d' =>
      Nat.eqb (length d) (length d') &&
      (fix entries_eq (d : dict) {struct d} : bool :=
         match d with
         | [] => true
         | (k, v) :: d =>
             match dict_get k d' with
             | Some w => py_eq v w
             | None => false
             end && entries_eq d
         end) d
  | VErr s, VErr t => String.eqb s t
  | _, _ => false
  end.

(** [sub in s] on strings. *)
Fixpoint str_contains (sub s : string) : bool :=
  String.prefix sub s ||
  match s with
  | EmptyString => false
  | String _ s' => str_contains sub s'
  end.

(** [key in container]. *)
Definition py_contains (key : string) (container : pyval) : result bool :=
  match container with
  | VDict d => Ok (dict_mem key d)
  | VList l => Ok (existsb (py_eq (VStr key)) l)
  | VStr s => Ok (str_contains key s)
  | _ => Raise (not_container container)
  end.

(** [container[key]] for a string key. *)
Definition py_getitem (container : pyval) (key : string) : result pyval :=
  match container with
  | VDict d =>
      match dict_get key d with
      | Some v => Ok v
      | None => Raise (Exn KeyError ("'" +:+ key +:+ "'"))
      end
  | VList _ =>
      Raise (Exn TypeError "list indices must be integers or slices, not str")
  | VStr _ =>
      Raise (Exn TypeError "string indices must be integers, not 'str'")
  | _ =>
      Raise (Exn TypeError ("'" +:+ type_name container
                                +:+ "' object is not subscriptable"))
  end.

(** A byte that continues a character of several bytes. *)
Definition is_continuation (c : ascii) : bool :=
  (128 <=? nat_of_ascii c)%nat && (nat_of_ascii c <=? 191)%nat.

(** The characters of a text, each with the bytes that make it up. *)
Fixpoint characters (s : string) : list string :=
  match s with
  | EmptyString => []
  | String c s' =>
      let continued :=
        match s' with
        | String d _ => is_continuation d
        | EmptyString => false
        end in
      match characters s' with
      | group :: groups =>
          if continued then String c group :: groups
          else String c EmptyString :: group :: groups
      | [] => [String c EmptyString]
      end
  end.

(** The values [for x in v] goes through. *)
Definition py_iter (v : pyval) : result (list pyval) :=
  match v with
  | VList l => Ok l
  | VDict d => Ok (map (fun kv => VStr kv.1) d)
  | VStr s => Ok (map VStr (characters s))
  | _ => Raise (not_iterable v)
  end.

(** [v.keys()]. *)
Definition py_keys (v : pyval) : result (list string) :=
  match v with
  | VDict d => Ok (dict_keys d)
  | _ => Raise (attribute_error v "keys")
  end.

(** [s.strip("$")]. *)
Fixpoint lstrip_dollar (s : string) : string :=
  match s with
  | String "$" s' => lstrip_dollar s'
  | _ => s
  end.

Definition strip_dollar (s : string) : string :=
  String.rev (lstrip_dollar (String.rev (lstrip_dollar s))).

(** The capital of an ASCII letter; any other byte is kept. *)
Definition upper_ascii (c : ascii) : ascii :=
  let n := nat_of_ascii c in
  if (97 <=? n)%nat && (n <=? 122)%nat then ascii_of_nat (n - 32) else c.

(** A string holds the UTF-8 bytes of a Python text.  Besides the ASCII
    letters, [str.upper()] changes the characters of this table (Unicode
    14.0), each into the one to three characters beside it. *)
Definition upper_table : list (string * string) :=
  [("µ", "Μ"); ("ß", "SS"); ("à", "À"); ("á", "Á"); ("â", "Â"); ("ã", "Ã");
   ("ä", "Ä"); ("å", "Å"); ("æ", "Æ"); ("ç", "Ç"); ("è", "È"); ("é", "É");
   ("ê", "Ê"); ("ë", "Ë"); ("ì", "Ì"); ("í", "Í"); ("î", "Î"); ("ï", "Ï");
   ("ð", "Ð"); ("ñ", "Ñ"); ("ò", "Ò"); ("ó", "Ó"); ("ô", "Ô"); ("õ", "Õ");
   ("ö", "Ö"); ("ø", "Ø"); ("ù", "Ù"); ("ú", "Ú"); ("û", "Û"); ("ü", "Ü");
   ("ý", "Ý"); ("þ", "Þ"); ("ÿ", "Ÿ"); ("ā", "Ā"); ("ă", "Ă"); ("ą", "Ą");
   ("ć", "Ć"); ("ĉ", "Ĉ"); ("ċ", "Ċ"); ("č", "Č"); ("ď", "Ď"); ("đ", "Đ");
   ("ē", "Ē"); ("ĕ", "Ĕ"); ("ė", "Ė"); ("ę", "Ę"); ("ě", "Ě"); ("ĝ", "Ĝ");
   ("ğ", "Ğ"); ("ġ", "Ġ"); ("ģ", "Ģ"); ("ĥ", "Ĥ"); ("ħ", "Ħ"); ("ĩ", "Ĩ");
   ("ī", "Ī"); ("ĭ", "Ĭ"); ("į", "Į"); ("ı", "I"); ("ĳ", "Ĳ"); ("ĵ", "Ĵ");
   ("ķ", "Ķ"); ("ĺ", "Ĺ"); ("ļ", "Ļ"); ("ľ", "Ľ"); ("ŀ", "Ŀ"); ("ł", "Ł");
   ("ń", "Ń"); ("ņ", "Ņ"); ("ň", "Ň"); ("ŉ", "ʼN"); ("ŋ", "Ŋ"); ("ō", "Ō");
   ("ŏ", "Ŏ"); ("ő", "Ő"); ("œ", "Œ"); ("ŕ", "Ŕ"); ("ŗ", "Ŗ"); ("ř", "Ř");
   ("ś", "Ś"); ("ŝ", "Ŝ"); ("ş", "Ş"); ("š", "Š"); ("ţ", "Ţ"); ("ť", "Ť");
   ("ŧ", "Ŧ"); ("ũ", "Ũ"); ("ū", "Ū"); ("ŭ", "Ŭ"); ("ů", "Ů"); ("ű", "Ű");
   ("ų", "Ų"); ("ŵ", "Ŵ"); ("ŷ", "Ŷ"); ("ź", "Ź"); ("ż", "Ż"); ("ž", "Ž");
   ("ſ", "S"); ("ƀ", "Ƀ"); ("ƃ", "Ƃ"); ("ƅ", "Ƅ"); ("ƈ", "Ƈ"); ("ƌ", "Ƌ");
   ("ƒ", "Ƒ"); ("ƕ", "Ƕ"); ("ƙ", "Ƙ"); ("ƚ", "Ƚ"); ("ƞ", "Ƞ"); ("ơ", "Ơ");
   ("ƣ", "Ƣ"); ("ƥ", "Ƥ"); ("ƨ", "Ƨ"); ("ƭ", "Ƭ"); ("ư", "Ư"); ("ƴ", "Ƴ");
   ("ƶ", "Ƶ"); ("ƹ", "Ƹ"); ("ƽ", "Ƽ"); ("ƿ", "Ƿ"); ("ǅ", "Ǆ"); ("ǆ", "Ǆ");
   ("ǈ", "Ǉ"); ("ǉ", "Ǉ"); ("ǋ", "Ǌ"); ("ǌ", "Ǌ"); ("ǎ", "Ǎ"); ("ǐ", "Ǐ");
   ("ǒ", "Ǒ"); ("ǔ", "Ǔ"); ("ǖ", "Ǖ"); ("ǘ", "Ǘ"); ("ǚ", "Ǚ"); ("ǜ", "Ǜ");
   ("ǝ", "Ǝ"); ("ǟ", "Ǟ"); ("ǡ", "Ǡ"); ("ǣ", "Ǣ"); ("ǥ", "Ǥ"); ("ǧ", "Ǧ");
   ("ǩ", "Ǩ"); ("ǫ", "Ǫ"); ("ǭ", "Ǭ"); ("ǯ", "Ǯ"); ("ǰ", "J̌"); ("ǲ", "Ǳ");
   ("ǳ", "Ǳ"); ("ǵ", "Ǵ"); ("ǹ", "Ǹ"); ("ǻ", "Ǻ"); ("ǽ", "Ǽ"); ("ǿ", "Ǿ");
   ("ȁ", "Ȁ"); ("ȃ", "Ȃ"); ("ȅ", "Ȅ"); ("ȇ", "Ȇ"); ("ȉ", "Ȉ"); ("ȋ", "Ȋ");
   ("ȍ", "Ȍ"); ("ȏ", "Ȏ"); ("ȑ", "Ȑ"); ("ȓ", "Ȓ"); ("ȕ", "Ȕ"); ("ȗ", "Ȗ");
   ("ș", "Ș"); ("ț", "Ț"); ("ȝ", "Ȝ"); ("ȟ", "Ȟ"); ("ȣ", "Ȣ"); ("ȥ", "Ȥ");
   ("ȧ", "Ȧ"); ("ȩ", "Ȩ"); ("ȫ", "Ȫ"); ("ȭ", "Ȭ"); ("ȯ", "Ȯ"); ("ȱ", "Ȱ");
   ("ȳ", "Ȳ"); ("ȼ", "Ȼ"); ("ȿ", "Ȿ"); ("ɀ", "Ɀ"); ("ɂ", "Ɂ"); ("ɇ", "Ɇ");
   ("ɉ", "Ɉ"); ("ɋ", "Ɋ"); ("ɍ", "Ɍ"); ("ɏ", "Ɏ"); ("ɐ", "Ɐ"); ("ɑ", "Ɑ");
   ("ɒ", "Ɒ"); ("ɓ", "Ɓ"); ("ɔ", "Ɔ"); ("ɖ", "Ɖ"); ("ɗ", "Ɗ"); ("ə", "Ə");
   ("ɛ", "Ɛ"); ("ɜ", "Ɜ"); ("ɠ", "Ɠ"); ("ɡ", "Ɡ"); ("ɣ", "Ɣ"); ("ɥ", "Ɥ");
   ("ɦ", "Ɦ"); ("ɨ", "Ɨ"); ("ɩ", "Ɩ"); ("ɪ", "Ɪ"); ("ɫ", "Ɫ"); ("ɬ", "Ɬ");
   ("ɯ", "Ɯ"); ("ɱ", "Ɱ"); ("ɲ", "Ɲ"); ("ɵ", "Ɵ"); ("ɽ", "Ɽ"); ("ʀ", "Ʀ");
   ("ʂ", "Ʂ"); ("ʃ", "Ʃ"); ("ʇ", "Ʇ"); ("ʈ", "Ʈ"); ("ʉ", "Ʉ"); ("ʊ", "Ʊ");
   ("ʋ", "Ʋ"); ("ʌ", "Ʌ"); ("ʒ", "Ʒ"); ("ʝ", "Ʝ"); ("ʞ", "Ʞ"); ("ͅ", "Ι");
   ("ͱ", "Ͱ"); ("ͳ", "Ͳ"); ("ͷ", "Ͷ"); ("ͻ", "Ͻ"); ("ͼ", "Ͼ"); ("ͽ", "Ͽ");
   ("ΐ", "Ϊ́"); ("ά", "Ά"); ("έ", "Έ"); ("ή", "Ή"); ("ί", "Ί"); ("ΰ", "Ϋ́");
   ("α", "Α"); ("β", "Β"); ("γ", "Γ"); ("δ", "Δ"); ("ε", "Ε"); ("ζ", "Ζ");
   ("η", "Η"); ("θ", "Θ"); ("ι", "Ι"); ("κ", "Κ"); ("λ", "Λ"); ("μ", "Μ");
   ("ν", "Ν"); ("ξ", "Ξ"); ("ο", "Ο"); ("π", "Π"); ("ρ", "Ρ"); ("ς", "Σ");
   ("σ", "Σ"); ("τ", "Τ"); ("υ", "Υ"); ("φ", "Φ"); ("χ", "Χ"); ("ψ", "Ψ");
   ("ω", "Ω"); ("ϊ", "Ϊ"); ("ϋ", "Ϋ"); ("ό", "Ό"); ("ύ", "Ύ"); ("ώ", "Ώ");
   ("ϐ", "Β"); ("ϑ", "Θ"); ("ϕ", "Φ"); ("ϖ", "Π"); ("ϗ", "Ϗ"); ("ϙ", "Ϙ");
   ("ϛ", "Ϛ"); ("ϝ", "Ϝ"); ("ϟ", "Ϟ"); ("ϡ", "Ϡ"); ("ϣ", "Ϣ"); ("ϥ", "Ϥ");
   ("ϧ", "Ϧ"); ("ϩ", "Ϩ"); ("ϫ", "Ϫ"); ("ϭ", "Ϭ"); ("ϯ", "Ϯ"); ("ϰ", "Κ");
   ("ϱ", "Ρ"); ("ϲ", "Ϲ"); ("ϳ", "Ϳ"); ("ϵ", "Ε"); ("ϸ", "Ϸ"); ("ϻ", "Ϻ");
   ("а", "А"); ("б", "Б"); ("в", "В"); ("г", "Г"); ("д", "Д"); ("е", "Е");
   ("ж", "Ж"); ("з", "З"); ("и", "И"); ("й", "Й"); ("к", "К"); ("л", "Л");
   ("м", "М"); ("н", "Н"); ("о", "О"); ("п", "П"); ("р", "Р"); ("с", "С");
   ("т", "Т"); ("у", "У"); ("ф", "Ф"); ("х", "Х"); ("ц", "Ц"); ("ч", "Ч");
   ("ш", "Ш"); ("щ", "Щ"); ("ъ", "Ъ"); ("ы", "Ы"); ("ь", "Ь"); ("э", "Э");
   ("ю", "Ю"); ("я", "Я"); ("ѐ", "Ѐ"); ("ё", "Ё"); ("ђ", "Ђ"); ("ѓ", "Ѓ");
   ("є", "Є"); ("ѕ", "Ѕ"); ("і", "І"); ("ї", "Ї"); ("ј", "Ј"); ("љ", "Љ");
   ("њ", "Њ"); ("ћ", "Ћ"); ("ќ", "Ќ"); ("ѝ", "Ѝ"); ("ў", "Ў"); ("џ", "Џ");
   ("ѡ", "Ѡ"); ("ѣ", "Ѣ"); ("ѥ", "Ѥ"); ("ѧ", "Ѧ"); ("ѩ", "Ѩ"); ("ѫ", "Ѫ");
   ("ѭ", "Ѭ"); ("ѯ", "Ѯ"); ("ѱ", "Ѱ"); ("ѳ", "Ѳ"); ("ѵ", "Ѵ"); ("ѷ", "Ѷ");
   ("ѹ", "Ѹ"); ("ѻ", "Ѻ"); ("ѽ", "Ѽ"); ("ѿ", "Ѿ"); ("ҁ", "Ҁ"); ("ҋ", "Ҋ");
   ("ҍ", "Ҍ"); ("ҏ", "Ҏ"); ("ґ", "Ґ"); ("ғ", "Ғ"); ("ҕ", "Ҕ"); ("җ", "Җ");
   ("ҙ", "Ҙ"); ("қ", "Қ"); ("ҝ", "Ҝ"); ("ҟ", "Ҟ"); ("ҡ", "Ҡ"); ("ң", "Ң");
   ("ҥ", "Ҥ"); ("ҧ", "Ҧ"); ("ҩ", "Ҩ"); ("ҫ", "Ҫ"); ("ҭ", "Ҭ"); ("ү", "Ү");
   ("ұ", "Ұ"); ("ҳ", "Ҳ"); ("ҵ", "Ҵ"); ("ҷ", "Ҷ"); ("ҹ", "Ҹ"); ("һ", "Һ");
   ("ҽ", "Ҽ"); ("ҿ", "Ҿ"); ("ӂ", "Ӂ"); ("ӄ", "Ӄ"); ("ӆ", "Ӆ"); ("ӈ", "Ӈ");
   ("ӊ", "Ӊ"); ("ӌ", "Ӌ"); ("ӎ", "Ӎ"); ("ӏ", "Ӏ"); ("ӑ", "Ӑ"); ("ӓ", "Ӓ");
   ("ӕ", "Ӕ"); ("ӗ", "Ӗ"); ("ә", "Ә"); ("ӛ", "Ӛ"); ("ӝ", "Ӝ"); ("ӟ", "Ӟ");
   ("ӡ", "Ӡ"); ("ӣ", "Ӣ"); ("ӥ", "Ӥ"); ("ӧ", "Ӧ"); ("ө", "Ө"); ("ӫ", "Ӫ");
   ("ӭ", "Ӭ"); ("ӯ", "Ӯ"); ("ӱ", "Ӱ"); ("ӳ", "Ӳ"); ("ӵ", "Ӵ"); ("ӷ", "Ӷ");
   ("ӹ", "Ӹ"); ("ӻ", "Ӻ"); ("ӽ", "Ӽ"); ("ӿ", "Ӿ"); ("ԁ", "Ԁ"); ("ԃ", "Ԃ");
   ("ԅ", "Ԅ"); ("ԇ", "Ԇ"); ("ԉ", "Ԉ"); ("ԋ", "Ԋ"); ("ԍ", "Ԍ"); ("ԏ", "Ԏ");
   ("ԑ", "Ԑ"); ("ԓ", "Ԓ"); ("ԕ", "Ԕ"); ("ԗ", "Ԗ"); ("ԙ", "Ԙ"); ("ԛ", "Ԛ");
   ("ԝ", "Ԝ"); ("ԟ", "Ԟ"); ("ԡ", "Ԡ"); ("ԣ", "Ԣ"); ("ԥ", "Ԥ"); ("ԧ", "Ԧ");
   ("ԩ", "Ԩ"); ("ԫ", "Ԫ"); ("ԭ", "Ԭ"); ("ԯ", "Ԯ"); ("ա", "Ա"); ("բ", "Բ");
   ("գ", "Գ"); ("դ", "Դ"); ("ե", "Ե"); ("զ", "Զ"); ("է", "Է"); ("ը", "Ը");
   ("թ", "Թ"); ("ժ", "Ժ"); ("ի", "Ի"); ("լ", "Լ"); ("խ", "Խ"); ("ծ", "Ծ");
   ("կ", "Կ"); ("հ", "Հ"); ("ձ", "Ձ"); ("ղ", "Ղ"); ("ճ", "Ճ"); ("մ", "Մ");
   ("յ", "Յ"); ("ն", "Ն"); ("շ", "Շ"); ("ո", "Ո"); ("չ", "Չ"); ("պ", "Պ");
   ("ջ", "Ջ"); ("ռ", "Ռ"); ("ս", "Ս"); ("վ", "Վ"); ("տ", "Տ"); ("ր", "Ր");
   ("ց", "Ց"); ("ւ", "Ւ"); ("փ", "Փ"); ("ք", "Ք"); ("օ", "Օ"); ("ֆ", "Ֆ");
   ("և", "ԵՒ"); ("ა", "Ა"); ("ბ", "Ბ"); ("გ", "Გ"); ("დ", "Დ"); ("ე", "Ე");
   ("ვ", "Ვ"); ("ზ", "Ზ"); ("თ", "Თ"); ("ი", "Ი"); ("კ", "Კ"); ("ლ", "Ლ");
   ("მ", "Მ"); ("ნ", "Ნ"); ("ო", "Ო"); ("პ", "Პ"); ("ჟ", "Ჟ"); ("რ", "Რ");
   ("ს", "Ს"); ("ტ", "Ტ"); ("უ", "Უ"); ("ფ", "Ფ"); ("ქ", "Ქ"); ("ღ", "Ღ");
   ("ყ", "Ყ"); ("შ", "Შ"); ("ჩ", "Ჩ"); ("ც", "Ც"); ("ძ", "Ძ"); ("წ", "Წ");
   ("ჭ", "Ჭ"); ("ხ", "Ხ"); ("ჯ", "Ჯ"); ("ჰ", "Ჰ"); ("ჱ", "Ჱ"); ("ჲ", "Ჲ");
   ("ჳ", "Ჳ"); ("ჴ", "Ჴ"); ("ჵ", "Ჵ"); ("ჶ", "Ჶ"); ("ჷ", "Ჷ"); ("ჸ", "Ჸ");
   ("ჹ", "Ჹ"); ("ჺ", "Ჺ"); ("ჽ", "Ჽ"); ("ჾ", "Ჾ"); ("ჿ", "Ჿ"); ("ᏸ", "Ᏸ");
   ("ᏹ", "Ᏹ"); ("ᏺ", "Ᏺ"); ("ᏻ", "Ᏻ"); ("ᏼ", "Ᏼ"); ("ᏽ", "Ᏽ"); ("ᲀ", "В");
   ("ᲁ", "Д"); ("ᲂ", "О"); ("ᲃ", "С"); ("ᲄ", "Т"); ("ᲅ", "Т"); ("ᲆ", "Ъ");
   ("ᲇ", "Ѣ"); ("ᲈ", "Ꙋ"); ("ᵹ", "Ᵹ"); ("ᵽ", "Ᵽ"); ("ᶎ", "Ᶎ"); ("ḁ", "Ḁ");
   ("ḃ", "Ḃ"); ("ḅ", "Ḅ"); ("ḇ", "Ḇ"); ("ḉ", "Ḉ"); ("ḋ", "Ḋ"); ("ḍ", "Ḍ");
   ("ḏ", "Ḏ"); ("ḑ", "Ḑ"); ("ḓ", "Ḓ"); ("ḕ", "Ḕ"); ("ḗ", "Ḗ"); ("ḙ", "Ḙ");
   ("ḛ", "Ḛ"); ("ḝ", "Ḝ"); ("ḟ", "Ḟ"); ("ḡ", "Ḡ"); ("ḣ", "Ḣ"); ("ḥ", "Ḥ");
   ("ḧ", "Ḧ"); ("ḩ", "Ḩ"); ("ḫ", "Ḫ"); ("ḭ", "Ḭ"); ("ḯ", "Ḯ"); ("ḱ", "Ḱ");
   ("ḳ", "Ḳ"); ("ḵ", "Ḵ"); ("ḷ", "Ḷ"); ("ḹ", "Ḹ"); ("ḻ", "Ḻ"); ("ḽ", "Ḽ");
   ("ḿ", "Ḿ"); ("ṁ", "Ṁ"); ("ṃ", "Ṃ"); ("ṅ", "Ṅ"); ("ṇ", "Ṇ"); ("ṉ", "Ṉ");
   ("ṋ", "Ṋ"); ("ṍ", "Ṍ"); ("ṏ", "Ṏ"); ("ṑ", "Ṑ"); ("ṓ", "Ṓ"); ("ṕ", "Ṕ");
   ("ṗ", "Ṗ"); ("ṙ", "Ṙ"); ("ṛ", "Ṛ"); ("ṝ", "Ṝ"); ("ṟ", "Ṟ"); ("ṡ", "Ṡ");
   ("ṣ", "Ṣ"); ("ṥ", "Ṥ"); ("ṧ", "Ṧ"); ("ṩ", "Ṩ"); ("ṫ", "Ṫ"); ("ṭ", "Ṭ");
   ("ṯ", "Ṯ"); ("ṱ", "Ṱ"); ("ṳ", "Ṳ"); ("ṵ", "Ṵ"); ("ṷ", "Ṷ"); ("ṹ", "Ṹ");
   ("ṻ", "Ṻ"); ("ṽ", "Ṽ"); ("ṿ", "Ṿ"); ("ẁ", "Ẁ"); ("ẃ", "Ẃ"); ("ẅ", "Ẅ");
   ("ẇ", "Ẇ"); ("ẉ", "Ẉ"); ("ẋ", "Ẋ"); ("ẍ", "Ẍ"); ("ẏ", "Ẏ"); ("ẑ", "Ẑ");
   ("ẓ", "Ẓ"); ("ẕ", "Ẕ"); ("ẖ", "H̱"); ("ẗ", "T̈"); ("ẘ", "W̊"); ("ẙ", "Y̊");
   ("ẚ", "Aʾ"); ("ẛ", "Ṡ"); ("ạ", "Ạ"); ("ả", "Ả"); ("ấ", "Ấ"); ("ầ", "Ầ");
   ("ẩ", "Ẩ"); ("ẫ", "Ẫ"); ("ậ", "Ậ"); ("ắ", "Ắ"); ("ằ", "Ằ"); ("ẳ", "Ẳ");
   ("ẵ", "Ẵ"); ("ặ", "Ặ"); ("ẹ", "Ẹ"); ("ẻ", "Ẻ"); ("ẽ", "Ẽ"); ("ế", "Ế");
   ("ề", "Ề"); ("ể", "Ể"); ("ễ", "Ễ"); ("ệ", "Ệ"); ("ỉ", "Ỉ"); ("ị", "Ị");
   ("ọ", "Ọ"); ("ỏ", "Ỏ"); ("ố", "Ố"); ("ồ", "Ồ"); ("ổ", "Ổ"); ("ỗ", "Ỗ");
   ("ộ", "Ộ"); ("ớ", "Ớ"); ("ờ", "Ờ"); ("ở", "Ở"); ("ỡ", "Ỡ"); ("ợ", "Ợ");
   ("ụ", "Ụ"); ("ủ", "Ủ"); ("ứ", "Ứ"); ("ừ", "Ừ"); ("ử", "Ử"); ("ữ", "Ữ");
   ("ự", "Ự"); ("ỳ", "Ỳ"); ("ỵ", "Ỵ"); ("ỷ", "Ỷ"); ("ỹ", "Ỹ"); ("ỻ", "Ỻ");
   ("ỽ", "Ỽ"); ("ỿ", "Ỿ"); ("ἀ", "Ἀ"); ("ἁ", "Ἁ"); ("ἂ", "Ἂ"); ("ἃ", "Ἃ");
   ("ἄ", "Ἄ"); ("ἅ", "Ἅ"); ("ἆ", "Ἆ"); ("ἇ", "Ἇ"); ("ἐ", "Ἐ"); ("ἑ", "Ἑ");
   ("ἒ", "Ἒ"); ("ἓ", "Ἓ"); ("ἔ", "Ἔ"); ("ἕ", "Ἕ"); ("ἠ", "Ἠ"); ("ἡ", "Ἡ");
   ("ἢ", "Ἢ"); ("ἣ", "Ἣ"); ("ἤ", "Ἤ"); ("ἥ", "Ἥ"); ("ἦ", "Ἦ"); ("ἧ", "Ἧ");
   ("ἰ", "Ἰ"); ("ἱ", "Ἱ"); ("ἲ", "Ἲ"); ("ἳ", "Ἳ"); ("ἴ", "Ἴ"); ("ἵ", "Ἵ");
   ("ἶ", "Ἶ"); ("ἷ", "Ἷ"); ("ὀ", "Ὀ"); ("ὁ", "Ὁ"); ("ὂ", "Ὂ"); ("ὃ", "Ὃ");
   ("ὄ", "Ὄ"); ("ὅ", "Ὅ"); ("ὐ", "Υ̓"); ("ὑ", "Ὑ"); ("ὒ", "Υ̓̀"); ("ὓ", "Ὓ");
   ("ὔ", "Υ̓́"); ("ὕ", "Ὕ"); ("ὖ", "Υ̓͂"); ("ὗ", "Ὗ"); ("ὠ", "Ὠ"); ("ὡ", "Ὡ");
   ("ὢ", "Ὢ"); ("ὣ", "Ὣ"); ("ὤ", "Ὤ"); ("ὥ", "Ὥ"); ("ὦ", "Ὦ"); ("ὧ", "Ὧ");
   ("ὰ", "Ὰ"); ("ά", "Ά"); ("ὲ", "Ὲ"); ("έ", "Έ"); ("ὴ", "Ὴ"); ("ή", "Ή");
   ("ὶ", "Ὶ"); ("ί", "Ί"); ("ὸ", "Ὸ"); ("ό", "Ό"); ("ὺ", "Ὺ"); ("ύ", "Ύ");
   ("ὼ", "Ὼ"); ("ώ", "Ώ"); ("ᾀ", "ἈΙ"); ("ᾁ", "ἉΙ"); ("ᾂ", "ἊΙ"); ("ᾃ", "ἋΙ");
   ("ᾄ", "ἌΙ"); ("ᾅ", "ἍΙ"); ("ᾆ", "ἎΙ"); ("ᾇ", "ἏΙ"); ("ᾈ", "ἈΙ"); ("ᾉ", "ἉΙ");
   ("ᾊ", "ἊΙ"); ("ᾋ", "ἋΙ"); ("ᾌ", "ἌΙ"); ("ᾍ", "ἍΙ"); ("ᾎ", "ἎΙ"); ("ᾏ", "ἏΙ");
   ("ᾐ", "ἨΙ"); ("ᾑ", "ἩΙ"); ("ᾒ", "ἪΙ"); ("ᾓ", "ἫΙ"); ("ᾔ", "ἬΙ"); ("ᾕ", "ἭΙ");
   ("ᾖ", "ἮΙ"); ("ᾗ", "ἯΙ"); ("ᾘ", "ἨΙ"); ("ᾙ", "ἩΙ"); ("ᾚ", "ἪΙ"); ("ᾛ", "ἫΙ");
   ("ᾜ", "ἬΙ"); ("ᾝ", "ἭΙ"); ("ᾞ", "ἮΙ"); ("ᾟ", "ἯΙ"); ("ᾠ", "ὨΙ"); ("ᾡ", "ὩΙ");
   ("ᾢ", "ὪΙ"); ("ᾣ", "ὫΙ"); ("ᾤ", "ὬΙ"); ("ᾥ", "ὭΙ"); ("ᾦ", "ὮΙ"); ("ᾧ", "ὯΙ");
   ("ᾨ", "ὨΙ"); ("ᾩ", "ὩΙ"); ("ᾪ", "ὪΙ"); ("ᾫ", "ὫΙ"); ("ᾬ", "ὬΙ"); ("ᾭ", "ὭΙ");
   ("ᾮ", "ὮΙ"); ("ᾯ", "ὯΙ"); ("ᾰ", "Ᾰ"); ("ᾱ", "Ᾱ"); ("ᾲ", "ᾺΙ"); ("ᾳ", "ΑΙ");
   ("ᾴ", "ΆΙ"); ("ᾶ", "Α͂"); ("ᾷ", "Α͂Ι"); ("ᾼ", "ΑΙ"); ("ι", "Ι"); ("ῂ", "ῊΙ");
   ("ῃ", "ΗΙ"); ("ῄ", "ΉΙ"); ("ῆ", "Η͂"); ("ῇ", "Η͂Ι"); ("ῌ", "ΗΙ"); ("ῐ", "Ῐ");
   ("ῑ", "Ῑ"); ("ῒ", "Ϊ̀"); ("ΐ", "Ϊ́"); ("ῖ", "Ι͂"); ("ῗ", "Ϊ͂"); ("ῠ", "Ῠ");
   ("ῡ", "Ῡ"); ("ῢ", "Ϋ̀"); ("ΰ", "Ϋ́"); ("ῤ", "Ρ̓"); ("ῥ", "Ῥ"); ("ῦ", "Υ͂");
   ("ῧ", "Ϋ͂"); ("ῲ", "ῺΙ"); ("ῳ", "ΩΙ"); ("ῴ", "ΏΙ"); ("ῶ", "Ω͂"); ("ῷ", "Ω͂Ι");
   ("ῼ", "ΩΙ"); ("ⅎ", "Ⅎ"); ("ⅰ", "Ⅰ"); ("ⅱ", "Ⅱ"); ("ⅲ", "Ⅲ"); ("ⅳ", "Ⅳ");
   ("ⅴ", "Ⅴ"); ("ⅵ", "Ⅵ"); ("ⅶ", "Ⅶ"); ("ⅷ", "Ⅷ"); ("ⅸ", "Ⅸ"); ("ⅹ", "Ⅹ");
   ("ⅺ", "Ⅺ"); ("ⅻ", "Ⅻ"); ("ⅼ", "Ⅼ"); ("ⅽ", "Ⅽ"); ("ⅾ", "Ⅾ"); ("ⅿ", "Ⅿ");
   ("ↄ", "Ↄ"); ("ⓐ", "Ⓐ"); ("ⓑ", "Ⓑ"); ("ⓒ", "Ⓒ"); ("ⓓ", "Ⓓ"); ("ⓔ", "Ⓔ");
   ("ⓕ", "Ⓕ"); ("ⓖ", "Ⓖ"); ("ⓗ", "Ⓗ"); ("ⓘ", "Ⓘ"); ("ⓙ", "Ⓙ"); ("ⓚ", "Ⓚ");
   ("ⓛ", "Ⓛ"); ("ⓜ", "Ⓜ"); ("ⓝ", "Ⓝ"); ("ⓞ", "Ⓞ"); ("ⓟ", "Ⓟ"); ("ⓠ", "Ⓠ");
   ("ⓡ", "Ⓡ"); ("ⓢ", "Ⓢ"); ("ⓣ", "Ⓣ"); ("ⓤ", "Ⓤ"); ("ⓥ", "Ⓥ"); ("ⓦ", "Ⓦ");
   ("ⓧ", "Ⓧ"); ("ⓨ", "Ⓨ"); ("ⓩ", "Ⓩ"); ("ⰰ", "Ⰰ"); ("ⰱ", "Ⰱ"); ("ⰲ", "Ⰲ");
   ("ⰳ", "Ⰳ"); ("ⰴ", "Ⰴ"); ("ⰵ", "Ⰵ"); ("ⰶ", "Ⰶ"); ("ⰷ", "Ⰷ"); ("ⰸ", "Ⰸ");
   ("ⰹ", "Ⰹ"); ("ⰺ", "Ⰺ"); ("ⰻ", "Ⰻ"); ("ⰼ", "Ⰼ"); ("ⰽ", "Ⰽ"); ("ⰾ", "Ⰾ");
   ("ⰿ", "Ⰿ"); ("ⱀ", "Ⱀ"); ("ⱁ", "Ⱁ"); ("ⱂ", "Ⱂ"); ("ⱃ", "Ⱃ"); ("ⱄ", "Ⱄ");
   ("ⱅ", "Ⱅ"); ("ⱆ", "Ⱆ"); ("ⱇ", "Ⱇ"); ("ⱈ", "Ⱈ"); ("ⱉ", "Ⱉ"); ("ⱊ", "Ⱊ");
   ("ⱋ", "Ⱋ"); ("ⱌ", "Ⱌ"); ("ⱍ", "Ⱍ"); ("ⱎ", "Ⱎ"); ("ⱏ", "Ⱏ"); ("ⱐ", "Ⱐ");
   ("ⱑ", "Ⱑ"); ("ⱒ", "Ⱒ"); ("ⱓ", "Ⱓ"); ("ⱔ", "Ⱔ"); ("ⱕ", "Ⱕ"); ("ⱖ", "Ⱖ");
   ("ⱗ", "Ⱗ"); ("ⱘ", "Ⱘ"); ("ⱙ", "Ⱙ"); ("ⱚ", "Ⱚ"); ("ⱛ", "Ⱛ"); ("ⱜ", "Ⱜ");
   ("ⱝ", "Ⱝ"); ("ⱞ", "Ⱞ"); ("ⱟ", "Ⱟ"); ("ⱡ", "Ⱡ"); ("ⱥ", "Ⱥ"); ("ⱦ", "Ⱦ");
   ("ⱨ", "Ⱨ"); ("ⱪ", "Ⱪ"); ("ⱬ", "Ⱬ"); ("ⱳ", "Ⱳ"); ("ⱶ", "Ⱶ"); ("ⲁ", "Ⲁ");
   ("ⲃ", "Ⲃ"); ("ⲅ", "Ⲅ"); ("ⲇ", "Ⲇ"); ("ⲉ", "Ⲉ"); ("ⲋ", "Ⲋ"); ("ⲍ", "Ⲍ");
   ("ⲏ", "Ⲏ"); ("ⲑ", "Ⲑ"); ("ⲓ", "Ⲓ"); ("ⲕ", "Ⲕ"); ("ⲗ", "Ⲗ"); ("ⲙ", "Ⲙ");
   ("ⲛ", "Ⲛ"); ("ⲝ", "Ⲝ"); ("ⲟ", "Ⲟ"); ("ⲡ", "Ⲡ"); ("ⲣ", "Ⲣ"); ("ⲥ", "Ⲥ");
   ("ⲧ", "Ⲧ"); ("ⲩ", "Ⲩ"); ("ⲫ", "Ⲫ"); ("ⲭ", "Ⲭ"); ("ⲯ", "Ⲯ"); ("ⲱ", "Ⲱ");
   ("ⲳ", "Ⲳ"); ("ⲵ", "Ⲵ"); ("ⲷ", "Ⲷ"); ("ⲹ", "Ⲹ"); ("ⲻ", "Ⲻ"); ("ⲽ", "Ⲽ");
   ("ⲿ", "Ⲿ"); ("ⳁ", "Ⳁ"); ("ⳃ", "Ⳃ"); ("ⳅ", "Ⳅ"); ("ⳇ", "Ⳇ"); ("ⳉ", "Ⳉ");
   ("ⳋ", "Ⳋ"); ("ⳍ", "Ⳍ"); ("ⳏ", "Ⳏ"); ("ⳑ", "Ⳑ"); ("ⳓ", "Ⳓ"); ("ⳕ", "Ⳕ");
   ("ⳗ", "Ⳗ"); ("ⳙ", "Ⳙ"); ("ⳛ", "Ⳛ"); ("ⳝ", "Ⳝ"); ("ⳟ", "Ⳟ"); ("ⳡ", "Ⳡ");
   ("ⳣ", "Ⳣ"); ("ⳬ", "Ⳬ"); ("ⳮ", "Ⳮ"); ("ⳳ", "Ⳳ"); ("ⴀ", "Ⴀ"); ("ⴁ", "Ⴁ");
   ("ⴂ", "Ⴂ"); ("ⴃ", "Ⴃ"); ("ⴄ", "Ⴄ"); ("ⴅ", "Ⴅ"); ("ⴆ", "Ⴆ"); ("ⴇ", "Ⴇ");
   ("ⴈ", "Ⴈ"); ("ⴉ", "Ⴉ"); ("ⴊ", "Ⴊ"); ("ⴋ", "Ⴋ"); ("ⴌ", "Ⴌ"); ("ⴍ", "Ⴍ");
   ("ⴎ", "Ⴎ"); ("ⴏ", "Ⴏ"); ("ⴐ", "Ⴐ"); ("ⴑ", "Ⴑ"); ("ⴒ", "Ⴒ"); ("ⴓ", "Ⴓ");
   ("ⴔ", "Ⴔ"); ("ⴕ", "Ⴕ"); ("ⴖ", "Ⴖ"); ("ⴗ", "Ⴗ"); ("ⴘ", "Ⴘ"); ("ⴙ", "Ⴙ");
   ("ⴚ", "Ⴚ"); ("ⴛ", "Ⴛ"); ("ⴜ", "Ⴜ"); ("ⴝ", "Ⴝ"); ("ⴞ", "Ⴞ"); ("ⴟ", "Ⴟ");
   ("ⴠ", "Ⴠ"); ("ⴡ", "Ⴡ"); ("ⴢ", "Ⴢ"); ("ⴣ", "Ⴣ"); ("ⴤ", "Ⴤ"); ("ⴥ", "Ⴥ");
   ("ⴧ", "Ⴧ"); ("ⴭ", "Ⴭ"); ("ꙁ", "Ꙁ"); ("ꙃ", "Ꙃ"); ("ꙅ", "Ꙅ"); ("ꙇ", "Ꙇ");
   ("ꙉ", "Ꙉ"); ("ꙋ", "Ꙋ"); ("ꙍ", "Ꙍ"); ("ꙏ", "Ꙏ"); ("ꙑ", "Ꙑ"); ("ꙓ", "Ꙓ");
   ("ꙕ", "Ꙕ"); ("ꙗ", "Ꙗ"); ("ꙙ", "Ꙙ"); ("ꙛ", "Ꙛ"); ("ꙝ", "Ꙝ"); ("ꙟ", "Ꙟ");
   ("ꙡ", "Ꙡ"); ("ꙣ", "Ꙣ"); ("ꙥ", "Ꙥ"); ("ꙧ", "Ꙧ"); ("ꙩ", "Ꙩ"); ("ꙫ", "Ꙫ");
   ("ꙭ", "Ꙭ"); ("ꚁ", "Ꚁ"); ("ꚃ", "Ꚃ"); ("ꚅ", "Ꚅ"); ("ꚇ", "Ꚇ"); ("ꚉ", "Ꚉ");
   ("ꚋ", "Ꚋ"); ("ꚍ", "Ꚍ"); ("ꚏ", "Ꚏ"); ("ꚑ", "Ꚑ"); ("ꚓ", "Ꚓ"); ("ꚕ", "Ꚕ");
   ("ꚗ", "Ꚗ"); ("ꚙ", "Ꚙ"); ("ꚛ", "Ꚛ"); ("ꜣ", "Ꜣ"); ("ꜥ", "Ꜥ"); ("ꜧ", "Ꜧ");
   ("ꜩ", "Ꜩ"); ("ꜫ", "Ꜫ"); ("ꜭ", "Ꜭ"); ("ꜯ", "Ꜯ"); ("ꜳ", "Ꜳ"); ("ꜵ", "Ꜵ");
   ("ꜷ", "Ꜷ"); ("ꜹ", "Ꜹ"); ("ꜻ", "Ꜻ"); ("ꜽ", "Ꜽ"); ("ꜿ", "Ꜿ"); ("ꝁ", "Ꝁ");
   ("ꝃ", "Ꝃ"); ("ꝅ", "Ꝅ"); ("ꝇ", "Ꝇ"); ("ꝉ", "Ꝉ"); ("ꝋ", "Ꝋ"); ("ꝍ", "Ꝍ");
   ("ꝏ", "Ꝏ"); ("ꝑ", "Ꝑ"); ("ꝓ", "Ꝓ"); ("ꝕ", "Ꝕ"); ("ꝗ", "Ꝗ"); ("ꝙ", "Ꝙ");
   ("ꝛ", "Ꝛ"); ("ꝝ", "Ꝝ"); ("ꝟ", "Ꝟ"); ("ꝡ", "Ꝡ"); ("ꝣ", "Ꝣ"); ("ꝥ", "Ꝥ");
   ("ꝧ", "Ꝧ"); ("ꝩ", "Ꝩ"); ("ꝫ", "Ꝫ"); ("ꝭ", "Ꝭ"); ("ꝯ", "Ꝯ"); ("ꝺ", "Ꝺ");
   ("ꝼ", "Ꝼ"); ("ꝿ", "Ꝿ"); ("ꞁ", "Ꞁ"); ("ꞃ", "Ꞃ"); ("ꞅ", "Ꞅ"); ("ꞇ", "Ꞇ");
   ("ꞌ", "Ꞌ"); ("ꞑ", "Ꞑ"); ("ꞓ", "Ꞓ"); ("ꞔ", "Ꞔ"); ("ꞗ", "Ꞗ"); ("ꞙ", "Ꞙ");
   ("ꞛ", "Ꞛ"); ("ꞝ", "Ꞝ"); ("ꞟ", "Ꞟ"); ("ꞡ", "Ꞡ"); ("ꞣ", "Ꞣ"); ("ꞥ", "Ꞥ");
   ("ꞧ", "Ꞧ"); ("ꞩ", "Ꞩ"); ("ꞵ", "Ꞵ"); ("ꞷ", "Ꞷ"); ("ꞹ", "Ꞹ"); ("ꞻ", "Ꞻ");
   ("ꞽ", "Ꞽ"); ("ꞿ", "Ꞿ"); ("ꟁ", "Ꟁ"); ("ꟃ", "Ꟃ"); ("ꟈ", "Ꟈ"); ("ꟊ", "Ꟊ");
   ("ꟑ", "Ꟑ"); ("ꟗ", "Ꟗ"); ("ꟙ", "Ꟙ"); ("ꟶ", "Ꟶ"); ("ꭓ", "Ꭓ"); ("ꭰ", "Ꭰ");
   ("ꭱ", "Ꭱ"); ("ꭲ", "Ꭲ"); ("ꭳ", "Ꭳ"); ("ꭴ", "Ꭴ"); ("ꭵ", "Ꭵ"); ("ꭶ", "Ꭶ");
   ("ꭷ", "Ꭷ"); ("ꭸ", "Ꭸ"); ("ꭹ", "Ꭹ"); ("ꭺ", "Ꭺ"); ("ꭻ", "Ꭻ"); ("ꭼ", "Ꭼ");
   ("ꭽ", "Ꭽ"); ("ꭾ", "Ꭾ"); ("ꭿ", "Ꭿ"); ("ꮀ", "Ꮀ"); ("ꮁ", "Ꮁ"); ("ꮂ", "Ꮂ");
   ("ꮃ", "Ꮃ"); ("ꮄ", "Ꮄ"); ("ꮅ", "Ꮅ"); ("ꮆ", "Ꮆ"); ("ꮇ", "Ꮇ"); ("ꮈ", "Ꮈ");
   ("ꮉ", "Ꮉ"); ("ꮊ", "Ꮊ"); ("ꮋ", "Ꮋ"); ("ꮌ", "Ꮌ"); ("ꮍ", "Ꮍ"); ("ꮎ", "Ꮎ");
   ("ꮏ", "Ꮏ"); ("ꮐ", "Ꮐ"); ("ꮑ", "Ꮑ"); ("ꮒ", "Ꮒ"); ("ꮓ", "Ꮓ"); ("ꮔ", "Ꮔ");
   ("ꮕ", "Ꮕ"); ("ꮖ", "Ꮖ"); ("ꮗ", "Ꮗ"); ("ꮘ", "Ꮘ"); ("ꮙ", "Ꮙ"); ("ꮚ", "Ꮚ");
   ("ꮛ", "Ꮛ"); ("ꮜ", "Ꮜ"); ("ꮝ", "Ꮝ"); ("ꮞ", "Ꮞ"); ("ꮟ", "Ꮟ"); ("ꮠ", "Ꮠ");
   ("ꮡ", "Ꮡ"); ("ꮢ", "Ꮢ"); ("ꮣ", "Ꮣ"); ("ꮤ", "Ꮤ"); ("ꮥ", "Ꮥ"); ("ꮦ", "Ꮦ");
   ("ꮧ", "Ꮧ"); ("ꮨ", "Ꮨ"); ("ꮩ", "Ꮩ"); ("ꮪ", "Ꮪ"); ("ꮫ", "Ꮫ"); ("ꮬ", "Ꮬ");
   ("ꮭ", "Ꮭ"); ("ꮮ", "Ꮮ"); ("ꮯ", "Ꮯ"); ("ꮰ", "Ꮰ"); ("ꮱ", "Ꮱ"); ("ꮲ", "Ꮲ");
   ("ꮳ", "Ꮳ"); ("ꮴ", "Ꮴ"); ("ꮵ", "Ꮵ"); ("ꮶ", "Ꮶ"); ("ꮷ", "Ꮷ"); ("ꮸ", "Ꮸ");
   ("ꮹ", "Ꮹ"); ("ꮺ", "Ꮺ"); ("ꮻ", "Ꮻ"); ("ꮼ", "Ꮼ"); ("ꮽ", "Ꮽ"); ("ꮾ", "Ꮾ");
   ("ꮿ", "Ꮿ"); ("ﬀ", "FF"); ("ﬁ", "FI"); ("ﬂ", "FL"); ("ﬃ", "FFI"); ("ﬄ", "FFL");
   ("ﬅ", "ST"); ("ﬆ", "ST"); ("ﬓ", "ՄՆ"); ("ﬔ", "ՄԵ"); ("ﬕ", "ՄԻ"); ("ﬖ", "ՎՆ");
   ("ﬗ", "ՄԽ"); ("ａ", "Ａ"); ("ｂ", "Ｂ"); ("ｃ", "Ｃ"); ("ｄ", "Ｄ"); ("ｅ", "Ｅ");
   ("ｆ", "Ｆ"); ("ｇ", "Ｇ"); ("ｈ", "Ｈ"); ("ｉ", "Ｉ"); ("ｊ", "Ｊ"); ("ｋ", "Ｋ");
   ("ｌ", "Ｌ"); ("ｍ", "Ｍ"); ("ｎ", "Ｎ"); ("ｏ", "Ｏ"); ("ｐ", "Ｐ"); ("ｑ", "Ｑ");
   ("ｒ", "Ｒ"); ("ｓ", "Ｓ"); ("ｔ", "Ｔ"); ("ｕ", "Ｕ"); ("ｖ", "Ｖ"); ("ｗ", "Ｗ");
   ("ｘ", "Ｘ"); ("ｙ", "Ｙ"); ("ｚ", "Ｚ"); ("𐐨", "𐐀"); ("𐐩", "𐐁"); ("𐐪", "𐐂");
   ("𐐫", "𐐃"); ("𐐬", "𐐄"); ("𐐭", "𐐅"); ("𐐮", "𐐆"); ("𐐯", "𐐇"); ("𐐰", "𐐈");
   ("𐐱", "𐐉"); ("𐐲", "𐐊"); ("𐐳", "𐐋"); ("𐐴", "𐐌"); ("𐐵", "𐐍"); ("𐐶", "𐐎");
   ("𐐷", "𐐏"); ("𐐸", "𐐐"); ("𐐹", "𐐑"); ("𐐺", "𐐒"); ("𐐻", "𐐓"); ("𐐼", "𐐔");
   ("𐐽", "𐐕"); ("𐐾", "𐐖"); ("𐐿", "𐐗"); ("𐑀", "𐐘"); ("𐑁", "𐐙"); ("𐑂", "𐐚");
   ("𐑃", "𐐛"); ("𐑄", "𐐜"); ("𐑅", "𐐝"); ("𐑆", "𐐞"); ("𐑇", "𐐟"); ("𐑈", "𐐠");
   ("𐑉", "𐐡"); ("𐑊", "𐐢"); ("𐑋", "𐐣"); ("𐑌", "𐐤"); ("𐑍", "𐐥"); ("𐑎", "𐐦");
   ("𐑏", "𐐧"); ("𐓘", "𐒰"); ("𐓙", "𐒱"); ("𐓚", "𐒲"); ("𐓛", "𐒳"); ("𐓜", "𐒴");
   ("𐓝", "𐒵"); ("𐓞", "𐒶"); ("𐓟", "𐒷"); ("𐓠", "𐒸"); ("𐓡", "𐒹"); ("𐓢", "𐒺");
   ("𐓣", "𐒻"); ("𐓤", "𐒼"); ("𐓥", "𐒽"); ("𐓦", "𐒾"); ("𐓧", "𐒿"); ("𐓨", "𐓀");
   ("𐓩", "𐓁"); ("𐓪", "𐓂"); ("𐓫", "𐓃"); ("𐓬", "𐓄"); ("𐓭", "𐓅"); ("𐓮", "𐓆");
   ("𐓯", "𐓇"); ("𐓰", "𐓈"); ("𐓱", "𐓉"); ("𐓲", "𐓊"); ("𐓳", "𐓋"); ("𐓴", "𐓌");
   ("𐓵", "𐓍"); ("𐓶", "𐓎"); ("𐓷", "𐓏"); ("𐓸", "𐓐"); ("𐓹", "𐓑"); ("𐓺", "𐓒");
   ("𐓻", "𐓓"); ("𐖗", "𐕰"); ("𐖘", "𐕱"); ("𐖙", "𐕲"); ("𐖚", "𐕳"); ("𐖛", "𐕴");
   ("𐖜", "𐕵"); ("𐖝", "𐕶"); ("𐖞", "𐕷"); ("𐖟", "𐕸"); ("𐖠", "𐕹"); ("𐖡", "𐕺");
   ("𐖣", "𐕼"); ("𐖤", "𐕽"); ("𐖥", "𐕾"); ("𐖦", "𐕿"); ("𐖧", "𐖀"); ("𐖨", "𐖁");
   ("𐖩", "𐖂"); ("𐖪", "𐖃"); ("𐖫", "𐖄"); ("𐖬", "𐖅"); ("𐖭", "𐖆"); ("𐖮", "𐖇");
   ("𐖯", "𐖈"); ("𐖰", "𐖉"); ("𐖱", "𐖊"); ("𐖳", "𐖌"); ("𐖴", "𐖍"); ("𐖵", "𐖎");
   ("𐖶", "𐖏"); ("𐖷", "𐖐"); ("𐖸", "𐖑"); ("𐖹", "𐖒"); ("𐖻", "𐖔"); ("𐖼", "𐖕");
   ("𐳀", "𐲀"); ("𐳁", "𐲁"); ("𐳂", "𐲂"); ("𐳃", "𐲃"); ("𐳄", "𐲄"); ("𐳅", "𐲅");
   ("𐳆", "𐲆"); ("𐳇", "𐲇"); ("𐳈", "𐲈"); ("𐳉", "𐲉"); ("𐳊", "𐲊"); ("𐳋", "𐲋");
   ("𐳌", "𐲌"); ("𐳍", "𐲍"); ("𐳎", "𐲎"); ("𐳏", "𐲏"); ("𐳐", "𐲐"); ("𐳑", "𐲑");
   ("𐳒", "𐲒"); ("𐳓", "𐲓"); ("𐳔", "𐲔"); ("𐳕", "𐲕"); ("𐳖", "𐲖"); ("𐳗", "𐲗");
   ("𐳘", "𐲘"); ("𐳙", "𐲙"); ("𐳚", "𐲚"); ("𐳛", "𐲛"); ("𐳜", "𐲜"); ("𐳝", "𐲝");
   ("𐳞", "𐲞"); ("𐳟", "𐲟"); ("𐳠", "𐲠"); ("𐳡", "𐲡"); ("𐳢", "𐲢"); ("𐳣", "𐲣");
   ("𐳤", "𐲤"); ("𐳥", "𐲥"); ("𐳦", "𐲦"); ("𐳧", "𐲧"); ("𐳨", "𐲨"); ("𐳩", "𐲩");
   ("𐳪", "𐲪"); ("𐳫", "𐲫"); ("𐳬", "𐲬"); ("𐳭", "𐲭"); ("𐳮", "𐲮"); ("𐳯", "𐲯");
   ("𐳰", "𐲰"); ("𐳱", "𐲱"); ("𐳲", "𐲲"); ("𑣀", "𑢠"); ("𑣁", "𑢡"); ("𑣂", "𑢢");
   ("𑣃", "𑢣"); ("𑣄", "𑢤"); ("𑣅", "𑢥"); ("𑣆", "𑢦"); ("𑣇", "𑢧"); ("𑣈", "𑢨");
   ("𑣉", "𑢩"); ("𑣊", "𑢪"); ("𑣋", "𑢫"); ("𑣌", "𑢬"); ("𑣍", "𑢭"); ("𑣎", "𑢮");
   ("𑣏", "𑢯"); ("𑣐", "𑢰"); ("𑣑", "𑢱"); ("𑣒", "𑢲"); ("𑣓", "𑢳"); ("𑣔", "𑢴");
   ("𑣕", "𑢵"); ("𑣖", "𑢶"); ("𑣗", "𑢷"); ("𑣘", "𑢸"); ("𑣙", "𑢹"); ("𑣚", "𑢺");
   ("𑣛", "𑢻"); ("𑣜", "𑢼"); ("𑣝", "𑢽"); ("𑣞", "𑢾"); ("𑣟", "𑢿"); ("𖹠", "𖹀");
   ("𖹡", "𖹁"); ("𖹢", "𖹂"); ("𖹣", "𖹃"); ("𖹤", "𖹄"); ("𖹥", "𖹅"); ("𖹦", "𖹆");
   ("𖹧", "𖹇"); ("𖹨", "𖹈"); ("𖹩", "𖹉"); ("𖹪", "𖹊"); ("𖹫", "𖹋"); ("𖹬", "𖹌");
   ("𖹭", "𖹍"); ("𖹮", "𖹎"); ("𖹯", "𖹏"); ("𖹰", "𖹐"); ("𖹱", "𖹑"); ("𖹲", "𖹒");
   ("𖹳", "𖹓"); ("𖹴", "𖹔"); ("𖹵", "𖹕"); ("𖹶", "𖹖"); ("𖹷", "𖹗"); ("𖹸", "𖹘");
   ("𖹹", "𖹙"); ("𖹺", "𖹚"); ("𖹻", "𖹛"); ("𖹼", "𖹜"); ("𖹽", "𖹝"); ("𖹾", "𖹞");
   ("𖹿", "𖹟"); ("𞤢", "𞤀"); ("𞤣", "𞤁"); ("𞤤", "𞤂"); ("𞤥", "𞤃"); ("𞤦", "𞤄");
   ("𞤧", "𞤅"); ("𞤨", "𞤆"); ("𞤩", "𞤇"); ("𞤪", "𞤈"); ("𞤫", "𞤉"); ("𞤬", "𞤊");
   ("𞤭", "𞤋"); ("𞤮", "𞤌"); ("𞤯", "𞤍"); ("𞤰", "𞤎"); ("𞤱", "𞤏"); ("𞤲", "𞤐");
   ("𞤳", "𞤑"); ("𞤴", "𞤒"); ("𞤵", "𞤓"); ("𞤶", "𞤔"); ("𞤷", "𞤕"); ("𞤸", "𞤖");
   ("𞤹", "𞤗"); ("𞤺", "𞤘"); ("𞤻", "𞤙"); ("𞤼", "𞤚"); ("𞤽", "𞤛"); ("𞤾", "𞤜");
   ("𞤿", "𞤝"); ("𞥀", "𞤞"); ("𞥁", "𞤟"); ("𞥂", "𞤠"); ("𞥃", "𞤡")].

(** The entry of the table whose character the string starts with. *)
Fixpoint upper_entry (table : list (string * string)) (s : string)
  : option (string * string) :=
  match table with
  | [] => None
  | (source, image) :: table' =>
      if String.prefix source s then Some (source, image)
      else upper_entry table' s
  end.

(** [s.upper()], character by character; [skip] counts the bytes still
    to pass of a character already turned into its capital. *)
Fixpoint upper_from (skip : nat) (s : string) : string :=
  match s with
  | EmptyString => EmptyString
  | String c s' =>
      match skip with
      | S skip' => upper_from skip' s'
      | 0%nat =>
          match upper_entry upper_table s with
          | Some (source, image) =>
              image +:+ upper_from (String.length source - 1) s'
          | None => String (upper_ascii c) (upper_from 0 s')
          end
      end
  end.

(** [s.upper()]. *)
Definition upper (s : string) : string := upper_from 0 s.

(* ================================================================== *)
(** * [workflow.py]: the explain analyser                              *)
(* ================================================================== *)

(** ** The sort search

    [search_for_sort] only ever asks five things of the object in hand,
    so it runs on any type of objects answering them: the decoded trees
    ([pyval]), and object graphs that share or loop. *)
Class PlanObject (T : Type) : Type := {
  obj_truthy : T -> bool;               (* bool(o) *)
  obj_get : T -> string -> result T;    (* o.get(key) *)
  obj_is_str : T -> string -> bool;     (* o == "..." *)
  obj_is_dict : T -> bool;              (* isinstance(o, dict) *)
  obj_items : T -> option (list T)      (* the items when isinstance(o, list) *)
}.

#[global] Instance pyval_object : PlanObject pyval := {
  obj_truthy := truthy;
  obj_get := py_get;
  obj_is_str := fun v s => py_eq v (VStr s);
  obj_is_dict := isinstance_dict;
  obj_items := fun v => match v with VList l => Some l | _ => None end
}.

Definition recursion_error : exn :=
  Exn RecursionError "maximum recursion depth exceeded".

Definition child_links : list string :=
  ["inputStage"; "inputStages"; "shards"; "innerStage"; "outerStage"].

(** [for x in xs: if f(x): return True] followed by [return False]. *)
Fixpoint first_true {A : Type} (f : A -> result bool) (xs : list A)
  : result bool :=
  match xs with
  | [] => Ok false
  | x :: xs' =>
      f x ≫= fun found : bool => if found then Ok true else first_true f xs'
  end.

(** [search_for_sort], with the call-stack frames left to the interpreter
    as [limit]: Python raises [RecursionError] when they run out. *)
Fixpoint search_for_sort {T : Type} `{PlanObject T} (limit : nat)
    (stage_dict : T)
  : result bool :=
  match limit with
  | 0%nat => Raise recursion_error
  | S limit' =>
      if negb (obj_truthy stage_dict) then Ok false else
      stage ← obj_get stage_dict "stage";
      if obj_is_str stage "SORT" then Ok true else
      first_true
        (fun key =>
           substage ← obj_get stage_dict key;
           if obj_is_dict substage then search_for_sort limit' substage
           else match obj_items substage with
                | Some items => first_true (search_for_sort limit') items
                | None => Ok false
                end)
        child_links
  end.

(** Nesting depth of a decoded value. *)
Fixpoint depth (v : pyval) : nat :=
  match v with
  | VList l => S (foldr (fun x n => Nat.max (depth x) n) 0%nat l)
  | VDict d => S (foldr (fun kv n => Nat.max (depth kv.2) n) 0%nat d)
  | _ => 0%nat
  end.

(** The search the analyser runs on a decoded plan: the plan is a finite
    tree and the interpreter's stack is deeper than it. *)
Definition triggers_sort (winning_plan : pyval) : result bool :=
  search_for_sort (S (depth winning_plan)) winning_plan.

(** ** Stage metrics *)

(** The float a ratio holds: [float("inf")], or the float a true division
    [num / den] of two integers gives, which is the double nearest to
    their quotient. *)
Inductive ratio : Type :=
  | Infinity
  | Quotient (num den : Z).

Record HealthMetrics : Type := mkHealthMetrics {
  nReturned : pyval;
  totalDocsExamined : pyval;
  totalKeysExamined : pyval;
  amplificationRatio : ratio;
  keyDocRatio : ratio;
  triggersSort : bool;
  covered : bool
}.

Record StageMetrics : Type := mkStageMetrics {
  stage : pyval;
  healthMetrics : HealthMetrics
}.

Record Analysis : Type := mkAnalysis {
  stagesAnalysis : list StageMetrics
}.

Definition as_number (v : pyval) : option Z :=
  match v with
  | VInt n => Some n
  | VBool b => Some (Z.b2z b)
  | _ => None
  end.

(** Whether the double nearest to [m / n] is out of range: the quotient
    reaches [2^1024 - 2^970], halfway between the largest double and
    [2^1024]. *)
Definition float_overflow (m n : Z) : bool :=
  Z.leb ((2 ^ 1024 - 2 ^ 970) * Z.abs n) (Z.abs m).

(** [a / b]. *)
Definition py_truediv (a b : pyval) : result ratio :=
  match as_number a, as_number b with
  | Some m, Some n =>
      if Z.eqb n 0 then Raise (Exn ZeroDivisionError "division by zero")
      else if float_overflow m n
      then Raise (Exn OverflowError
                      "integer division result too large for a float")
      else Ok (Quotient m n)
  | _, _ =>
      Raise (Exn TypeError
               ("unsupported operand type(s) for /: '" +:+ type_name a
                  +:+ "' and '" +:+ type_name b +:+ "'"))
  end.

(** [num / den if den else float("inf")]. *)
Definition ratio_or_inf (num den : pyval) : result ratio :=
  if truthy den then py_truediv num den else Ok Infinity.

(** [proj_fields] once the two statements that fill it have run. *)
Definition projected_fields (projection : dict) : gset string :=
  let proj_fields : gset string :=
    list_to_set (dict_keys (List.filter (fun kv => truthy kv.2) projection)) in
  match dict_get "_id" projection with
  | Some flag =>
      if negb (py_eq flag (VInt 0)) then proj_fields ∪ {["_id"]}
      else proj_fields
  | None => proj_fields
  end.

(** The value of [covered]. *)
Definition covered_by_index (projection winning_plan : pyval) : result bool :=
  if truthy projection then
    input_stage ← py_get winning_plan "inputStage";
    if truthy input_stage then
      input_stage ← py_get_default winning_plan "inputStage" (VDict []);
      key_pattern ← py_get_default input_stage "keyPattern" (VDict []);
      index_keys ← py_keys key_pattern;
      items ← py_items projection;
      Ok (bool_decide (projected_fields items ⊆ list_to_set index_keys))
    else Ok false
  else Ok false.

(** The three lookups that open both branches of the analyser. *)
Definition plan_and_stats (holder : pyval) : result (pyval * pyval) :=
  query_planner ← py_get_default holder "queryPlanner" (VDict []);
  winning_plan ← py_get_default query_planner "winningPlan" (VDict []);
  execution_stats ← py_get_default holder "executionStats" (VDict []);
  Ok (winning_plan, execution_stats).

(** The entry appended to [results] for one stage. *)
Definition stage_metrics (winning_plan execution_stats : pyval)
    (default_stage : string) (projection : pyval) : result StageMetrics :=
  stage_type ← py_get_default winning_plan "stage" (VStr default_stage);
  n_returned ← py_get_default execution_stats "nReturned" (VInt 0);
  total_docs_examined ←
    py_get_default execution_stats "totalDocsExamined" (VInt 0);
  total_keys_examined ←
    py_get_default execution_stats "totalKeysExamined" (VInt 0);
  amplification_ratio ← ratio_or_inf total_docs_examined n_returned;
  key_doc_ratio ← ratio_or_inf total_keys_examined total_docs_examined;
  is_covered ← covered_by_index projection winning_plan;
  sorts ← triggers_sort winning_plan;
  Ok {| stage := stage_type;
        healthMetrics :=
          {| nReturned := n_returned;
             totalDocsExamined := total_docs_examined;
             totalKeysExamined := total_keys_examined;
             amplificationRatio := amplification_ratio;
             keyDocRatio := key_doc_ratio;
             triggersSort := sorts;
             covered := is_covered |} |}.

(** One turn of [for stage in explain_output["stages"]]. *)
Definition staged_metrics (projection stage_entry : pyval)
  : result StageMetrics :=
  items ← py_items stage_entry;
  match items with
  | [] => Raise (Exn StopIteration EmptyString)
  | (stage_name, stage_detail) :: _ =>
      '(winning_plan, stats) ← plan_and_stats stage_detail;
      stage_metrics winning_plan stats (upper (strip_dollar stage_name))
                    projection
  end.

(** [for x in xs: results.append(f(x))]. *)
Fixpoint for_each {A B : Type} (f : A -> result B) (xs : list A)
  : result (list B) :=
  match xs with
  | [] => Ok []
  | x :: xs' => y ← f x; ys ← for_each f xs'; Ok (y :: ys)
  end.

Definition analyze_explain_metrics (explain_output projection : pyval)
  : result Analysis :=
  has_stages ← py_contains "stages" explain_output;
  if negb has_stages then
    '(winning_plan, execution_stats) ← plan_and_stats explain_output;
    metrics ← stage_metrics winning_plan execution_stats "UNKNOWN" projection;
    Ok {| stagesAnalysis := [metrics] |}
  else
    stages ← py_getitem explain_output "stages";
    stages ← py_iter stages;
    results ← for_each (staged_metrics projection) stages;
    Ok {| stagesAnalysis := results |}.

(* ================================================================== *)
(** * The tools the advisor calls, and the advisor                     *)
(* ================================================================== *)

(** The driver behind [ctx.request_context.lifespan_context.client]: what
    each call of the MongoDB client answers, or the exception it raises. *)
Record Ctx : Type := mkCtx {
  db_command : string -> pyval -> result pyval;
  coll_list_indexes : string -> string -> result (list pyval);
  coll_aggregate : string -> string -> list pyval -> result (list pyval);
  coll_find : string -> string -> dict -> Z -> Z -> result (list dict);
  coll_estimated_document_count : string -> string -> result Z;
  coll_count_documents : string -> string -> dict -> result Z
}.

(** [except Exception as e: return ErrorResponse(error=str(e))]. *)
Definition return_error (e : exn) : result pyval := Ok (VErr (str e)).

Definition set_unless_none (key : string) (v : pyval) (d : dict) : dict :=
  match v with
  | VNone => d
  | _ => dict_set key v d
  end.

Definition explain_find_query (ctx : Ctx) (db_name collection_name : string)
    (query sort limit projection : pyval) : result pyval :=
  try_except
    (let find_command := [("find", VStr collection_name)] in
     let find_command := set_unless_none "filter" query find_command in
     let find_command := set_unless_none "sort" sort find_command in
     let find_command := set_unless_none "limit" limit find_command in
     let find_command := set_unless_none "projection" projection find_command in
     db_command ctx db_name
       (VDict [("explain", VDict find_command);
               ("verbosity", VStr "executionStats")]))
    return_error.

Definition explain_count_query (ctx : Ctx) (db_name collection_name : string)
    (query : pyval) : result pyval :=
  try_except
    (db_command ctx db_name
       (VDict [("explain", VDict [("count", VStr collection_name);
                                  ("query", query)]);
               ("verbosity", VStr "executionStats")]))
    return_error.

Definition explain_aggregate_query (ctx : Ctx)
    (db_name collection_name : string) (pipeline : pyval) : result pyval :=
  try_except
    (db_command ctx db_name
       (VDict [("explain", VDict [("aggregate", VStr collection_name);
                                  ("pipeline", pipeline);
                                  ("cursor", VDict [])]);
               ("verbosity", VStr "executionStats")]))
    return_error.

Definition list_indexes (ctx : Ctx) (db_name collection_name : string)
  : result pyval :=
  try_except
    (indexes ← coll_list_indexes ctx db_name collection_name;
     Ok (VList indexes))
    return_error.

Definition index_stats (ctx : Ctx) (db_name collection_name : string)
  : result pyval :=
  try_except
    (stats ← coll_aggregate ctx db_name collection_name
               [VDict [("$indexStats", VDict [])]];
     Ok (VDict [("indexes", VList stats)]))
    return_error.

Definition collection_stats (ctx : Ctx) (db_name collection_name : string)
  : result pyval :=
  try_except
    (db_command ctx db_name (VDict [("collStats", VStr collection_name)]))
    return_error.

(** The dictionary the three advisor tools return. *)
Record DiagnosticBundle : Type := mkBundle {
  explain : pyval;
  analysis : Analysis;
  indexes : pyval;
  indexes_stats : pyval;
  collections_stats : pyval
}.

(** The statements the three [try] blocks share after the explain call. *)
Definition bundle_after_explain (ctx : Ctx) (db_name collection_name : string)
    (explain_output projection : pyval) : result (response DiagnosticBundle) :=
  analysis ← analyze_explain_metrics explain_output projection;
  indexes ← list_indexes ctx db_name collection_name;
  indexes_stats ← index_stats ctx db_name collection_name;
  collections_stats ← collection_stats ctx db_name collection_name;
  Ok (Success {| explain := explain_output;
                 analysis := analysis;
                 indexes := indexes;
                 indexes_stats := indexes_stats;
                 collections_stats := collections_stats |}).

Definition error_response {A : Type} (e : exn) : result (response A) :=
  Ok (ErrorResponse (str e)).

Definition optimize_find_query (ctx : Ctx) (db_name collection_name : string)
    (query_doc sort limit projection : pyval)
  : result (response DiagnosticBundle) :=
  try_except
    (explain_output ← explain_find_query ctx db_name collection_name
                        query_doc sort limit projection;
     bundle_after_explain ctx db_name collection_name explain_output
                          projection)
    error_response.

Definition optimize_count_query (ctx : Ctx) (db_name collection_name : string)
    (query : pyval) : result (response DiagnosticBundle) :=
  try_except
    (explain_output ← explain_count_query ctx db_name collection_name query;
     bundle_after_explain ctx db_name collection_name explain_output VNone)
    error_response.

Definition optimize_aggregate_query (ctx : Ctx)
    (db_name collection_name : string) (pipeline : pyval)
  : result (response DiagnosticBundle) :=
  try_except
    (explain_output ← explain_aggregate_query ctx db_name collection_name
                        pipeline;
     bundle_after_explain ctx db_name collection_name explain_output VNone)
    error_response.

(* ================================================================== *)
(** * Predicates of the specification                                  *)
(* ================================================================== *)

(** ** Index coverage *)

(** The fields [proj_fields] holds when the subset test runs: those with
    a truthy flag, and the identity field when the projection holds it
    with a flag other than 0. *)
Definition projects (projection : dict) (f : string) : Prop :=
  (∃ flag, (f, flag) ∈ projection ∧ truthy flag = true) ∨
  (f = "_id" ∧
   ∃ flag, dict_get "_id" projection = Some flag ∧ py_eq flag (VInt 0) = false).

(** When the analyser reports a covered stage: a non-empty projection, a
    non-empty [inputStage] child, and every projected field among the
    fields of the child's [keyPattern] (no field when it has none). *)
Definition covering (projection winning_plan : pyval) : Prop :=
  ∃ fields plan child key_pattern,
    projection = VDict fields ∧ fields ≠ [] ∧
    winning_plan = VDict plan ∧
    dict_get "inputStage" plan = Some (VDict child) ∧ child ≠ [] ∧
    default (VDict []) (dict_get "keyPattern" child) = VDict key_pattern ∧
    ∀ f, projects fields f -> f ∈ dict_keys key_pattern.

Definition names_identity (projection : pyval) : Prop :=
  ∃ fields, projection = VDict fields ∧ dict_mem "_id" fields = true.

(** The projected fields in the words of the specification: those with a
    truthy flag, and the identity field when explicitly requested or not
    explicitly excluded. *)
Definition spec_projects (projection : dict) (f : string) : Prop :=
  (∃ flag, (f, flag) ∈ projection ∧ truthy flag = true) ∨
  (f = "_id" ∧
   ¬ ∃ flag, dict_get "_id" projection = Some flag ∧ truthy flag = false).

(** Coverage in the words of the specification: a projection was
    supplied, the winning plan has a single child with a non-empty
    [keyPattern], and the projected fields are among its fields. *)
Definition spec_covered (projection winning_plan : pyval) : Prop :=
  ∃ fields plan child key_pattern,
    projection = VDict fields ∧
    winning_plan = VDict plan ∧
    dict_get "inputStage" plan = Some (VDict child) ∧
    dict_get "keyPattern" child = Some (VDict key_pattern) ∧
    key_pattern ≠ [] ∧
    ∀ f, spec_projects fields f -> f ∈ dict_keys key_pattern.

(** A simple-shape explain output around a winning plan. *)
Definition simple_explain (winning_plan : pyval) : pyval :=
  VDict [("queryPlanner", VDict [("winningPlan", winning_plan)]);
         ("executionStats", VDict [("nReturned", VInt 1);
                                   ("totalDocsExamined", VInt 1);
                                   ("totalKeysExamined", VInt 1)])].

Definition fetch_over (child : dict) : pyval :=
  VDict [("stage", VStr "FETCH"); ("inputStage", VDict child)].

(** The [covered] flags of an analysis, stage by stage. *)
Definition reported_covered (explain_output projection : pyval)
  : result (list bool) :=
  a ← analyze_explain_metrics explain_output projection;
  Ok (map (fun m => covered (healthMetrics m)) (stagesAnalysis a)).

(** ** Plan trees *)

(** [plan_child p c]: the traversal steps from [p] to [c], through a child
    link that holds a mapping or through one that holds a sequence. *)
Inductive plan_child : pyval -> pyval -> Prop :=
  | child_single (plan sub : dict) (key : string) :
      key ∈ child_links ->
      dict_get key plan = Some (VDict sub) ->
      plan_child (VDict plan) (VDict sub)
  | child_in_sequence (plan : dict) (items : list pyval) (key : string)
      (s : pyval) :
      key ∈ child_links ->
      dict_get key plan = Some (VList items) ->
      s ∈ items ->
      plan_child (VDict plan) s.

(** The nodes of a plan: the root and all it reaches through child links. *)
Definition plan_node : pyval -> pyval -> Prop := rtc plan_child.

Definition is_sort_stage (node : pyval) : Prop :=
  ∃ plan, node = VDict plan ∧ dict_get "stage" plan = Some (VStr "SORT").

(** A plan tree: what sits in a sequence of children is a mapping, or a
    falsy filler. *)
Definition plan_tree (root : pyval) : Prop :=
  ∀ node, plan_node root node ->
          isinstance_dict node = true ∨ truthy node = false.

(** A SORT three levels under a sequence-valued link. *)
Definition nested_sort_plan : pyval :=
  VDict [("stage", VStr "SHARD_MERGE");
         ("shards",
          VList [VDict [("stage", VStr "FETCH");
                        ("inputStage",
                         VDict [("stage", VStr "OR");
                                ("inputStages",
                                 VList [VDict [("stage", VStr "IXSCAN")];
                                        VDict [("stage", VStr "SORT")]])])]])].

(** ** An object graph that loops

    [plan = {"stage": "FETCH"}; plan["inputStage"] = plan]: the plan object,
    the string under its stage key, and [None] for every other key. *)
Inductive loop_object : Type :=
  | LoopPlan
  | LoopStage
  | LoopNone.

#[global] Instance loop_plan_object : PlanObject loop_object := {
  obj_truthy := fun o => match o with LoopNone => false | _ => true end;
  obj_get := fun o key =>
    match o with
    | LoopPlan =>
        Ok (if String.eqb key "stage" then LoopStage
            else if String.eqb key "inputStage" then LoopPlan
            else LoopNone)
    | LoopStage => Raise (attribute_error (VStr "FETCH") "get")
    | LoopNone => Raise (attribute_error VNone "get")
    end;
  obj_is_str := fun o s =>
    match o with LoopStage => String.eqb "FETCH" s | _ => false end;
  obj_is_dict := fun o => match o with LoopPlan => true | _ => false end;
  obj_items := fun _ => None
}.

(* ================================================================== *)
(** * [document.py]: fetching documents and joining two collections    *)
(* ================================================================== *)

Record DocumentQueryResponse : Type := mkDocumentQueryResponse {
  documents : list dict;
  total_count : Z;
  limit : Z;
  skip : Z;
  has_more : bool
}.

Definition find_documents (ctx : Ctx) (db_name collection_name : string)
    (query : dict) (limit skip : Z)
  : result (response DocumentQueryResponse) :=
  try_except
    (documents ← coll_find ctx db_name collection_name query skip limit;
     total_count ←
       (if negb (truthy (VDict query))
        then coll_estimated_document_count ctx db_name collection_name
        else coll_count_documents ctx db_name collection_name query);
     Ok (Success {| documents := documents;
                    total_count := total_count;
                    limit := limit;
                    skip := skip;
                    has_more :=
                      Z.ltb (skip + Z.of_nat (length documents)) total_count |}))
    error_response.

(** ** Document objects

    The documents a fetch returns are objects, and the join updates the
    left ones in place: the store maps an object's address to its
    entries.  The two fetches return fresh objects, so no address is both
    a left and a right document, and none occurs twice. *)
Abbreviation store := (gmap nat dict).

Definition deref (σ : store) (a : nat) : dict := default [] (σ !! a).

(** ** The join index *)

(** [right_index]: foreign-field value to the right documents holding it,
    keys in insertion order. *)
Abbreviation right_index := (list (pyval * list nat)).

(** Whether [hash(v)] succeeds. *)
Definition hashable (v : pyval) : bool :=
  match v with
  | VList _ | VDict _ | VErr _ => false
  | _ => true
  end.

Fixpoint index_get (key : pyval) (index : right_index) : option (list nat) :=
  match index with
  | [] => None
  | (k, bucket) :: index' =>
      if py_eq k key then Some bucket else index_get key index'
  end.

(** [right_index.setdefault(key, []).append(doc)]. *)
Fixpoint index_add (key : pyval) (doc : nat) (index : right_index)
  : right_index :=
  match index with
  | [] => [(key, [doc])]
  | (k, bucket) :: index' =>
      if py_eq k key then (k, bucket ++ [doc]) :: index'
      else (k, bucket) :: index_add key doc index'
  end.

(** The loop [for doc in right_docs] that fills [right_index]. *)
Fixpoint build_index (σ : store) (foreign_field : string)
    (right_docs : list nat) (index : right_index) : result right_index :=
  match right_docs with
  | [] => Ok index
  | doc :: right_docs' =>
      match field_value foreign_field (deref σ doc) with
      | VNone => build_index σ foreign_field right_docs' index
      | key =>
          if hashable key
          then build_index σ foreign_field right_docs'
                           (index_add key doc index)
          else Raise (unhashable key)
      end
  end.

(** ** The field path *)

(** [s.split(".")]. *)
Fixpoint split_dot (s : string) : list string :=
  match s with
  | EmptyString => [EmptyString]
  | String c s' =>
      match split_dot s' with
      | [] => [String c EmptyString]
      | part :: parts =>
          if Ascii.eqb c "." then EmptyString :: part :: parts
          else String c part :: parts
      end
  end.

(** [pre_field] and [query_field]. *)
Definition split_field (local_field : string) : string * string :=
  let parts := split_dot local_field in
  (String.concat "." (removelast parts), List.last parts EmptyString).

(** ** Merging right fields *)

(** [f"{right_collection}_{k}"]. *)
Definition prefixed (right_collection k : string) : string :=
  right_collection +:+ "_" +:+ k.

(** [for k, v in r.items(): if k != "_id": target[f"{right_collection}_{k}"] = v]. *)
Definition merge_right (right_collection : string) (r target : dict) : dict :=
  fold_left
    (fun d kv => if String.eqb kv.1 "_id" then d
                 else dict_set (prefixed right_collection kv.1) kv.2 d)
    r target.

(** [{**item, **extra}]. *)
Definition dict_merge (item extra : dict) : dict :=
  fold_left (fun d kv => dict_set kv.1 kv.2 d) extra item.

(** [for r in right_index[key]]: [item] is rebound to its merge with [r]
    and appended to [copied_values]. *)
Fixpoint fan_out (σ : store) (right_collection : string) (bucket : list nat)
    (item : dict) (copied_values : list pyval) : list pyval :=
  match bucket with
  | [] => copied_values
  | r :: bucket' =>
      let item := dict_merge item (merge_right right_collection (deref σ r) []) in
      fan_out σ right_collection bucket' item (copied_values ++ [VDict item])
  end.

(** [left_values.remove(item)], where [item] is the object at index [i]:
    the first element that is [item] or equals it goes. *)
Fixpoint remove_first (i : nat) (item : pyval) (j : nat) (l : list pyval)
  : list pyval :=
  match l with
  | [] => []
  | x :: l' =>
      if Nat.eqb j i || py_eq x item then l'
      else x :: remove_first i item (S j) l'
  end.

(** The loop [for item in left_values], on the list as it stands: [i] is
    the iterator's index, [remaining] bounds the turns left (each turn
    moves the index on and never lengthens the list).  It gives the list
    and [copied_values] at the end, and the exception that ended it. *)
Fixpoint nested_loop (remaining : nat) (σ : store) (index : right_index)
    (query_field right_collection : string) (i : nat)
    (left_values copied_values : list pyval)
  : list pyval * list pyval * option exn :=
  match remaining with
  | 0%nat => (left_values, copied_values, None)
  | S remaining' =>
      match left_values !! i with
      | None => (left_values, copied_values, None)
      | Some (VDict item) =>
          let key := field_value query_field item in
          if hashable key then
            match index_get key index with
            | None =>
                nested_loop remaining' σ index query_field right_collection
                  (S i) (remove_first i (VDict item) 0 left_values)
                  copied_values
            | Some bucket =>
                nested_loop remaining' σ index query_field right_collection
                  (S i) left_values
                  (fan_out σ right_collection bucket item copied_values)
            end
          else (left_values, copied_values, Some (unhashable key))
      | Some _ =>
          nested_loop remaining' σ index query_field right_collection
            (S i) left_values copied_values
      end
  end.

(** One turn of [for left in left_docs]: whether [left] was appended to
    [results], and the store after it. *)
Definition join_left (σ : store) (index : right_index)
    (local_field right_collection : string) (left : nat)
  : result bool * store :=
  let doc := deref σ left in
  let '(pre_field, query_field) := split_field local_field in
  match field_value pre_field doc with
  | VList left_values =>
      let '(left_values', copied_values, raised) :=
        nested_loop (length left_values) σ index query_field right_collection
                    0 left_values [] in
      let doc := dict_set pre_field (VList left_values') doc in
      match raised, copied_values with
      | Some e, _ => (Raise e, <[left := doc]> σ)
      | None, [] => (Ok false, <[left := doc]> σ)
      | None, _ =>
          (Ok true, <[left := dict_set pre_field (VList copied_values) doc]> σ)
      end
  | _ =>
      match field_value local_field doc with
      | VNone => (Ok true, σ)
      | key =>
          if hashable key then
            match index_get key index with
            | None => (Ok true, σ)
            | Some bucket =>
                (Ok true,
                 <[left := fold_left
                             (fun d r => merge_right right_collection
                                                     (deref σ r) d)
                             bucket doc]> σ)
            end
          else (Raise (unhashable key), σ)
      end
  end.

Fixpoint join_loop (σ : store) (index : right_index)
    (local_field right_collection : string) (left_docs results : list nat)
  : result (list nat) * store :=
  match left_docs with
  | [] => (Ok results, σ)
  | left_doc :: left_docs' =>
      match join_left σ index local_field right_collection left_doc with
      | (Ok appended, σ') =>
          join_loop σ' index local_field right_collection left_docs'
                    (if appended then results ++ [left_doc] else results)
      | (Raise e, σ') => (Raise e, σ')
      end
  end.

(** Lines 433 to 473: the index, then the join, over the fetched objects. *)
Definition join_documents (σ : store) (left_docs right_docs : list nat)
    (local_field foreign_field right_collection : string)
  : result (list nat) * store :=
  match build_index σ foreign_field right_docs [] with
  | Ok index => join_loop σ index local_field right_collection left_docs []
  | Raise e => (Raise e, σ)
  end.

(** The store two fetches leave: the left documents from address 0, the
    right ones after them. *)
Definition fetched (left right : list dict) : store :=
  map_seq 0 left ∪ map_seq (length left) right.

(** The join of two fetched sequences: the documents of [results] as they
    stand at the end, and the final store. *)
Definition join (left right : list dict)
    (local_field foreign_field right_collection : string)
  : result (list dict) * store :=
  let '(results, σ) :=
    join_documents (fetched left right)
                   (seq 0 (length left))
                   (seq (length left) (length right))
                   local_field foreign_field right_collection in
  (results ≫= fun results => Ok (map (deref σ) results), σ).

(** What [query_on_different_collections] returns: one of its two
    dictionaries. *)
Inductive join_response : Type :=
  | JoinDocuments (documents : list dict) (total_count : Z)
  | JoinError (error : string).

Definition query_on_different_collections (ctx : Ctx)
    (left_db right_db left_collection right_collection : string)
    (local_field foreign_field : string) (left_query right_query : dict)
    (limit skip : Z) : result join_response :=
  try_except
    (left_resp ← find_documents ctx left_db left_collection left_query
                                limit skip;
     right_resp ← find_documents ctx right_db right_collection right_query
                                 100 0;
     match left_resp, right_resp with
     | ErrorResponse error, _ =>
         Ok (JoinError ("left query failed: " +:+ error))
     | _, ErrorResponse error =>
         Ok (JoinError ("right query failed: " +:+ error))
     | Success left_resp, Success right_resp =>
         results ← (join (documents left_resp) (documents right_resp)
                         local_field foreign_field right_collection).1;
         Ok (JoinDocuments results (Z.of_nat (length results)))
     end)
    (fun e => Ok (JoinError (str e))).

(** ** The join, document by document *)

(** [holds_key foreign_field key r]: the right document [r] has the
    foreign field, with a value equal to [key]. *)
Definition holds_key (foreign_field : string) (key : pyval) (r : dict) : bool :=
  match field_value foreign_field r with
  | VNone => false
  | k => py_eq k key
  end.

(** The right documents a key matches, in right-sequence order. *)
Definition matching (right : list dict) (foreign_field : string) (key : pyval)
  : list dict :=
  List.filter (holds_key foreign_field key) right.

(** A left document with the fields of its matches merged onto it, the
    earlier match first. *)
Definition enrich (right_collection : string) (matches : list dict)
    (doc : dict) : dict :=
  fold_left (fun d r => merge_right right_collection r d) matches doc.

(** A copy of an array element merged with one right document. *)
Definition merged_copy (right_collection : string) (item r : dict) : dict :=
  dict_merge item (merge_right right_collection r []).

(** The array rebuilt from the elements that match: a merged copy for
    each element and matching right document. *)
Definition rebuilt (right : list dict)
    (foreign_field right_collection query_field : string)
    (items : list pyval) : list pyval :=
  flat_map
    (fun it =>
       match it with
       | VDict item =>
           map (fun r => VDict (merged_copy right_collection item r))
               (matching right foreign_field (field_value query_field item))
       | _ => []
       end)
    items.

(** The copies the join makes of an element for its matches: each copy
    is merged onto the one before it. *)
Fixpoint accumulated (right_collection : string) (matches : list dict)
    (item : dict) : list pyval :=
  match matches with
  | [] => []
  | r :: matches' =>
      let item := merged_copy right_collection item r in
      VDict item :: accumulated right_collection matches' item
  end.

(** What the join collects from an array: an element without a match is
    removed from the array under the iterator, which then passes over the
    element after it ([skip]); what is not a mapping is passed over. *)
Fixpoint scanned (right : list dict)
    (foreign_field right_collection query_field : string)
    (skip : bool) (items : list pyval) : list pyval :=
  match items with
  | [] => []
  | it :: items' =>
      if skip
      then scanned right foreign_field right_collection query_field false items'
      else
        match it with
        | VDict item =>
            match matching right foreign_field
                           (field_value query_field item) with
            | [] =>
                scanned right foreign_field right_collection query_field
                        true items'
            | matches =>
                accumulated right_collection matches item ++
                scanned right foreign_field right_collection query_field
                        false items'
            end
        | _ =>
            scanned right foreign_field right_collection query_field
                    false items'
        end
  end.

(** What becomes of a left document: dropped ([None]) or retained as the
    given document. *)
Definition outcome (right : list dict)
    (local_field foreign_field right_collection : string) (doc : dict)
  : option dict :=
  let '(pre_field, query_field) := split_field local_field in
  match field_value pre_field doc with
  | VList items =>
      match scanned right foreign_field right_collection query_field
                    false items with
      | [] => None
      | copied => Some (dict_set pre_field (VList copied) doc)
      end
  | _ =>
      Some (enrich right_collection
              (matching right foreign_field (field_value local_field doc))
              doc)
  end.

(** An array element that matches some right document. *)
Definition productive (right : list dict) (foreign_field query_field : string)
    (it : pyval) : bool :=
  match it with
  | VDict item =>
      match matching right foreign_field (field_value query_field item) with
      | [] => false
      | _ => true
      end
  | _ => false
  end.

(** An array element the loop removes: a mapping without a match. *)
Definition unmatched (right : list dict) (foreign_field query_field : string)
    (it : pyval) : bool :=
  match it with
  | VDict item =>
      match matching right foreign_field (field_value query_field item) with
      | [] => true
      | _ => false
      end
  | _ => false
  end.

(** The loop passes over the element that follows each element it
    removes; [passed] tells whether the first element is so passed over.
    No element passed over has a match. *)
Fixpoint none_lost (right : list dict) (foreign_field query_field : string)
    (passed : bool) (items : list pyval) : bool :=
  match items with
  | [] => true
  | x :: rest =>
      if passed
      then negb (productive right foreign_field query_field x)
           && none_lost right foreign_field query_field false rest
      else none_lost right foreign_field query_field
                     (unmatched right foreign_field query_field x) rest
  end.

(** The fields a right document lends to a merged copy, in its order. *)
Definition lent_fields (r : dict) : list string :=
  List.filter (fun k => negb (String.eqb k "_id")) (dict_keys r).

(** Right documents that lend the same fields in the same order, each
    field once: the copies made of one element for them do not carry one
    another's fields. *)
Definition uniform (matches : list dict) : bool :=
  match matches with
  | [] => true
  | r :: _ =>
      forallb (fun r' => bool_decide (NoDup (dict_keys r')) &&
                         bool_decide (lent_fields r' = lent_fields r))
              matches
  end.

(** An array element the nested branch handles as the specification
    describes: a mapping with a hashable leaf value, matched by at most
    one right document or by right documents that lend the same fields. *)
Definition plain_element (right : list dict)
    (foreign_field query_field : string) (it : pyval) : bool :=
  match it with
  | VDict item =>
      hashable (field_value query_field item)
      && (Nat.leb (length (matching right foreign_field
                             (field_value query_field item))) 1
          || uniform (matching right foreign_field
                               (field_value query_field item)))
  | _ => false
  end.

(** An array element whose leaf value can be looked up in the index. *)
Definition safe_element (query_field : string) (it : pyval) : bool :=
  match it with
  | VDict item => hashable (field_value query_field item)
  | _ => true
  end.

(** A left document on which no lookup in the index raises. *)
Definition safe (local_field : string) (doc : dict) : bool :=
  let '(pre_field, query_field) := split_field local_field in
  match field_value pre_field doc with
  | VList items => forallb (safe_element query_field) items
  | _ => hashable (field_value local_field doc)
  end.

(** A left document the join handles without failing and, in the nested
    branch, without losing a matching element. *)
Definition regular (right : list dict) (local_field foreign_field : string)
    (doc : dict) : bool :=
  let '(pre_field, query_field) := split_field local_field in
  match field_value pre_field doc with
  | VList items =>
      forallb (plain_element right foreign_field query_field) items
      && none_lost right foreign_field query_field false items
  | _ => hashable (field_value local_field doc)
  end.

(** A left document of the scalar branch. *)
Definition scalar_branch (local_field : string) (doc : dict) : bool :=
  negb (isinstance_list (field_value (split_field local_field).1 doc)).

(** Right documents whose foreign-field values can key the index. *)
Definition indexable (foreign_field : string) (right : list dict) : bool :=
  forallb (fun r => hashable (field_value foreign_field r)) right.

(* ================================================================== *)
(** * [database.py], [index.py]: tools over a live server               *)
(* ================================================================== *)

(** The tools of this part call the driver several times in one run, and
    the server may change between two calls: a call takes the state of
    the server and gives the next one with its answer.  A call stands
    for reaching the database or collection object and calling its
    method, so the exception of either step is the exception of the
    call. *)
Definition io (World A : Type) : Type := World -> result A * World.

#[global] Instance io_ret {World : Type} : MRet (io World) :=
  fun A a w => (Ok a, w).

#[global] Instance io_bind {World : Type} : MBind (io World) :=
  fun A B f m w =>
    match m w with
    | (Ok a, w') => f a w'
    | (Raise e, w') => (Raise e, w')
    end.

(** [try: body / except Exception as e: handler e], over a live server. *)
Definition io_try {World A : Type} (body : io World A)
    (handler : exn -> io World A) : io World A :=
  fun w =>
    match body w with
    | (Ok a, w') => (Ok a, w')
    | (Raise e, w') => handler e w'
    end.

Record Client (World : Type) : Type := mkClient {
  list_collection_names : string -> io World (list string);
  estimated_document_count : string -> string -> io World Z;
  admin_command : dict -> io World pyval
}.
Arguments list_collection_names {World} _ _ _.
Arguments estimated_document_count {World} _ _ _ _.
Arguments admin_command {World} _ _ _.

(** ** [get_db_info] and [get_db_info_for_generation] *)

Record DBInfoResponse : Type := mkDBInfoResponse {
  database_name : string;
  collection_names : list string;
  stats : dict
}.

(** [sum(db[name].estimated_document_count() for name in names)], from the
    running total. *)
Fixpoint sum_counts {World : Type} (client : Client World) (db_name : string)
    (names : list string) (total : Z) : io World Z :=
  match names with
  | [] => mret total
  | collection_name :: names' =>
      n ← estimated_document_count client db_name collection_name;
      sum_counts client db_name names' (total + n)
  end.

(** The dictionary [stats] both tools build: the collections are listed
    once for their number and once more for the sum. *)
Definition db_info_stats {World : Type} (client : Client World)
    (db_name : string) : io World dict :=
  listed ← list_collection_names client db_name;
  names ← list_collection_names client db_name;
  total ← sum_counts client db_name names 0;
  mret [("collections", VInt (Z.of_nat (length listed)));
        ("estimated_total_count", VInt total)].

Definition get_db_info {World : Type} (client : Client World)
    (db_name : string) : io World (response DBInfoResponse) :=
  io_try
    (info ← db_info_stats client db_name;
     names ← list_collection_names client db_name;
     mret (Success {| database_name := db_name;
                      collection_names := names;
                      stats := info |}))
    (fun e => mret (ErrorResponse (str e))).

Definition next_step_samples : string :=
  "Run `sample_documents` on relative collections".

Definition get_db_info_for_generation {World : Type} (client : Client World)
    (db_name : string) : io World pyval :=
  io_try
    (info ← db_info_stats client db_name;
     names ← list_collection_names client db_name;
     mret (VDict [("database_name", VStr db_name);
                  ("collection_names", VList (map VStr names));
                  ("next_step", VStr next_step_samples)]))
    (fun e => mret (VErr (str e))).

(** ** [current_ops] *)

(** [command = {"currentOp": True}], then [command.update(ops)] when
    [ops] is a non-empty mapping. *)
Definition current_op_command (ops : option dict) : dict :=
  let command := [("currentOp", VBool true)] in
  match ops with
  | Some ((_ :: _) as filter) => dict_merge command filter
  | _ => command
  end.

Definition current_ops {World : Type} (client : Client World)
    (ops : option dict) : io World pyval :=
  io_try (admin_command client (current_op_command ops))
         (fun e => mret (VErr (str e))).

(* ================================================================== *)
(** * Auxiliary predicates of the proofs                               *)
(* ================================================================== *)

(** The predicate the normaliser tests on one field of the filter. *)
Definition is_range_field (kv : string * pyval) : bool :=
  match kv.2 with
  | VDict ops => uses_range_operator ops
  | _ => false
  end.

(** The children the traversal visits under one link of a plan. *)
Definition link_child (plan : dict) (key : string) (c : pyval) : Prop :=
  (dict_get key plan = Some c ∧ isinstance_dict c = true) ∨
  (∃ items, dict_get key plan = Some (VList items) ∧ c ∈ items).

(** A driver on which everything answers but the listing of indexes. *)
Definition listing_fails : Ctx :=
  {| db_command := fun _ command =>
       match command with
       | VDict (("explain", _) :: _) =>
           Ok (simple_explain (VDict [("stage", VStr "COLLSCAN")]))
       | _ => Ok (VDict [("count", VInt 10)])
       end;
     coll_list_indexes := fun _ _ =>
       Raise (Exn DriverError "not authorized to list indexes");
     coll_aggregate := fun _ _ _ => Ok [];
     coll_find := fun _ _ _ _ _ => Ok [];
     coll_estimated_document_count := fun _ _ => Ok 0;
     coll_count_documents := fun _ _ _ => Ok 0 |}.

(** A well-built index: hashable keys, no empty bucket. *)
Definition index_ok (index : right_index) : Prop :=
  Forall (fun kb => hashable kb.1 = true ∧ kb.2 ≠ []) index.

(** The right documents stand in the store as fetched. *)
Definition right_intact (σ : store) (base : nat) (right : list dict) : Prop :=
  ∀ j r, right !! j = Some r -> σ !! (base + j)%nat = Some r.

(** The index answers every hashable key with the addresses of the right
    documents that match it. *)
Definition index_for (right : list dict) (foreign_field : string) (base : nat)
    (index : right_index) : Prop :=
  index_ok index ∧
  ∀ key σ, hashable key = true -> right_intact σ base right ->
    map (deref σ) (default [] (index_get key index)) =
    matching right foreign_field key.

(** [v is None]. *)
Definition is_none (v : pyval) : bool :=
  match v with VNone => true | _ => false end.

(** A lowercase ASCII letter. *)
Definition is_lower (c : ascii) : bool :=
  (97 <=? nat_of_ascii c)%nat && (nat_of_ascii c <=? 122)%nat.

(** A driver that pages a fixed list of results: [all] is what the query
    matches, a cursor gives the slice asked for, and the count that
    [find_documents] asks gives its length. *)
Definition pages (ctx : Ctx) (db_name collection_name : string)
    (query : dict) (all : list dict) : Prop :=
  (∀ skip limit, 0 <= skip -> 0 < limit ->
     coll_find ctx db_name collection_name query skip limit =
     Ok (take (Z.to_nat limit) (drop (Z.to_nat skip) all))) ∧
  (query = [] ->
   coll_estimated_document_count ctx db_name collection_name =
   Ok (Z.of_nat (length all))) ∧
  (query ≠ [] ->
   coll_count_documents ctx db_name collection_name query =
   Ok (Z.of_nat (length all))).

(** A driver over three documents, for any query. *)
Definition three_documents : Ctx :=
  let all := [[("n", VInt 1)]; [("n", VInt 2)]; [("n", VInt 3)]] in
  {| db_command := fun _ _ => Ok VNone;
     coll_list_indexes := fun _ _ => Ok [];
     coll_aggregate := fun _ _ _ => Ok [];
     coll_find := fun _ _ _ skip limit =>
       Ok (take (Z.to_nat limit) (drop (Z.to_nat skip) all));
     coll_estimated_document_count := fun _ _ => Ok 3;
     coll_count_documents := fun _ _ _ => Ok 3 |}.

(** What the generation variant keeps of a database description. *)
Definition for_generation (r : response DBInfoResponse) : pyval :=
  match r with
  | Success info =>
      VDict [("database_name", VStr (database_name info));
             ("collection_names", VList (map VStr (collection_names info)));
             ("next_step", VStr next_step_samples)]
  | ErrorResponse error => VErr error
  end.

(** A server at rest in state [w]: listing and counting leave it as it
    is. *)
Definition at_rest {World : Type} (client : Client World) (db_name : string)
    (w : World) : Prop :=
  (list_collection_names client db_name w).2 = w ∧
  ∀ collection_name,
    (estimated_document_count client db_name collection_name w).2 = w.

(** A server with two collections, of three and four documents. *)
Definition two_collections : Client unit :=
  {| list_collection_names := fun _ w => (Ok ["a"; "b"], w);
     estimated_document_count := fun _ collection_name w =>
       (Ok (if String.eqb collection_name "a" then 3 else 4), w);
     admin_command := fun _ w => (Ok VNone, w) |}.

(** A server whose explain of a pipeline carries an empty stage. *)
Definition empty_stage_server : Ctx :=
  {| db_command := fun _ _ =>
       Ok (VDict [("stages", VList [VDict [("$cursor", VDict [])];
                                    VDict []])]);
     coll_list_indexes := fun _ _ => Ok [];
     coll_aggregate := fun _ _ _ => Ok [];
     coll_find := fun _ _ _ _ _ => Ok [];
     coll_estimated_document_count := fun _ _ => Ok 0;
     coll_count_documents := fun _ _ _ => Ok 0 |}.

(** Whether a field name holds a dot. *)
Fixpoint has_dot (s : string) : bool :=
  match s with
  | EmptyString => false
  | String c s' => Ascii.eqb c "." || has_dot s'
  end.

(** A winning plan as a server gives it: a mapping and a plan tree,
    nested no deeper than the 100 levels a BSON document may have, whose
    [inputStage], when it has one that is not empty, is a mapping whose
    [keyPattern], when it has one, is a mapping. *)
Definition well_formed_plan (winning_plan : pyval) : Prop :=
  ∃ plan,
    winning_plan = VDict plan ∧ plan_tree winning_plan ∧
    (depth winning_plan <= 100)%nat ∧
    match dict_get "inputStage" plan with
    | None => True
    | Some input_stage =>
        truthy input_stage = false ∨
        ∃ child,
          input_stage = VDict child ∧
          isinstance_dict (default (VDict []) (dict_get "keyPattern" child))
          = true
    end.

(** Execution statistics whose three counters, where present, are
    integers of 64 bits, the widest a BSON document holds. *)
Definition integer_counters (execution_stats : pyval) : Prop :=
  ∃ counters,
    execution_stats = VDict counters ∧
    ∀ k, k ∈ ["nReturned"; "totalDocsExamined"; "totalKeysExamined"] ->
         ∃ n, default (VInt 0) (dict_get k counters) = VInt n ∧
              - 2 ^ 63 <= n < 2 ^ 63.

(** A stage of a pipeline explain the analyser can read. *)
Definition readable_stage (entry : pyval) : Prop :=
  ∃ name detail rest winning_plan execution_stats,
    entry = VDict ((name, detail) :: rest) ∧
    plan_and_stats detail = Ok (winning_plan, execution_stats) ∧
    well_formed_plan winning_plan ∧ integer_counters execution_stats.

(** The health metrics the analyser reports for the execution statistics
    [stats]: its three counters, 0 where missing, and on integer counters
    the two ratios. *)
Definition reads_stats (stats : dict) (hm : HealthMetrics) : Prop :=
  nReturned hm = default (VInt 0) (dict_get "nReturned" stats) ∧
  totalDocsExamined hm
  = default (VInt 0) (dict_get "totalDocsExamined" stats) ∧
  totalKeysExamined hm
  = default (VInt 0) (dict_get "totalKeysExamined" stats) ∧
  (∀ n docs, nReturned hm = VInt n -> totalDocsExamined hm = VInt docs ->
     amplificationRatio hm
     = if Z.eqb n 0 then Infinity else Quotient docs n) ∧
  (∀ docs keys, totalDocsExamined hm = VInt docs ->
     totalKeysExamined hm = VInt keys ->
     keyDocRatio hm = if Z.eqb docs 0 then Infinity else Quotient keys docs).

(** A capital of the table that is not empty and holds neither a
    lowercase ASCII letter nor a dollar sign. *)
Definition clean_image (entry : string * string) : bool :=
  negb (String.eqb entry.2 EmptyString) &&
  forallb (fun c => negb (is_lower c) && negb (Ascii.eqb c "$"))
          (list_ascii_of_string entry.2).

(** The entries a right document adds to a merged copy. *)
Definition lent (right_collection : string) (r : dict) : dict :=
  map (fun kv => (prefixed right_collection kv.1, kv.2))
      (List.filter (fun kv => negb (String.eqb kv.1 "_id")) r).

(* ================================================================== *)
(** * Properties                                                      *)
(* ================================================================== *)

(** ** Query shapes *)

Lemma shape_step_loop (items : dict) (eq_fields range_fields : list string) :
  fold_left shape_step items (eq_fields, range_fields) =
  (eq_fields ++ dict_keys (List.filter (fun kv => negb (is_range_field kv)) items),
   range_fields ++ dict_keys (List.filter is_range_field items)).
Proof.
  revert eq_fields range_fields.
  induction items as [|[k v] items IH]; intros eq_fields range_fields.
  - cbn. by rewrite !app_nil_r.
  - change (fold_left shape_step ((k, v) :: items) (eq_fields, range_fields))
      with (fold_left shape_step items
              (shape_step (eq_fields, range_fields) (k, v))).
    assert (shape_step (eq_fields, range_fields) (k, v) =
            if is_range_field (k, v)
            then (eq_fields, range_fields ++ [k])
            else (eq_fields ++ [k], range_fields)) as ->.
    { by destruct v. }
    cbn [List.filter].
    destruct (is_range_field (k, v)); cbn [negb]; rewrite IH;
      cbn [dict_keys map fst]; by rewrite <- ?app_assoc.
Qed.

Lemma is_range_field_spec (kv : string * pyval) :
  is_range_field kv = true ↔
  ∃ ops, kv.2 = VDict ops ∧
         ∃ op, op ∈ range_operators ∧ dict_mem op ops = true.
Proof.
  destruct kv as [k v]. unfold is_range_field, uses_range_operator. cbn [snd].
  split.
  - destruct v; try discriminate. intros H.
    apply existsb_exists in H as (op & Hin & Hop).
    exists entries. split; [done|]. exists op. by rewrite list_elem_of_In.
  - intros (ops & -> & op & Hin & Hop).
    apply existsb_exists. exists op. by rewrite <- list_elem_of_In.
Qed.

Lemma filter_keys_sublist (p : string * pyval -> bool) (items : dict) :
  dict_keys (List.filter p items) `sublist_of` dict_keys items.
Proof.
  induction items as [|kv items IH]; cbn; [constructor|].
  destruct (p kv); cbn; by constructor.
Qed.

Lemma filter_keys_elem (p : string * pyval -> bool) (items : dict) (k : string) :
  k ∈ dict_keys (List.filter p items) ↔ ∃ v, (k, v) ∈ items ∧ p (k, v) = true.
Proof.
  unfold dict_keys. rewrite list_elem_of_In, in_map_iff. split.
  - intros ([k' v] & <- & Hin). apply filter_In in Hin as [Hin Hp].
    exists v. by rewrite list_elem_of_In.
  - intros (v & Hin & Hp). exists (k, v). split; [done|].
    apply filter_In. by rewrite <- list_elem_of_In.
Qed.

Lemma dict_entry_unique (items : dict) (k : string) (v w : pyval) :
  NoDup (dict_keys items) -> (k, v) ∈ items -> (k, w) ∈ items -> v = w.
Proof.
  induction items as [|[k' v'] items IH]; cbn; intros Hnd Hv Hw.
  - by apply elem_of_nil in Hv.
  - apply NoDup_cons in Hnd as [Hk Hnd].
    apply elem_of_cons in Hv as [Hv|Hv]; apply elem_of_cons in Hw as [Hw|Hw].
    + congruence.
    + injection Hv as -> ->. exfalso. apply Hk.
      apply list_elem_of_fmap. by exists (k', w).
    + injection Hw as -> ->. exfalso. apply Hk.
      apply list_elem_of_fmap. by exists (k', v).
    + by apply IH.
Qed.

Lemma scalar_fields_not_range (items : dict) :
  Forall (fun kv => isinstance_dict kv.2 = false) items ->
  List.filter (fun kv => negb (is_range_field kv)) items = items ∧
  List.filter is_range_field items = [].
Proof.
  induction 1 as [|[k v] items Hkv _ [IHe IHr]]; [done|].
  cbn [List.filter]. 
  assert (is_range_field (k, v) = false) as ->
    by (destruct v; done).
  cbn [negb]. by rewrite IHe, IHr.
Qed.

(** C6: on a mapping-shaped filter the normaliser puts a field among the range
    fields exactly when its value is a sub-mapping holding one of the seven
    range operators and among the equality fields otherwise, each bucket in
    declaration order, every field in exactly one bucket, and the shape key is
    EQ[..]|RANGE[..] over the comma-joined buckets; scalar-only filters have
    no range field, and the filter age >= 18 has the key EQ[]|RANGE[age]. *)
Theorem normalize_query_shape_buckets (filter : dict) :
  let eqs := dict_keys (List.filter (fun kv => negb (is_range_field kv)) filter) in
  let ranges := dict_keys (List.filter is_range_field filter) in
  normalize_query_shape (VDict filter) =
    Ok {| shapeKey := "EQ[" +:+ String.concat "," eqs +:+ "]|RANGE["
                            +:+ String.concat "," ranges +:+ "]";
          eqFields := eqs;
          rangeFields := ranges |}
  ∧ (∀ kv, is_range_field kv = true ↔
           ∃ ops, kv.2 = VDict ops ∧
                  ∃ op, op ∈ range_operators ∧ dict_mem op ops = true)
  ∧ eqs `sublist_of` dict_keys filter
  ∧ ranges `sublist_of` dict_keys filter
  ∧ (length eqs + length ranges = length filter)%nat
  ∧ (NoDup (dict_keys filter) ->
     ∀ k v, (k, v) ∈ filter ->
       (k ∈ ranges ↔ is_range_field (k, v) = true) ∧
       (k ∈ eqs ↔ is_range_field (k, v) = false))
  ∧ (Forall (fun kv => isinstance_dict kv.2 = false) filter ->
     eqs = dict_keys filter ∧ ranges = [])
  ∧ normalize_query_shape (VDict [("age", VDict [("$gte", VInt 18)])]) =
      Ok {| shapeKey := "EQ[]|RANGE[age]";
            eqFields := [];
            rangeFields := ["age"] |}.
Proof.
  intros eqs ranges. repeat split.
  - unfold normalize_query_shape. cbn [py_items mbind result_bind].
    by rewrite shape_step_loop.
  - apply is_range_field_spec.
  - apply is_range_field_spec.
  - apply filter_keys_sublist.
  - apply filter_keys_sublist.
  - subst eqs ranges. unfold dict_keys. rewrite !length_map.
    induction filter as [|kv items IH]; cbn; [done|].
    destruct (is_range_field kv); cbn; lia.
  - subst ranges. rewrite filter_keys_elem. intros (w & Hw & Hr).
    by rewrite (dict_entry_unique filter k v w).
  - intros Hr. subst ranges. rewrite filter_keys_elem. by exists v.
  - subst eqs. rewrite filter_keys_elem. intros (w & Hw & Hr).
    rewrite (dict_entry_unique filter k v w) by done.
    by destruct (is_range_field (k, w)).
  - intros Hr. subst eqs. rewrite filter_keys_elem. exists v.
    by rewrite Hr.
  - subst eqs. by rewrite (proj1 (scalar_fields_not_range filter H)).
  - subst ranges. by rewrite (proj2 (scalar_fields_not_range filter H)).
Qed.

(** ** The public [query_shape] tool *)

(** C10: [query_shape] normalises the value under a top-level filter key when
    the input mapping has one, so wrapping a filter under that key does not
    change the answer; and it never raises: an exception of the normaliser,
    a non-mapping input included, comes back as an error response. *)
Theorem query_shape_unwraps_filter (query : pyval) :
  (∀ entries f, query = VDict entries -> dict_get "filter" entries = Some f ->
     query_shape query =
       Ok (match normalize_query_shape f with
           | Ok shape => Success shape
           | Raise e => ErrorResponse (str e)
           end))
  ∧ (∀ entries, query = VDict entries -> dict_get "filter" entries = None ->
     query_shape (VDict [("filter", query)]) = query_shape query)
  ∧ query_shape (VDict [("filter", VDict [("a", VInt 1)])]) =
      query_shape (VDict [("a", VInt 1)])
  ∧ (∃ r, query_shape query = Ok r)
  ∧ (isinstance_dict query = false ->
     query_shape query = Ok (ErrorResponse (str (attribute_error query "get")))).
Proof.
  split; [|split; [|split; [|split]]].
  - intros entries f -> Hf. unfold query_shape.
    cbn [py_get_default mbind result_bind]. rewrite Hf. cbn [default from_option]. unfold id.
    by destruct (normalize_query_shape f).
  - intros entries -> Hf. unfold query_shape.
    cbn [py_get_default mbind result_bind dict_get]. rewrite Hf.
    by cbn.
  - reflexivity.
  - unfold query_shape.
    destruct (py_get_default query "filter" query) as [f|e]; cbn; [|eauto].
    destruct (normalize_query_shape f); cbn; eauto.
  - by destruct query.
Qed.

(** ** Reasoning in the [result] monad *)

Lemma bind_Ok {A B : Type} (m : result A) (k : A -> result B) (b : B) :
  m ≫= k = Ok b ↔ ∃ a, m = Ok a ∧ k a = Ok b.
Proof.
  destruct m as [a|e]; cbn; split.
  - eauto.
  - intros (a' & Ha & Hk). by injection Ha as ->.
  - discriminate.
  - intros (a' & Ha & _). discriminate.
Qed.

Ltac bind_inv H :=
  repeat match type of H with
  | _ ≫= _ = Ok _ =>
      let x := fresh "x" in
      let Hx := fresh "H" x in
      apply bind_Ok in H as (x & Hx & H)
  end.

Lemma for_each_elem {A B : Type} (f : A -> result B) (xs : list A)
    (ys : list B) (y : B) :
  for_each f xs = Ok ys -> y ∈ ys -> ∃ x, x ∈ xs ∧ f x = Ok y.
Proof.
  revert ys. induction xs as [|x xs IH]; cbn; intros ys Hys Hy.
  - injection Hys as <-. by apply elem_of_nil in Hy.
  - bind_inv Hys. injection Hys as <-.
    apply elem_of_cons in Hy as [-> | Hy].
    + exists x. split; [left|done].
    + destruct (IH _ Hx1 Hy) as (x' & Hin & Hf).
      exists x'. split; [by right|done].
Qed.

Lemma for_each_Forall2 {A B : Type} (f : A -> result B) (xs : list A)
    (ys : list B) :
  for_each f xs = Ok ys ↔ Forall2 (fun x y => f x = Ok y) xs ys.
Proof.
  revert ys. induction xs as [|x xs IH]; intros ys; cbn.
  - split.
    + intros H. injection H as <-. constructor.
    + intros H. by inversion H.
  - split.
    + intros H. apply bind_Ok in H as (y & Hy & H).
      apply bind_Ok in H as (ys' & Hys & H). injection H as <-.
      constructor; [done|]. by apply IH.
    + intros H. inversion H as [|? y ? ys' Hy Hys]; subst.
      rewrite Hy. cbn. apply IH in Hys. by rewrite Hys.
Qed.

(** ** Stage metrics *)

(** Every entry of an analysis comes out of [stage_metrics], run on a
    winning plan and on execution statistics that is a mapping. *)
Lemma analysis_entry (explain_output projection : pyval) (a : Analysis)
    (m : StageMetrics) :
  analyze_explain_metrics explain_output projection = Ok a ->
  m ∈ stagesAnalysis a ->
  ∃ winning_plan stats default_stage,
    stage_metrics winning_plan (VDict stats) default_stage projection = Ok m.
Proof.
  assert (Hdict : ∀ wp st dflt,
             stage_metrics wp st dflt projection = Ok m ->
             ∃ winning_plan stats default_stage,
               stage_metrics winning_plan (VDict stats) default_stage
                             projection = Ok m).
  { intros wp st dflt H. destruct st; try by (unfold stage_metrics in H;
      destruct (py_get_default wp "stage" (VStr dflt)); cbn in H).
    eauto. }
  unfold analyze_explain_metrics. intros H Hm. bind_inv H.
  destruct (negb x).
  - bind_inv H. destruct x0 as [wp st]. bind_inv H. injection H as <-.
    cbn in Hm. apply list_elem_of_singleton in Hm as ->. eauto.
  - bind_inv H. injection H as <-. cbn in Hm.
    destruct (for_each_elem _ _ _ _ Hx2 Hm) as (entry & _ & He).
    unfold staged_metrics in He. bind_inv He.
    destruct x3 as [|[name detail] ?]; [discriminate|].
    bind_inv He. destruct x4 as [wp st]. eauto.
Qed.

Lemma ratio_or_inf_counters (num den : Z) :
  ratio_or_inf (VInt num) (VInt den) =
  if Z.eqb den 0 then Ok Infinity
  else if float_overflow num den
       then Raise (Exn OverflowError
                       "integer division result too large for a float")
       else Ok (Quotient num den).
Proof.
  unfold ratio_or_inf, py_truediv. cbn [truthy as_number].
  by destruct (Z.eqb den 0).
Qed.

Lemma ratio_or_inf_Ok (num den : Z) (r : ratio) :
  ratio_or_inf (VInt num) (VInt den) = Ok r ->
  r = if Z.eqb den 0 then Infinity else Quotient num den.
Proof.
  rewrite ratio_or_inf_counters.
  destruct (Z.eqb den 0); [congruence|].
  destruct (float_overflow num den); [discriminate|congruence].
Qed.

Lemma stage_metrics_reads (winning_plan execution_stats : pyval)
    (default_stage : string) (projection : pyval) (m : StageMetrics) :
  stage_metrics winning_plan execution_stats default_stage projection = Ok m ->
  ∃ stats, execution_stats = VDict stats ∧ reads_stats stats (healthMetrics m).
Proof.
  unfold stage_metrics. intros H.
  apply bind_Ok in H as (label & _ & H).
  apply bind_Ok in H as (n_returned & Hn & H).
  apply bind_Ok in H as (docs_examined & Hd & H).
  apply bind_Ok in H as (keys_examined & Hk & H).
  apply bind_Ok in H as (amplification & Ha & H).
  apply bind_Ok in H as (key_doc & Hkd & H).
  apply bind_Ok in H as (is_covered & _ & H).
  apply bind_Ok in H as (sorts & _ & H). injection H as <-.
  destruct execution_stats as [| | | | |stats|]; try discriminate.
  cbn in Hn, Hd, Hk. injection Hn as <-. injection Hd as <-.
  injection Hk as <-.
  exists stats. unfold reads_stats. cbn [healthMetrics nReturned
    totalDocsExamined totalKeysExamined amplificationRatio keyDocRatio].
  repeat split.
  - intros n docs Hn Hd. rewrite Hn, Hd in Ha. by apply ratio_or_inf_Ok.
  - intros docs keys Hd Hk. rewrite Hd, Hk in Hkd. by apply ratio_or_inf_Ok.
Qed.

Lemma plan_and_stats_reads (holder winning_plan execution_stats : pyval) :
  plan_and_stats holder = Ok (winning_plan, execution_stats) ->
  ∃ fields,
    holder = VDict fields ∧
    execution_stats = default (VDict []) (dict_get "executionStats" fields).
Proof.
  unfold plan_and_stats. intros H.
  apply bind_Ok in H as (planner & Hp & H).
  apply bind_Ok in H as (wp & _ & H).
  apply bind_Ok in H as (st & Hst & H). injection H as _ <-.
  destruct holder as [| | | | |fields|]; try discriminate.
  cbn in Hst. injection Hst as <-. by exists fields.
Qed.

(** C7: whenever the analyser answers, the explain output is a mapping.
    Without pipeline stages the analysis has one entry, read off the
    mapping under [executionStats] of the output (empty when missing);
    with stages it has one entry per stage, read off the mapping under
    [executionStats] of that stage's detail.  Reading means: the three
    counters are those of the statistics, 0 where missing, and on integer
    counters the amplification ratio is docs examined over returned, or
    infinity when returned is 0, and the key/doc ratio is keys examined
    over docs examined, or infinity when docs examined is 0. *)
Theorem stage_ratios (explain_output projection : pyval) (a : Analysis) :
  analyze_explain_metrics explain_output projection = Ok a ->
  ∃ output,
    explain_output = VDict output ∧
    match dict_get "stages" output with
    | None =>
        ∃ stats m,
          default (VDict []) (dict_get "executionStats" output) = VDict stats ∧
          stagesAnalysis a = [m] ∧
          reads_stats stats (healthMetrics m)
    | Some stages =>
        ∃ entries,
          py_iter stages = Ok entries ∧
          Forall2
            (fun entry m =>
               ∃ name detail rest stats,
                 entry = VDict ((name, VDict detail) :: rest) ∧
                 default (VDict []) (dict_get "executionStats" detail)
                 = VDict stats ∧
                 reads_stats stats (healthMetrics m))
            entries (stagesAnalysis a)
    end.
Proof.
  unfold analyze_explain_metrics. intros H.
  apply bind_Ok in H as (has_stages & Hhas & H).
  destruct explain_output as [| | | | |output|]; try discriminate;
    try (destruct (negb has_stages);
         apply bind_Ok in H as (? & Hraise & _); discriminate).
  exists output. split; [done|].
  cbn [py_contains] in Hhas. injection Hhas as <-. unfold dict_mem in H.
  cbn [py_getitem] in H.
  destruct (dict_get "stages" output) as [stages|]; cbn [negb] in H.
  - apply bind_Ok in H as (s & Hs & H). injection Hs as <-.
    apply bind_Ok in H as (entries & He & H).
    apply bind_Ok in H as (results & Hr & H). injection H as <-.
    cbn [stagesAnalysis]. apply for_each_Forall2 in Hr.
    exists entries. split; [done|].
    eapply Forall2_impl; [exact Hr|].
    intros entry m Hm. unfold staged_metrics in Hm.
    apply bind_Ok in Hm as (fields & Hf & Hm).
    destruct entry as [| | | | |entry|]; try discriminate.
    injection Hf as <-.
    destruct entry as [|[name detail] rest]; [discriminate|].
    apply bind_Ok in Hm as ([wp st] & Hps & Hm).
    apply plan_and_stats_reads in Hps as (detail' & -> & ->).
    apply stage_metrics_reads in Hm as (stats & Hst & Hreads).
    by exists name, detail', rest, stats.
  - apply bind_Ok in H as ([wp st] & Hps & H).
    apply bind_Ok in H as (m & Hm & H). injection H as <-.
    apply plan_and_stats_reads in Hps as (fields & Hf & ->).
    injection Hf as <-.
    apply stage_metrics_reads in Hm as (stats & Hst & Hreads).
    by exists stats, m.
Qed.

Lemma stage_ratios_witness :
  ∃ output,
    VDict [("queryPlanner",
            VDict [("winningPlan", VDict [("stage", VStr "COLLSCAN")])]);
           ("executionStats",
            VDict [("nReturned", VInt 4); ("totalDocsExamined", VInt 100)])]
    = VDict output ∧
    match dict_get "stages" output with
    | None =>
        ∃ stats m,
          default (VDict []) (dict_get "executionStats" output) = VDict stats ∧
          [ {| stage := VStr "COLLSCAN";
               healthMetrics :=
                 {| nReturned := VInt 4;
                    totalDocsExamined := VInt 100;
                    totalKeysExamined := VInt 0;
                    amplificationRatio := Quotient 100 4;
                    keyDocRatio := Quotient 0 100;
                    triggersSort := false;
                    covered := false |} |} ] = [m] ∧
          reads_stats stats (healthMetrics m)
    | Some stages =>
        ∃ entries,
          py_iter stages = Ok entries ∧
          Forall2
            (fun entry m =>
               ∃ name detail rest stats,
                 entry = VDict ((name, VDict detail) :: rest) ∧
                 default (VDict []) (dict_get "executionStats" detail)
                 = VDict stats ∧
                 reads_stats stats (healthMetrics m))
            entries
            [ {| stage := VStr "COLLSCAN";
                 healthMetrics :=
                   {| nReturned := VInt 4;
                      totalDocsExamined := VInt 100;
                      totalKeysExamined := VInt 0;
                      amplificationRatio := Quotient 100 4;
                      keyDocRatio := Quotient 0 100;
                      triggersSort := false;
                      covered := false |} |} ]
    end.
Proof.
  apply (stage_ratios
           (VDict [("queryPlanner",
                    VDict [("winningPlan",
                            VDict [("stage", VStr "COLLSCAN")])]);
                   ("executionStats",
                    VDict [("nReturned", VInt 4);
                           ("totalDocsExamined", VInt 100)])])
           VNone {| stagesAnalysis := [_] |}).
  vm_compute. reflexivity.
Defined.

(** ** Index coverage *)

Lemma projected_fields_spec (projection : dict) (f : string) :
  f ∈ projected_fields projection ↔ projects projection f.
Proof.
  unfold projected_fields, projects.
  assert (Hflag : f ∈ (list_to_set (dict_keys
                         (List.filter (fun kv => truthy kv.2) projection))
                       : gset string) ↔
                  ∃ flag, (f, flag) ∈ projection ∧ truthy flag = true).
  { by rewrite elem_of_list_to_set, filter_keys_elem. }
  destruct (dict_get "_id" projection) as [flag|] eqn:Hid.
  - destruct (py_eq flag (VInt 0)) eqn:Hz; cbn [negb].
    + rewrite Hflag. split; [by left|].
      intros [H|(_ & flag' & Heq & H)]; [done|congruence].
    + rewrite elem_of_union, elem_of_singleton, Hflag. split.
      * intros [H | ->]; [by left|]. right. eauto.
      * intros [H|(-> & _)]; [by left|by right].
  - rewrite Hflag. split; [by left|].
    intros [H|(_ & flag' & Heq & _)]; [done|discriminate].
Qed.

Lemma covered_by_index_true (projection winning_plan : pyval) :
  covered_by_index projection winning_plan = Ok true ↔
  covering projection winning_plan.
Proof.
  unfold covered_by_index, covering. split.
  - destruct (truthy projection) eqn:Hp; [|discriminate].
    intros H. apply bind_Ok in H as (input_stage & Hget & H).
    destruct winning_plan as [| | | | |plan|]; try discriminate.
    cbn in Hget. injection Hget as <-.
    destruct (truthy _) eqn:Hi in H; [|discriminate].
    cbn [py_get_default mbind result_bind] in H.
    destruct (dict_get "inputStage" plan) as [input_stage|] eqn:Hin;
      [|discriminate].
    cbn [default from_option] in H, Hi. unfold id in H, Hi.
    destruct input_stage as [| | | | |child|]; try discriminate.
    cbn [py_get_default mbind result_bind] in H.
    destruct (default (VDict []) (dict_get "keyPattern" child))
      as [| | | | |key_pattern|] eqn:Hkp; try discriminate.
    cbn [py_keys mbind result_bind] in H.
    destruct projection as [| | | | |fields|]; try discriminate.
    cbn [py_items mbind result_bind] in H. injection H as H.
    apply bool_decide_eq_true in H.
    exists fields, plan, child, key_pattern.
    repeat split; try done.
    + by destruct fields.
    + by destruct child.
    + intros f Hf. apply projected_fields_spec in Hf.
      apply H in Hf. by apply elem_of_list_to_set in Hf.
  - intros (fields & plan & child & key_pattern & -> & Hne & -> & Hin & Hc
            & Hkp & Hsub).
    destruct fields as [|fld fields]; [done|]. cbn [truthy].
    cbn [py_get py_get_default mbind result_bind]. rewrite Hin.
    cbn [default from_option]. unfold id.
    destruct child as [|c child]; [done|]. cbn [truthy].
    cbn [py_get_default mbind result_bind].
    change (from_option id (VDict []) (dict_get "keyPattern" (c :: child)))
      with (default (VDict []) (dict_get "keyPattern" (c :: child))).
    rewrite Hkp. cbn [py_keys py_items mbind result_bind].
    f_equal. apply bool_decide_eq_true. intros f Hf.
    apply elem_of_list_to_set, Hsub. by apply projected_fields_spec.
Qed.

Lemma stage_metrics_covered (winning_plan stats : pyval)
    (default_stage : string) (projection : pyval) (m : StageMetrics) :
  stage_metrics winning_plan stats default_stage projection = Ok m ->
  covered_by_index projection winning_plan = Ok (covered (healthMetrics m)).
Proof.
  unfold stage_metrics. intros H. bind_inv H. by injection H as <-.
Qed.

(** C2, as the analyser has it: a stage reported covered always has a
    non-empty projection, a non-empty inputStage child and all projected
    fields (truthy flags, and the identity field held with a flag other
    than 0) among the child's keyPattern fields; and for a projection that
    names the identity field these conditions also suffice. *)
Theorem covered_when_projection_in_index (winning_plan stats : pyval)
    (default_stage : string) (projection : pyval) (m : StageMetrics) :
  stage_metrics winning_plan stats default_stage projection = Ok m ->
  (covered (healthMetrics m) = true -> covering projection winning_plan) ∧
  (names_identity projection -> covering projection winning_plan ->
   covered (healthMetrics m) = true).
Proof.
  intros H. apply stage_metrics_covered in H. split.
  - intros Hc. rewrite Hc in H. by apply covered_by_index_true.
  - intros _ Hc. apply covered_by_index_true in Hc. congruence.
Qed.

Lemma covered_when_projection_in_index_witness :
  covering (VDict [("_id", VInt 0); ("a", VInt 1)])
           (fetch_over [("stage", VStr "IXSCAN");
                        ("keyPattern", VDict [("a", VInt 1)])]).
Proof.
  refine (proj1 (covered_when_projection_in_index
                   (fetch_over [("stage", VStr "IXSCAN");
                                ("keyPattern", VDict [("a", VInt 1)])])
                   (VDict []) "UNKNOWN"
                   (VDict [("_id", VInt 0); ("a", VInt 1)])
                   {| stage := VStr "FETCH";
                      healthMetrics :=
                        {| nReturned := VInt 0;
                           totalDocsExamined := VInt 0;
                           totalKeysExamined := VInt 0;
                           amplificationRatio := Infinity;
                           keyDocRatio := Infinity;
                           triggersSort := false;
                           covered := true |} |} _) _).
  - vm_compute. reflexivity.
  - reflexivity.
Defined.

(** C2, as the claim states it, fails three ways: an exclusion-only
    projection over a child without keyPattern is reported covered; a
    projection that leaves the identity field unmentioned is reported
    covered by an index without it; and a supplied but empty projection is
    never reported covered. *)
Lemma covered_claim_counterexample :
  (reported_covered
     (simple_explain (fetch_over [("stage", VStr "COLLSCAN")]))
     (VDict [("_id", VInt 0); ("a", VInt 0)]) = Ok [true] ∧
   ¬ spec_covered (VDict [("_id", VInt 0); ("a", VInt 0)])
                  (fetch_over [("stage", VStr "COLLSCAN")]))
  ∧ (reported_covered
       (simple_explain (fetch_over [("stage", VStr "IXSCAN");
                                    ("keyPattern", VDict [("a", VInt 1)])]))
       (VDict [("a", VInt 1)]) = Ok [true] ∧
     ¬ spec_covered (VDict [("a", VInt 1)])
                    (fetch_over [("stage", VStr "IXSCAN");
                                 ("keyPattern", VDict [("a", VInt 1)])]))
  ∧ (reported_covered
       (simple_explain (fetch_over [("stage", VStr "IXSCAN");
                                    ("keyPattern", VDict [("_id", VInt 1)])]))
       (VDict []) = Ok [false] ∧
     spec_covered (VDict [])
                  (fetch_over [("stage", VStr "IXSCAN");
                               ("keyPattern", VDict [("_id", VInt 1)])])).
Proof.
  split; [|split]; (split; [vm_compute; reflexivity|]).
  - intros (fields & plan & child & kp & _ & Hw & Hin & Hkp & _).
    injection Hw as <-. cbn in Hin. injection Hin as <-. discriminate.
  - intros (fields & plan & child & kp & Hp & Hw & Hin & Hkp & _ & Hsub).
    injection Hp as <-. injection Hw as <-. cbn in Hin. injection Hin as <-.
    cbn in Hkp. injection Hkp as <-.
    assert (Hid : "_id" ∈ dict_keys [("a", VInt 1)]).
    { apply Hsub. right. split; [done|]. by intros (flag & Hflag & _). }
    cbn in Hid. apply list_elem_of_singleton in Hid. discriminate.
  - exists [], [("stage", VStr "FETCH");
               ("inputStage", VDict [("stage", VStr "IXSCAN");
                                     ("keyPattern", VDict [("_id", VInt 1)])])],
           [("stage", VStr "IXSCAN"); ("keyPattern", VDict [("_id", VInt 1)])],
           [("_id", VInt 1)].
    repeat split; try done.
    intros f [(flag & Hin & _) | (-> & _)].
    + by apply elem_of_nil in Hin.
    + cbn. by apply list_elem_of_singleton.
Qed.

(** ** The sort search *)

Lemma first_true_spec {A : Type} (f : A -> result bool) (P : A -> Prop)
    (xs : list A) :
  (∀ x, x ∈ xs -> ∃ b, f x = Ok b ∧ (b = true ↔ P x)) ->
  ∃ b, first_true f xs = Ok b ∧ (b = true ↔ ∃ x, x ∈ xs ∧ P x).
Proof.
  induction xs as [|x xs IH]; intros Hf; cbn.
  - exists false. split; [done|]. split; [done|].
    intros (x & Hx & _). by apply elem_of_nil in Hx.
  - destruct (Hf x) as (b & -> & Hb); [left|]. cbn. destruct b.
    + exists true. split; [done|]. split; [|done].
      intros _. exists x. split; [left|by apply Hb].
    + destruct IH as (b & -> & Hbs).
      { intros y Hy. apply Hf. by right. }
      exists b. split; [done|]. rewrite Hbs. split.
      * intros (y & Hy & HP). exists y. split; [by right|done].
      * intros (y & Hy & HP). apply elem_of_cons in Hy as [-> | Hy].
        -- apply Hb in HP. discriminate.
        -- eauto.
Qed.

Lemma py_eq_str (v : pyval) (s : string) :
  py_eq v (VStr s) = true ↔ v = VStr s.
Proof.
  destruct v; cbn; try (split; [discriminate|discriminate]).
  destruct (String.eqb_spec s0 s); split; congruence.
Qed.

Lemma dict_get_elem (k : string) (d : dict) (v : pyval) :
  dict_get k d = Some v -> (k, v) ∈ d.
Proof.
  induction d as [|[k' v'] d IH]; cbn; [discriminate|].
  destruct (String.eqb_spec k k') as [->|Hne].
  - intros H. injection H as ->. left.
  - intros H. right. by apply IH.
Qed.

Lemma depth_item (items : list pyval) (s : pyval) :
  s ∈ items -> (depth s < depth (VList items))%nat.
Proof.
  cbn. induction 1 as [s items|s s' items _ IH]; cbn; lia.
Qed.

Lemma depth_entry (d : dict) (k : string) (v : pyval) :
  (k, v) ∈ d -> (depth v < depth (VDict d))%nat.
Proof.
  cbn. remember (k, v) as kv eqn:Hkv.
  induction 1 as [kv d|kv kv' d _ IH]; subst; cbn; [lia|].
  specialize (IH eq_refl). lia.
Qed.

Lemma plan_child_depth (p c : pyval) :
  plan_child p c -> (depth c < depth p)%nat.
Proof.
  destruct 1 as [plan sub key _ Hget|plan items key s _ Hget Hs].
  - eapply depth_entry, dict_get_elem, Hget.
  - apply depth_item in Hs. apply dict_get_elem, depth_entry in Hget. lia.
Qed.

Lemma plan_tree_child (p c : pyval) :
  plan_tree p -> plan_child p c -> plan_tree c.
Proof.
  intros Hp Hc node Hn. apply Hp. by eapply rtc_l.
Qed.

Lemma falsy_has_no_sort (v : pyval) :
  truthy v = false -> ¬ ∃ node, plan_node v node ∧ is_sort_stage node.
Proof.
  intros Hv (node & Hn & plan & -> & Hs).
  inversion Hn as [|? c ? Hc Hrest]; subst.
  - destruct plan; [discriminate Hs|discriminate Hv].
  - inversion Hc as [plan' sub key _ Hget|plan' items key s _ Hget _]; subst;
      (destruct plan'; [discriminate Hget|discriminate Hv]).
Qed.

Lemma first_true_ext {A : Type} (f g : A -> result bool) (xs : list A) :
  (∀ x, f x = g x) -> first_true f xs = first_true g xs.
Proof.
  intros Hfg. induction xs as [|x xs IH]; cbn; [done|].
  rewrite Hfg. destruct (g x) as [[]|]; cbn; congruence.
Qed.

(** One call of the search on a decoded value. *)
Lemma search_for_sort_call (limit : nat) (v : pyval) :
  search_for_sort (S limit) v =
  if negb (truthy v) then Ok false else
  py_get v "stage" ≫= fun stage =>
  if py_eq stage (VStr "SORT") then Ok true else
  first_true
    (fun key =>
       py_get v key ≫= fun substage =>
       if isinstance_dict substage then search_for_sort limit substage
       else match substage with
            | VList items => first_true (search_for_sort limit) items
            | _ => Ok false
            end)
    child_links.
Proof.
  cbn [search_for_sort obj_truthy obj_get obj_is_str obj_is_dict obj_items
       pyval_object].
  destruct (negb (truthy v)); [done|].
  destruct (py_get v "stage") as [stage|]; [|done]. cbn [mbind result_bind].
  destruct (py_eq stage (VStr "SORT")); [done|].
  apply first_true_ext. intros key.
  destruct (py_get v key) as [substage|]; [|done]. cbn [mbind result_bind].
  by destruct substage.
Qed.

Lemma non_dict_has_no_sort (v : pyval) :
  isinstance_dict v = false ->
  ¬ ∃ node, plan_node v node ∧ is_sort_stage node.
Proof.
  intros Hv (node & Hn & plan & -> & Hs).
  inversion Hn as [|? c ? Hc _]; subst; [discriminate|].
  inversion Hc; subst; discriminate.
Qed.

Lemma link_child_plan_child (plan : dict) (key : string) (c : pyval) :
  key ∈ child_links -> link_child plan key c -> plan_child (VDict plan) c.
Proof.
  intros Hkey [[Hget Hd]|(items & Hget & Hin)].
  - destruct c; try discriminate. by eapply child_single.
  - by eapply child_in_sequence.
Qed.

(** The search on a plan tree, for any stack deeper than the tree. *)
Lemma search_for_sort_tree (limit : nat) (v : pyval) :
  (depth v < limit)%nat -> plan_tree v ->
  ∃ b, search_for_sort limit v = Ok b ∧
       (b = true ↔ ∃ node, plan_node v node ∧ is_sort_stage node).
Proof.
  revert v. induction limit as [|limit IH]; intros v Hd Hv; [lia|].
  rewrite search_for_sort_call.
  destruct (truthy v) eqn:Ht; cbn [negb].
  2:{ exists false. split; [done|]. split; [done|].
      intros H. by apply falsy_has_no_sort in H. }
  destruct (Hv v) as [Hdict|Hf]; [apply rtc_refl| |congruence].
  destruct v as [| | | | |plan|]; try discriminate. clear Hdict.
  cbn [py_get mbind result_bind].
  destruct (py_eq (default VNone (dict_get "stage" plan)) (VStr "SORT"))
    eqn:Hstage.
  { exists true. split; [done|]. split; [|done]. intros _.
    exists (VDict plan). split; [apply rtc_refl|]. exists plan.
    split; [done|]. apply py_eq_str in Hstage.
    destruct (dict_get "stage" plan); cbn in Hstage; [by subst|done]. }
  set (visit := fun key : string => _).
  destruct (first_true_spec visit
              (fun key => ∃ c, link_child plan key c ∧
                 ∃ node, plan_node c node ∧ is_sort_stage node)
              child_links) as (b & Hb & Hiff).
  { intros key Hkey. subst visit. cbn beta. unfold link_child.
    destruct (dict_get key plan) as [sub|] eqn:Hget; cbn [default from_option];
      unfold id; cbn [mbind result_bind].
    2:{ exists false. split; [done|]. split; [done|].
        intros (c & [[H _]|(items & H & _)] & _); discriminate. }
    destruct (isinstance_dict sub) eqn:Hsub.
    - destruct (IH sub) as (b & Hb & Hiff).
      { assert (Hc : plan_child (VDict plan) sub)
          by (apply (link_child_plan_child plan key); [done|by left]).
        apply plan_child_depth in Hc. lia. }
      { eapply plan_tree_child; [done|].
        apply (link_child_plan_child plan key); [done|by left]. }
      exists b. split; [done|]. rewrite Hiff. split.
      + intros Hn. exists sub. split; [by left|done].
      + intros (c & [[H _]|(items & H & _)] & Hn).
        * by injection H as <-.
        * injection H as ->. discriminate.
    - destruct sub as [| | | |items| |]; try discriminate Hsub;
        try (exists false; split; [done|]; split; [done|];
             intros (c & [[H Hd']|(items & H & _)] & _);
             [injection H as <-; discriminate Hd'|discriminate H]).
      destruct (first_true_spec (search_for_sort limit)
                  (fun s => ∃ node, plan_node s node ∧ is_sort_stage node)
                  items) as (b & Hb & Hiff).
      { intros s Hs.
        assert (Hc : plan_child (VDict plan) s)
          by (by eapply child_in_sequence).
        apply IH.
        - apply plan_child_depth in Hc. lia.
        - by eapply plan_tree_child. }
      exists b. split; [done|]. rewrite Hiff. split.
      + intros (s & Hs & Hn). exists s. split; [right; eauto|done].
      + intros (c & [[H Hd']|(items' & H & Hc)] & Hn).
        * injection H as <-. discriminate Hd'.
        * injection H as <-. eauto. }
  exists b. split; [done|]. rewrite Hiff. split.
  - intros (key & Hkey & c & Hc & node & Hn & Hs).
    exists node. split; [|done].
    eapply rtc_l; [|done]. by eapply link_child_plan_child.
  - intros (node & Hn & Hs).
    inversion Hn as [|? c ? Hc Hrest]; subst.
    + destruct Hs as (plan' & Heq & Hs). injection Heq as <-.
      rewrite Hs in Hstage. discriminate.
    + inversion Hc as [? sub key Hkey Hget|? items key ? Hkey Hget Hin];
        subst; exists key; (split; [done|]).
      * exists (VDict sub). split; [by left|eauto].
      * exists c. split; [right|]; eauto.
Qed.

Lemma stage_metrics_sort (winning_plan stats : pyval)
    (default_stage : string) (projection : pyval) (m : StageMetrics) :
  stage_metrics winning_plan stats default_stage projection = Ok m ->
  triggers_sort winning_plan = Ok (triggersSort (healthMetrics m)).
Proof.
  unfold stage_metrics. intros H. bind_inv H. by injection H as <-.
Qed.

(** C8: on a plan tree the search answers, and answers true exactly when
    some node reached from the root through the child links -- inputStage,
    innerStage, outerStage, inputStages, shards, a mapping or a sequence
    under any of them -- has the stage SORT; so does the triggersSort flag
    of the stage's metrics, and a SORT three levels under a sequence-valued
    link is found. *)
Theorem triggers_sort_finds_sort_stage (winning_plan : pyval) :
  plan_tree winning_plan ->
  (∃ b, triggers_sort winning_plan = Ok b ∧
        (b = true ↔
         ∃ node, plan_node winning_plan node ∧ is_sort_stage node))
  ∧ (∀ stats default_stage projection m,
       stage_metrics winning_plan stats default_stage projection = Ok m ->
       (triggersSort (healthMetrics m) = true ↔
        ∃ node, plan_node winning_plan node ∧ is_sort_stage node))
  ∧ triggers_sort nested_sort_plan = Ok true.
Proof.
  intros Htree.
  destruct (search_for_sort_tree (S (depth winning_plan)) winning_plan)
    as (b & Hb & Hiff); [lia|done|].
  split; [|split].
  - by exists b.
  - intros stats default_stage projection m Hm.
    apply stage_metrics_sort in Hm. unfold triggers_sort in Hm.
    rewrite Hb in Hm. by injection Hm as <-.
  - reflexivity.
Qed.

Lemma triggers_sort_finds_sort_stage_witness :
  ∃ b, triggers_sort (VDict [("stage", VStr "SORT")]) = Ok b ∧
       (b = true ↔
        ∃ node, plan_node (VDict [("stage", VStr "SORT")]) node ∧
                is_sort_stage node).
Proof.
  refine (proj1 (triggers_sort_finds_sort_stage
                   (VDict [("stage", VStr "SORT")]) _)).
  intros node Hn. left.
  inversion Hn as [|? c ? Hc _]; subst; [reflexivity|].
  inversion Hc as [? sub key _ Hget|? items key ? _ Hget _]; subst;
    cbn in Hget; destruct (String.eqb key "stage"); discriminate.
Defined.

(** ** Termination of the search *)

Lemma first_true_agree {A : Type} (f g : A -> result bool) (xs : list A) :
  (∀ x, x ∈ xs -> f x = g x) -> first_true f xs = first_true g xs.
Proof.
  induction xs as [|x xs IH]; intros Hfg; cbn; [done|].
  rewrite (Hfg x) by left. destruct (g x) as [[]|]; cbn; [done| |done].
  apply IH. intros y Hy. apply Hfg. by right.
Qed.

Lemma first_true_raise {A : Type} (f : A -> result bool) (xs : list A)
    (e : exn) :
  first_true f xs = Raise e -> ∃ x, x ∈ xs ∧ f x = Raise e.
Proof.
  induction xs as [|x xs IH]; cbn; [discriminate|].
  destruct (f x) as [[]|e'] eqn:Hx; cbn; [discriminate| |].
  - intros H. destruct (IH H) as (y & Hy & Hf). exists y. split; [by right|done].
  - intros H. injection H as <-. exists x. split; [left|done].
Qed.

Lemma depth_get (plan : dict) (key : string) :
  (depth (default VNone (dict_get key plan)) < depth (VDict plan))%nat.
Proof.
  destruct (dict_get key plan) as [sub|] eqn:Hget; cbn [default from_option].
  - unfold id. eapply depth_entry, dict_get_elem, Hget.
  - cbn. lia.
Qed.

(** With more frames than the value is deep, the search does the same
    whatever the number of frames, and never runs out of them. *)
Lemma search_for_sort_bounded (limit : nat) (v : pyval) :
  (depth v < limit)%nat ->
  (∀ limit', (depth v < limit')%nat ->
             search_for_sort limit' v = search_for_sort limit v) ∧
  (∀ e, search_for_sort limit v = Raise e ->
        exn_class_of e = AttributeError).
Proof.
  revert v. induction limit as [|limit IH]; intros v Hd; [lia|].
  split.
  - intros [|limit'] Hd'; [lia|]. rewrite !search_for_sort_call.
    destruct (negb (truthy v)); [done|].
    destruct v as [| | | | |plan|]; try done.
    cbn [py_get mbind result_bind].
    destruct (py_eq _ _); [done|].
    apply first_true_agree. intros key _.
    pose proof (depth_get plan key) as Hk.
    destruct (default VNone (dict_get key plan)) as [| | | |items|sub|] eqn:Hsub;
      cbn [isinstance_dict]; try done.
    + apply first_true_agree. intros s Hs. apply depth_item in Hs.
      apply IH; lia.
    + apply IH; lia.
  - intros e. rewrite search_for_sort_call.
    destruct (negb (truthy v)); [discriminate|].
    destruct v as [| | | | |plan|]; cbn [py_get mbind result_bind];
      try (intros H; by injection H as <-).
    destruct (py_eq _ _); [discriminate|].
    intros H. apply first_true_raise in H as (key & _ & H).
    pose proof (depth_get plan key) as Hk.
    destruct (default VNone (dict_get key plan)) as [| | | |items|sub|] eqn:Hsub;
      cbn [isinstance_dict] in H; try discriminate.
    + apply first_true_raise in H as (s & Hs & H). apply depth_item in Hs.
      eapply IH; [|done]. lia.
    + eapply IH; [|done]. lia.
Qed.

(** C3, as the search has it: on every decoded value, a well-formed plan or
    not, the search ends within as many nested calls as the value is deep
    plus one -- the same with any deeper stack -- with an answer, or with
    an attribute error on a malformed plan, and never by running out of
    stack frames. *)
Theorem search_for_sort_ends_on_trees (v : pyval) (limit : nat) :
  (depth v < limit)%nat ->
  search_for_sort limit v = triggers_sort v ∧
  (∀ e, triggers_sort v = Raise e -> exn_class_of e = AttributeError).
Proof.
  intros Hd. unfold triggers_sort.
  destruct (search_for_sort_bounded (S (depth v)) v) as [Hsame Hexn]; [lia|].
  split; [by apply Hsame|done].
Qed.

Lemma search_for_sort_ends_on_trees_witness :
  search_for_sort 10 nested_sort_plan = triggers_sort nested_sort_plan ∧
  (∀ e, triggers_sort nested_sort_plan = Raise e ->
        exn_class_of e = AttributeError).
Proof.
  apply (search_for_sort_ends_on_trees nested_sort_plan 10).
  vm_compute. lia.
Defined.

Lemma search_on_loop (limit : nat) :
  search_for_sort limit LoopPlan = Raise recursion_error.
Proof.
  induction limit as [|limit IH]; [done|].
  cbn [search_for_sort obj_truthy obj_get obj_is_str obj_is_dict
       loop_plan_object negb mbind result_bind String.eqb Ascii.eqb
       Bool.eqb child_links first_true].
  by rewrite IH.
Qed.

(** C3, as the claim states it, fails on a plan object that is its own
    inputStage: no visited-node or depth guard stops the search, which
    uses up every stack it is given. *)
Lemma search_for_sort_loops_on_cycle :
  ¬ ∃ limit, search_for_sort limit LoopPlan ≠ Raise recursion_error.
Proof.
  intros (limit & H). apply H, search_on_loop.
Qed.

(** ** The advisor *)

(** When the explain call fails the advisor answers an error response. *)
Lemma advisor_explain_failure (ctx : Ctx) (db_name collection_name : string)
    (query_doc sort limit projection : pyval) (e : exn) :
  db_command ctx db_name
    (VDict [("explain",
             VDict (set_unless_none "projection" projection
                     (set_unless_none "limit" limit
                       (set_unless_none "sort" sort
                         (set_unless_none "filter" query_doc
                            [("find", VStr collection_name)])))));
            ("verbosity", VStr "executionStats")]) = Raise e ->
  optimize_find_query ctx db_name collection_name query_doc sort limit
                      projection =
  Ok (ErrorResponse (str (not_container (VErr (str e))))).
Proof.
  intros H. unfold optimize_find_query, explain_find_query. cbn zeta.
  by rewrite H.
Qed.

(** Whatever the three later collaborators do, an explain output that
    analyses gives a bundle: a failure of theirs sits in its field. *)
Lemma advisor_bundle (ctx : Ctx) (db_name collection_name : string)
    (explain_output projection : pyval) (a : Analysis) :
  analyze_explain_metrics explain_output projection = Ok a ->
  ∃ listed stats sizes,
    bundle_after_explain ctx db_name collection_name explain_output
                         projection =
    Ok (Success {| explain := explain_output; analysis := a;
                   indexes := listed; indexes_stats := stats;
                   collections_stats := sizes |}) ∧
    (∀ e, coll_list_indexes ctx db_name collection_name = Raise e ->
          listed = VErr (str e)).
Proof.
  intros Ha. unfold bundle_after_explain. rewrite Ha.
  cbn [mbind result_bind].
  unfold list_indexes, index_stats, collection_stats.
  destruct (coll_list_indexes ctx db_name collection_name) as [l|e];
    destruct (coll_aggregate ctx db_name collection_name _) as [s|e'];
    destruct (db_command ctx db_name _) as [c|e''];
    cbn; eexists _, _, _; (split; [reflexivity|]); intros ? H;
    try discriminate; by injection H as <-.
Qed.

(** C1 fails on the code: with a driver whose index listing raises, each of
    the three advisor tools answers a bundle, not an error: explain,
    analysis, index statistics and collection statistics carry the
    collaborators' results and the indexes field carries the failure. *)
Theorem advisor_returns_partial_bundle :
  let failure := VErr "not authorized to list indexes" in
  let output := simple_explain (VDict [("stage", VStr "COLLSCAN")]) in
  (∃ a, optimize_find_query listing_fails "db" "coll"
          (VDict [("a", VInt 1)]) VNone VNone VNone =
        Ok (Success {| explain := output; analysis := a;
                       indexes := failure;
                       indexes_stats := VDict [("indexes", VList [])];
                       collections_stats := VDict [("count", VInt 10)] |}))
  ∧ (∃ a, optimize_count_query listing_fails "db" "coll"
            (VDict [("a", VInt 1)]) =
          Ok (Success {| explain := output; analysis := a;
                         indexes := failure;
                         indexes_stats := VDict [("indexes", VList [])];
                         collections_stats := VDict [("count", VInt 10)] |}))
  ∧ (∃ a, optimize_aggregate_query listing_fails "db" "coll" (VList []) =
          Ok (Success {| explain := output; analysis := a;
                         indexes := failure;
                         indexes_stats := VDict [("indexes", VList [])];
                         collections_stats := VDict [("count", VInt 10)] |})).
Proof.
  cbv zeta. repeat split; eexists; vm_compute; reflexivity.
Qed.

(** ** Dictionaries *)

Lemma dict_get_set (k k' : string) (v : pyval) (d : dict) :
  dict_get k (dict_set k' v d) = if String.eqb k k' then Some v else dict_get k d.
Proof.
  induction d as [|[k0 v0] d IH]; cbn.
  - by destruct (String.eqb k k').
  - destruct (String.eqb_spec k' k0) as [->|Hne]; cbn.
    + by destruct (String.eqb k k0).
    + destruct (String.eqb_spec k k0) as [->|Hne'].
      * destruct (String.eqb_spec k0 k'); congruence.
      * apply IH.
Qed.

Lemma dict_set_set (k : string) (v w : pyval) (d : dict) :
  dict_set k v (dict_set k w d) = dict_set k v d.
Proof.
  induction d as [|[k0 v0] d IH]; cbn.
  - by rewrite String.eqb_refl.
  - destruct (String.eqb_spec k k0) as [->|Hne]; cbn.
    + by rewrite String.eqb_refl.
    + destruct (String.eqb_spec k k0); [done|]. by rewrite IH.
Qed.

Lemma dict_set_same (k : string) (v : pyval) (d : dict) :
  dict_get k d = Some v -> dict_set k v d = d.
Proof.
  induction d as [|[k0 v0] d IH]; cbn; [discriminate|].
  destruct (String.eqb_spec k k0) as [->|Hne].
  - intros H. by injection H as ->.
  - intros H. by rewrite IH.
Qed.

(** ** Keys of the join index *)

Ltac eqb_cases :=
  repeat match goal with
  | H : context [Z.eqb ?x ?y] |- _ => destruct (Z.eqb_spec x y)
  | |- context [Z.eqb ?x ?y] => destruct (Z.eqb_spec x y)
  | H : context [String.eqb ?x ?y] |- _ => destruct (String.eqb_spec x y)
  | |- context [String.eqb ?x ?y] => destruct (String.eqb_spec x y)
  end.

Lemma py_eq_sym (a b : pyval) :
  hashable a = true -> hashable b = true -> py_eq a b = py_eq b a.
Proof.
  destruct a as [|[]| | | | |], b as [|[]| | | | |];
    cbn -[Z.eqb String.eqb]; intros; try done;
    eqb_cases; try congruence; try lia.
Qed.

Lemma py_eq_trans (a b c : pyval) :
  hashable a = true -> hashable b = true -> hashable c = true ->
  py_eq a b = true -> py_eq a c = py_eq b c.
Proof.
  destruct a as [|[]| | | | |], b as [|[]| | | | |], c as [|[]| | | | |];
    cbn -[Z.eqb String.eqb]; intros; try done;
    eqb_cases; try congruence; try lia.
Qed.

Lemma py_eq_none (k : pyval) : py_eq k VNone = true -> k = VNone.
Proof. by destruct k. Qed.

(** ** The join index *)

Lemma index_get_nonempty (key : pyval) (index : right_index)
    (bucket : list nat) :
  index_ok index -> index_get key index = Some bucket -> bucket ≠ [].
Proof.
  induction 1 as [|[k b] index [_ Hb] _ IH]; cbn; [discriminate|].
  destruct (py_eq k key); [|done]. intros H. by injection H as <-.
Qed.

Lemma index_add_ok (key : pyval) (doc : nat) (index : right_index) :
  hashable key = true -> index_ok index -> index_ok (index_add key doc index).
Proof.
  intros Hkey. induction 1 as [|[k b] index [Hk Hb] Hok IH]; cbn.
  - repeat constructor; done.
  - destruct (py_eq k key); constructor; cbn; try done.
    split; [done|]. by destruct b.
Qed.

Lemma index_get_add (key key' : pyval) (doc : nat) (index : right_index) :
  hashable key = true -> hashable key' = true -> index_ok index ->
  index_get key' (index_add key doc index) =
  if py_eq key key' then Some (default [] (index_get key index) ++ [doc])
  else index_get key' index.
Proof.
  intros Hkey Hkey'. induction 1 as [|[k b] index [Hk Hb] Hok IH]; cbn.
  - done.
  - cbn in Hk. destruct (py_eq k key) eqn:Hkk; cbn.
    + rewrite (py_eq_trans k key key') by done.
      by destruct (py_eq key key').
    + destruct (py_eq k key') eqn:Hkk'.
      * rewrite (py_eq_sym key key'), <- (py_eq_trans k key' key) by done.
        by rewrite Hkk.
      * apply IH.
Qed.

Lemma index_get_same (k key : pyval) (index : right_index) :
  hashable k = true -> hashable key = true -> index_ok index ->
  py_eq k key = true -> index_get k index = index_get key index.
Proof.
  intros Hk Hkey Hok Heq.
  induction Hok as [|[k0 b] index [Hk0 _] _ IH]; cbn; [done|]. cbn in Hk0.
  rewrite (py_eq_sym k0 k), (py_eq_sym k0 key) by done.
  rewrite (py_eq_trans k key k0) by done.
  by rewrite IH.
Qed.

(** The index after the loop: under every hashable key, the right
    documents holding it, in the order of the right sequence. *)
Lemma build_index_spec (σ : store) (foreign_field : string)
    (right_docs : list nat) (index0 : right_index) :
  index_ok index0 ->
  Forall (fun a => hashable (field_value foreign_field (deref σ a)) = true)
         right_docs ->
  ∃ index,
    build_index σ foreign_field right_docs index0 = Ok index ∧
    index_ok index ∧
    ∀ key, hashable key = true ->
      default [] (index_get key index) =
      default [] (index_get key index0) ++
      List.filter (fun a => holds_key foreign_field key (deref σ a)) right_docs.
Proof.
  intros Hok Hdocs. revert index0 Hok.
  induction Hdocs as [|a right_docs Ha _ IH]; intros index0 Hok.
  - exists index0. split; [done|]. split; [done|].
    intros key _. by rewrite app_nil_r.
  - assert (Hhold : ∀ key,
              holds_key foreign_field key (deref σ a) =
              match field_value foreign_field (deref σ a) with
              | VNone => false
              | k => py_eq k key
              end) by done.
    cbn [build_index].
    destruct (field_value foreign_field (deref σ a)) as [| | | | | |] eqn:Hk;
      try discriminate Ha.
    1: { destruct (IH index0 Hok) as (index & -> & Hok' & Hget).
         exists index. split; [done|]. split; [done|].
         intros key Hkey. cbn [List.filter]. rewrite Hhold. by apply Hget. }
    all: cbn [hashable];
      match type of Ha with
      | hashable ?k = true =>
          destruct (IH (index_add k a index0)) as (index & -> & Hok' & Hget);
            [by apply index_add_ok|];
          exists index; split; [done|]; split; [done|];
          intros key Hkey; rewrite Hget by done;
          rewrite index_get_add by done;
          cbn [List.filter]; rewrite Hhold;
          destruct (py_eq k key) eqn:Heq;
          cbn [List.filter default from_option]; [|done];
          rewrite (index_get_same k key) by done;
          unfold id; by rewrite <- app_assoc
      end.
Qed.

(** ** The join, document by document *)

Lemma fetched_left (left right : list dict) (i : nat) (l : dict) :
  left !! i = Some l -> fetched left right !! i = Some l.
Proof.
  intros H. unfold fetched. apply lookup_union_Some_l.
  rewrite lookup_map_seq_0. done.
Qed.

Lemma fetched_right (left right : list dict) :
  right_intact (fetched left right) (length left) right.
Proof.
  intros j r H. unfold fetched. rewrite lookup_union_r.
  - rewrite lookup_map_seq. rewrite option_guard_True by lia.
    by replace (length left + j - length left)%nat with j by lia.
  - rewrite lookup_map_seq_0. apply lookup_ge_None. lia.
Qed.

Lemma map_deref_intact (σ : store) (base : nat) (right : list dict) :
  right_intact σ base right ->
  map (deref σ) (seq base (length right)) = right.
Proof.
  revert base. induction right as [|r right IH]; intros base H; [done|].
  cbn. f_equal.
  - unfold deref. rewrite <- (Nat.add_0_r base). by rewrite (H 0%nat r).
  - apply IH. intros j r' Hj.
    replace (S base + j)%nat with (base + S j)%nat by lia. by apply H.
Qed.

Lemma map_filter_deref (σ σ0 : store) (p : dict -> bool) (addrs : list nat) :
  (∀ a, a ∈ addrs -> deref σ a = deref σ0 a) ->
  map (deref σ) (List.filter (fun a => p (deref σ0 a)) addrs) =
  List.filter p (map (deref σ0) addrs).
Proof.
  induction addrs as [|a addrs IH]; intros H; [done|]. cbn.
  destruct (p (deref σ0 a)); cbn; rewrite IH; try (intros; apply H; by right).
  - f_equal. apply H. left.
  - done.
Qed.

Lemma right_intact_deref (σ σ0 : store) (base : nat) (right : list dict)
    (a : nat) :
  right_intact σ base right -> right_intact σ0 base right ->
  a ∈ seq base (length right) -> deref σ a = deref σ0 a.
Proof.
  intros H H0 Ha. apply elem_of_seq in Ha as [Hlo Hhi].
  destruct (lookup_lt_is_Some_2 right (a - base)) as [r Hr]; [lia|].
  unfold deref. replace a with (base + (a - base))%nat by lia.
  by rewrite (H _ _ Hr), (H0 _ _ Hr).
Qed.

(** The index built over the fetched right documents. *)
Lemma build_index_fetched (σ0 : store) (base : nat) (right : list dict)
    (foreign_field : string) :
  right_intact σ0 base right ->
  indexable foreign_field right = true ->
  ∃ index,
    build_index σ0 foreign_field (seq base (length right)) [] = Ok index ∧
    index_for right foreign_field base index.
Proof.
  intros H0 Hidx.
  destruct (build_index_spec σ0 foreign_field (seq base (length right)) [])
    as (index & Hb & Hok & Hget).
  { constructor. }
  { apply Forall_forall. intros a Ha.
    pose proof Ha as Ha'. apply elem_of_seq in Ha' as [Hlo Hhi].
    destruct (lookup_lt_is_Some_2 right (a - base)) as [r Hr]; [lia|].
    unfold deref. replace a with (base + (a - base))%nat by lia.
    rewrite (H0 _ _ Hr). cbn.
    unfold indexable in Hidx. rewrite forallb_forall in Hidx.
    apply Hidx. apply list_elem_of_In. by eapply list_elem_of_lookup_2. }
  exists index. split; [done|]. split; [done|].
  intros key σ Hkey Hσ. rewrite Hget by done.
  change (default [] (index_get key [])) with (@nil nat). cbn [app].
  unfold matching.
  rewrite (map_filter_deref σ σ0 (holds_key foreign_field key)).
  - by rewrite map_deref_intact.
  - intros a Ha. by eapply right_intact_deref.
Qed.

Lemma matching_none (right : list dict) (foreign_field : string) :
  matching right foreign_field VNone = [].
Proof.
  unfold matching. induction right as [|r right IH]; [done|]. cbn.
  assert (holds_key foreign_field VNone r = false) as ->; [|done].
  unfold holds_key.
  destruct (field_value foreign_field r) eqn:Hk; try done.
Qed.

Lemma index_for_lookup (right : list dict) (foreign_field : string)
    (base : nat) (index : right_index) (key : pyval) (σ : store) :
  index_for right foreign_field base index ->
  hashable key = true -> right_intact σ base right ->
  match index_get key index with
  | None => matching right foreign_field key = []
  | Some bucket =>
      bucket ≠ [] ∧ map (deref σ) bucket = matching right foreign_field key
  end.
Proof.
  intros [Hok Hget] Hkey Hσ. specialize (Hget key σ Hkey Hσ).
  destruct (index_get key index) as [bucket|] eqn:Hb; cbn in Hget.
  - split; [by eapply index_get_nonempty|done].
  - done.
Qed.

(** *** The nested-array loop *)

Lemma remove_first_drop (item : pyval) (l : list pyval) (j i : nat) :
  (j <= i)%nat -> (i - j < length l)%nat ->
  drop (S (i - j)) (remove_first i item j l) = drop (S (S (i - j))) l.
Proof.
  revert j. induction l as [|x l IH]; intros j Hj Hlen; cbn in Hlen; [lia|].
  cbn [remove_first]. destruct (Nat.eqb_spec j i) as [->|Hne]; cbn [orb].
  - done.
  - destruct (py_eq x item); [done|].
    replace (i - j)%nat with (S (i - S j)) by lia.
    cbn [drop]. apply (IH (S j)); lia.
Qed.

Lemma remove_first_Forall (P : pyval -> Prop) (item : pyval)
    (l : list pyval) (j i : nat) :
  Forall P l -> Forall P (remove_first i item j l).
Proof.
  intros H. revert j. induction H as [|x l Hx Hl IH]; intros j; cbn; [done|].
  destruct (_ || _); [done|]. constructor; [done|apply IH].
Qed.

Lemma rebuilt_unproductive (right : list dict)
    (foreign_field right_collection query_field : string) (x : pyval)
    (items : list pyval) :
  productive right foreign_field query_field x = false ->
  rebuilt right foreign_field right_collection query_field (x :: items) =
  rebuilt right foreign_field right_collection query_field items.
Proof.
  unfold rebuilt, productive. cbn [flat_map]. destruct x; try done.
  by destruct (matching right foreign_field (field_value query_field entries)).
Qed.

Lemma remove_first_length (i : nat) (item : pyval) (j : nat)
    (l : list pyval) :
  (length (remove_first i item j l) <= length l)%nat.
Proof.
  revert j. induction l as [|x l IH]; intros j; cbn; [done|].
  destruct (_ || _); cbn; [lia|]. specialize (IH (S j)). lia.
Qed.

(** The loop ends because the iterator runs off the list, never because it
    reaches its bound: from the length of the list on, a larger bound
    changes nothing. *)
Lemma nested_loop_bound (σ : store) (index : right_index)
    (query_field right_collection : string) (remaining i : nat)
    (left_values copied : list pyval) :
  (length left_values - i <= remaining)%nat ->
  nested_loop (S remaining) σ index query_field right_collection i
              left_values copied =
  nested_loop remaining σ index query_field right_collection i
              left_values copied.
Proof.
  revert i left_values copied.
  induction remaining as [|remaining IH]; intros i left_values copied Hlen.
  - cbn [nested_loop]. by rewrite (proj2 (lookup_ge_None _ _)) by lia.
  - change (nested_loop (S (S remaining)) σ index query_field
              right_collection i left_values copied)
      with (match left_values !! i with
            | None => (left_values, copied, None)
            | Some (VDict item) =>
                let key := field_value query_field item in
                if hashable key then
                  match index_get key index with
                  | None =>
                      nested_loop (S remaining) σ index query_field
                        right_collection (S i)
                        (remove_first i (VDict item) 0 left_values) copied
                  | Some bucket =>
                      nested_loop (S remaining) σ index query_field
                        right_collection (S i) left_values
                        (fan_out σ right_collection bucket item copied)
                  end
                else (left_values, copied, Some (unhashable key))
            | Some _ =>
                nested_loop (S remaining) σ index query_field
                  right_collection (S i) left_values copied
            end).
    cbn [nested_loop].
    destruct (left_values !! i) as [x|] eqn:Hx; [|done].
    destruct x as [| | | | |item|]; try (apply IH; lia).
    cbv zeta. destruct (hashable _); [|done].
    destruct (index_get _ index); apply IH; [lia|].
    pose proof (remove_first_length i (VDict item) 0 left_values). lia.
Qed.

Lemma fan_out_accumulated (σ : store) (right_collection : string)
    (bucket : list nat) (item : dict) (copied : list pyval) :
  fan_out σ right_collection bucket item copied =
  copied ++ accumulated right_collection (map (deref σ) bucket) item.
Proof.
  revert item copied.
  induction bucket as [|r bucket IH]; intros item copied; cbn.
  - by rewrite app_nil_r.
  - rewrite IH. by rewrite <- app_assoc.
Qed.

Lemma scanned_skip (right : list dict)
    (foreign_field right_collection query_field : string)
    (items : list pyval) :
  scanned right foreign_field right_collection query_field true items =
  scanned right foreign_field right_collection query_field false
          (drop 1 items).
Proof. by destruct items. Qed.

(** The loop collects what [scanned] describes. *)
Lemma nested_loop_safe (right : list dict)
    (foreign_field right_collection query_field : string) (base : nat)
    (σ : store) (index : right_index) (remaining i : nat)
    (left_values copied rest : list pyval) :
  right_intact σ base right ->
  index_for right foreign_field base index ->
  drop i left_values = rest ->
  (length rest <= remaining)%nat ->
  Forall (fun it => safe_element query_field it = true) left_values ->
  ∃ left_values',
    nested_loop remaining σ index query_field right_collection i
                left_values copied =
    (left_values',
     copied ++ scanned right foreign_field right_collection query_field
                       false rest,
     None).
Proof.
  intros Hσ Hidx. revert i left_values copied rest.
  induction remaining as [|remaining IH];
    intros i left_values copied rest Hdrop Hlen Hsafe.
  - destruct rest; [|cbn in Hlen; lia]. exists left_values. cbn.
    by rewrite app_nil_r.
  - cbn [nested_loop]. destruct rest as [|x rest].
    { assert (left_values !! i = None) as ->.
      { apply lookup_ge_None. apply (f_equal length) in Hdrop.
        rewrite length_drop in Hdrop. cbn in Hdrop. lia. }
      exists left_values. cbn. by rewrite app_nil_r. }
    assert (Hx : left_values !! i = Some x).
    { rewrite <- (Nat.add_0_r i), <- lookup_drop, Hdrop. done. }
    assert (Hrest : drop (S i) left_values = rest).
    { rewrite (drop_S _ _ _ Hx) in Hdrop. by injection Hdrop. }
    rewrite Hx. cbn in Hlen.
    pose proof (proj1 (Forall_lookup _ _) Hsafe _ _ Hx) as Hpx. cbn in Hpx.
    destruct x as [| | | | |item|];
      try (destruct (IH (S i) left_values copied rest) as (lv' & ->);
           [done|lia|done|]; by exists lv').
    cbn in Hpx. cbv zeta. rewrite Hpx.
    pose proof (index_for_lookup _ _ _ _ _ σ Hidx Hpx Hσ) as Hlook.
    cbn [scanned].
    destruct (index_get (field_value query_field item) index) as [bucket|].
    + destruct Hlook as [Hne Hmap]. rewrite <- Hmap.
      rewrite fan_out_accumulated.
      destruct (IH (S i) left_values
                  (copied ++ accumulated right_collection
                               (map (deref σ) bucket) item) rest)
        as (lv' & ->); [done|lia|done|].
      exists lv'. rewrite <- app_assoc.
      by destruct bucket.
    + rewrite Hlook, scanned_skip.
      assert (Hi : (i < length left_values)%nat)
        by (by eapply lookup_lt_Some).
      pose proof (remove_first_drop (VDict item) left_values 0 i) as Hrm.
      rewrite Nat.sub_0_r in Hrm. specialize (Hrm ltac:(lia) Hi).
      destruct (IH (S i) (remove_first i (VDict item) 0 left_values)
                  copied (drop 1 rest)) as (lv' & ->).
      * rewrite Hrm. replace (S (S i)) with (S i + 1)%nat by lia.
        by rewrite <- drop_drop, Hrest.
      * rewrite length_drop. lia.
      * by apply remove_first_Forall.
      * by exists lv'.
Qed.

(** On an array of plain elements where nothing is skipped, what the join
    collects is the rebuilt array. *)
(** *** Copies for several matches *)

Lemma append_inj_r (s a b : string) : s +:+ a = s +:+ b -> a = b.
Proof.
  induction s as [|c s IH]; cbn; [done|]. intros H. injection H as H. auto.
Qed.

Lemma prefixed_inj (right_collection k k' : string) :
  prefixed right_collection k = prefixed right_collection k' -> k = k'.
Proof.
  unfold prefixed. intros H. apply append_inj_r in H.
  by apply (append_inj_r "_") in H.
Qed.

Lemma dict_mem_set (k a : string) (x : pyval) (d : dict) :
  dict_mem k d = true -> dict_mem k (dict_set a x d) = true.
Proof.
  unfold dict_mem. rewrite dict_get_set. by destruct (String.eqb k a).
Qed.

Lemma dict_set_comm (k a : string) (v x : pyval) (d : dict) :
  a ≠ k -> dict_mem k d = true ->
  dict_set k v (dict_set a x d) = dict_set a x (dict_set k v d).
Proof.
  intros Hne. unfold dict_mem.
  induction d as [|[k0 v0] d IH]; [done|]. cbn [dict_set dict_get].
  destruct (String.eqb_spec a k0) as [->|Ha],
           (String.eqb_spec k k0) as [->|Hk]; try done; cbn [dict_set].
  - destruct (String.eqb_spec k k0); [done|].
    by destruct (String.eqb_spec k0 k0).
  - destruct (String.eqb_spec a k0); [done|].
    by destruct (String.eqb_spec k0 k0).
  - destruct (String.eqb_spec a k0), (String.eqb_spec k k0); try done.
    intros Hmem. by rewrite IH.
Qed.

Lemma dict_merge_set_comm (k : string) (v : pyval) (updates : dict) :
  k ∉ dict_keys updates ->
  ∀ d, dict_mem k d = true ->
       dict_set k v (dict_merge d updates) =
       dict_merge (dict_set k v d) updates.
Proof.
  unfold dict_merge.
  induction updates as [|[a x] updates IH]; intros Hk d Hmem; [done|].
  cbn [fold_left fst snd]. cbn [dict_keys map fst] in Hk.
  apply not_elem_of_cons in Hk as [Hne Hk].
  rewrite IH by (done || by apply dict_mem_set).
  by rewrite dict_set_comm.
Qed.

Lemma dict_merge_twice (first second : dict) :
  dict_keys first = dict_keys second ->
  NoDup (dict_keys first) ->
  ∀ item, dict_merge (dict_merge item first) second = dict_merge item second.
Proof.
  revert second.
  induction first as [|[k v1] first IH]; intros [|[k' v2] second];
    try discriminate; [done|].
  cbn [dict_keys map fst]. intros Hkeys Hnd item.
  injection Hkeys as <- Hkeys. apply NoDup_cons in Hnd as [Hk Hnd].
  unfold dict_merge at 1 2 3. cbn [fold_left fst snd].
  fold (dict_merge (dict_set k v1 item) first).
  fold (dict_merge (dict_set k v2 (dict_merge (dict_set k v1 item) first))
                   second).
  fold (dict_merge (dict_set k v2 item) second).
  rewrite dict_merge_set_comm.
  - rewrite dict_set_set. by apply IH.
  - done.
  - unfold dict_mem. rewrite dict_get_set.
    by destruct (String.eqb_spec k k).
Qed.

Lemma merge_right_lent (right_collection : string) (r target : dict) :
  merge_right right_collection r target =
  dict_merge target (lent right_collection r).
Proof.
  unfold merge_right, dict_merge, lent. revert target.
  induction r as [|[k v] r IH]; intros target; [done|].
  cbn [fold_left List.filter fst snd].
  destruct (String.eqb k "_id"); cbn [negb map fold_left fst snd]; apply IH.
Qed.

Lemma dict_set_fresh (k : string) (v : pyval) (d : dict) :
  k ∉ dict_keys d -> dict_set k v d = d ++ [(k, v)].
Proof.
  induction d as [|[k0 v0] d IH]; [done|]. cbn [dict_keys map fst].
  intros H. apply not_elem_of_cons in H as [Hne H]. cbn [dict_set app].
  destruct (String.eqb_spec k k0); [done|]. by rewrite IH.
Qed.

Lemma dict_merge_fresh (updates : dict) :
  ∀ d, NoDup (dict_keys (d ++ updates)) -> dict_merge d updates = d ++ updates.
Proof.
  unfold dict_merge.
  induction updates as [|[k v] updates IH]; intros d Hnd.
  - by rewrite app_nil_r.
  - cbn [fold_left fst snd].
    replace (d ++ (k, v) :: updates) with ((d ++ [(k, v)]) ++ updates) in *
      by by rewrite <- app_assoc.
    rewrite dict_set_fresh; [by apply IH|].
    unfold dict_keys in Hnd. rewrite !map_app in Hnd.
    apply NoDup_app in Hnd as [Hnd _]. apply NoDup_app in Hnd as (_ & Hd & _).
    intros Hin. apply (Hd k Hin). cbn. left.
Qed.

Lemma lent_keys (right_collection : string) (r : dict) :
  dict_keys (lent right_collection r) =
  map (prefixed right_collection) (lent_fields r).
Proof.
  unfold lent, lent_fields, dict_keys.
  induction r as [|[k v] r IH]; [done|]. cbn [List.filter map fst].
  destruct (String.eqb k "_id"); cbn [negb map fst]; by rewrite IH.
Qed.

Lemma NoDup_list_filter {A : Type} (f : A -> bool) (l : list A) :
  NoDup l -> NoDup (List.filter f l).
Proof.
  induction 1 as [|x l Hx _ IH]; cbn [List.filter]; [constructor|].
  destruct (f x); [|done]. constructor; [|done].
  intros Hin. apply Hx.
  apply list_elem_of_In, filter_In in Hin as [Hin _].
  by apply list_elem_of_In.
Qed.

Lemma lent_NoDup (right_collection : string) (r : dict) :
  NoDup (dict_keys r) -> NoDup (dict_keys (lent right_collection r)).
Proof.
  intros Hnd. rewrite lent_keys. unfold lent_fields.
  apply (NoDup_fmap_2_strong (prefixed right_collection)).
  - intros k k' _ _. apply prefixed_inj.
  - by apply NoDup_list_filter.
Qed.

Lemma merged_copy_lent (right_collection : string) (item r : dict) :
  NoDup (dict_keys r) ->
  merged_copy right_collection item r =
  dict_merge item (lent right_collection r).
Proof.
  intros Hnd. unfold merged_copy. rewrite merge_right_lent.
  rewrite (dict_merge_fresh _ []); [done|]. by apply lent_NoDup.
Qed.

Lemma accumulated_same (right_collection : string) (fields : list string)
    (matches : list dict) (item : dict) :
  Forall (fun r => NoDup (dict_keys r) ∧ lent_fields r = fields) matches ->
  ∀ copy,
    copy = item ∨
    (∃ r, NoDup (dict_keys r) ∧ lent_fields r = fields ∧
          copy = merged_copy right_collection item r) ->
    accumulated right_collection matches copy =
    map (fun r => VDict (merged_copy right_collection item r)) matches.
Proof.
  induction 1 as [|r matches [Hnd Hfields] _ IH]; intros copy Hcopy; [done|].
  cbn [accumulated map].
  assert (Hsame : merged_copy right_collection copy r =
                  merged_copy right_collection item r).
  { destruct Hcopy as [->|(r0 & Hnd0 & Hf0 & ->)]; [done|].
    rewrite (merged_copy_lent _ item r0), !(merged_copy_lent _ _ r) by done.
    apply dict_merge_twice; [|by apply lent_NoDup].
    rewrite !lent_keys. congruence. }
  rewrite Hsame. f_equal. apply IH. right. by exists r.
Qed.

Lemma accumulated_uniform (right_collection : string) (matches : list dict)
    (item : dict) :
  uniform matches = true ->
  accumulated right_collection matches item =
  map (fun r => VDict (merged_copy right_collection item r)) matches.
Proof.
  destruct matches as [|r0 matches]; [done|]. unfold uniform. intros H.
  apply (accumulated_same _ (lent_fields r0)); [|by left].
  apply Forall_forall. intros r Hr. rewrite forallb_forall in H.
  apply list_elem_of_In, H, andb_true_iff in Hr as [Hnd Hf].
  split; by eapply bool_decide_eq_true_1.
Qed.

Lemma scanned_regular (right : list dict)
    (foreign_field right_collection query_field : string)
    (skip : bool) (items : list pyval) :
  forallb (plain_element right foreign_field query_field) items = true ->
  none_lost right foreign_field query_field skip items = true ->
  scanned right foreign_field right_collection query_field skip items =
  rebuilt right foreign_field right_collection query_field items.
Proof.
  revert skip. induction items as [|x items IH]; intros skip Hplain Hlost;
    [done|].
  cbn [forallb] in Hplain. apply andb_prop in Hplain as [Hx Hplain].
  cbn [scanned none_lost] in Hlost |- *. destruct skip.
  - apply andb_prop in Hlost as [Hun Hlost]. apply negb_true_iff in Hun.
    rewrite rebuilt_unproductive by done. by apply IH.
  - destruct x as [| | | | |item|]; try discriminate Hx.
    cbn [plain_element] in Hx. apply andb_prop in Hx as [_ Hone].
    cbn [unmatched] in Hlost.
    destruct (matching right foreign_field (field_value query_field item))
      as [|r [|r' ms]] eqn:Hm.
    + assert (Hun : productive right foreign_field query_field (VDict item)
                    = false) by (cbn; by rewrite Hm).
      rewrite rebuilt_unproductive by done. by apply IH.
    + unfold rebuilt at 1. cbn [flat_map]. rewrite Hm. cbn [accumulated map].
      fold (rebuilt right foreign_field right_collection query_field items).
      by rewrite IH.
    + cbn [length Nat.leb orb] in Hone.
      rewrite (accumulated_uniform _ _ _ Hone).
      unfold rebuilt at 1. cbn [flat_map]. rewrite Hm.
      fold (rebuilt right foreign_field right_collection query_field items).
      by rewrite IH.
Qed.

(** *** One left document *)

Lemma fold_left_map {A B C : Type} (f : A -> C -> A) (g : B -> C)
    (l : list B) (a : A) :
  fold_left (fun acc x => f acc (g x)) l a = fold_left f (map g l) a.
Proof. revert a. induction l as [|x l IH]; intros a; cbn; [done|apply IH]. Qed.

(** What one turn of the join writes, it writes to the left document in
    hand. *)
Lemma join_left_frame (σ : store) (index : right_index)
    (local_field right_collection : string) (a b : nat) :
  b ≠ a ->
  (join_left σ index local_field right_collection a).2 !! b = σ !! b.
Proof.
  intros Hne. unfold join_left.
  destruct (split_field local_field) as [pre_field query_field].
  destruct (field_value pre_field (deref σ a)) as [| | | |lv| |];
    try (destruct (field_value local_field (deref σ a));
         cbn [hashable]; try done;
         match goal with
         | |- context [index_get ?k index] =>
             destruct (index_get k index); cbn [snd]; try done;
             by rewrite lookup_insert_ne
         end).
  destruct (nested_loop _ _ _ _ _ _ _ _) as [[lv' copied] [e|]];
    [|destruct copied]; cbn [snd]; by rewrite lookup_insert_ne.
Qed.

Lemma join_loop_frame (σ : store) (index : right_index)
    (local_field right_collection : string) (left_docs results : list nat)
    (b : nat) :
  b ∉ left_docs ->
  (join_loop σ index local_field right_collection left_docs results).2 !! b
  = σ !! b.
Proof.
  revert σ results.
  induction left_docs as [|a left_docs IH]; intros σ results Hb; [done|].
  cbn [join_loop].
  pose proof (join_left_frame σ index local_field right_collection a b) as Hf.
  destruct (join_left σ index local_field right_collection a) as [[flag|e] σ'];
    cbn [snd] in Hf |- *.
  - rewrite IH; [apply Hf|]; set_solver.
  - apply Hf. set_solver.
Qed.

Lemma scalar_merge_key (right : list dict)
    (foreign_field right_collection : string) (base : nat)
    (σ : store) (index : right_index) (a : nat) (l : dict) (key : pyval) :
  right_intact σ base right ->
  index_for right foreign_field base index ->
  σ !! a = Some l ->
  hashable key = true ->
  ∃ σ',
    (if hashable key then
       match index_get key index with
       | None => (Ok true, σ)
       | Some bucket =>
           (Ok true,
            <[a := fold_left
                     (fun d r => merge_right right_collection (deref σ r) d)
                     bucket l]> σ)
       end
     else (Raise (unhashable key), σ)) = (Ok true, σ') ∧
    (∀ b, b ≠ a -> σ' !! b = σ !! b) ∧
    σ' !! a = Some (enrich right_collection
                      (matching right foreign_field key) l).
Proof.
  intros Hσ Hidx Hl Hkey. rewrite Hkey.
  pose proof (index_for_lookup _ _ _ _ _ σ Hidx Hkey Hσ) as Hlook.
  destruct (index_get key index) as [bucket|].
  - destruct Hlook as [_ Hmap]. eexists. split; [reflexivity|].
    split; [intros b Hb; by rewrite lookup_insert_ne|].
    rewrite lookup_insert_eq, <- Hmap. unfold enrich.
    by rewrite <- fold_left_map.
  - exists σ. by rewrite Hlook.
Qed.

Lemma scalar_merge_regular (right : list dict)
    (local_field foreign_field right_collection : string) (base : nat)
    (σ : store) (index : right_index) (a : nat) (l : dict) :
  right_intact σ base right ->
  index_for right foreign_field base index ->
  σ !! a = Some l ->
  hashable (field_value local_field l) = true ->
  ∃ σ',
    match field_value local_field l with
    | VNone => (Ok true, σ)
    | key =>
        if hashable key then
          match index_get key index with
          | None => (Ok true, σ)
          | Some bucket =>
              (Ok true,
               <[a := fold_left
                        (fun d r => merge_right right_collection (deref σ r) d)
                        bucket l]> σ)
          end
        else (Raise (unhashable key), σ)
    end = (Ok true, σ') ∧
    (∀ b, b ≠ a -> σ' !! b = σ !! b) ∧
    σ' !! a = Some (enrich right_collection
                      (matching right foreign_field
                                (field_value local_field l)) l).
Proof.
  intros Hσ Hidx Hl Hkey.
  destruct (field_value local_field l) as [| | | | | |] eqn:Hk;
    try discriminate Hkey.
  1: { exists σ. rewrite matching_none. done. }
  all: by eapply scalar_merge_key.
Qed.

Lemma join_left_safe (right : list dict)
    (local_field foreign_field right_collection : string) (base : nat)
    (σ : store) (index : right_index) (a : nat) (l : dict) :
  right_intact σ base right ->
  index_for right foreign_field base index ->
  σ !! a = Some l ->
  safe local_field l = true ->
  ∃ σ',
    join_left σ index local_field right_collection a =
      (Ok (match outcome right local_field foreign_field right_collection l
           with Some _ => true | None => false end), σ') ∧
    (∀ b, b ≠ a -> σ' !! b = σ !! b) ∧
    (∀ o, outcome right local_field foreign_field right_collection l = Some o ->
          σ' !! a = Some o).
Proof.
  intros Hσ Hidx Hl Hreg.
  assert (Hd : deref σ a = l) by (unfold deref; by rewrite Hl).
  unfold join_left, outcome, safe in *. rewrite Hd. revert Hreg.
  destruct (split_field local_field) as [pre_field query_field].
  destruct (field_value pre_field l) as [| | | |items| |] eqn:Hpre;
    intros Hreg;
    try (destruct (scalar_merge_regular right local_field foreign_field
                     right_collection base σ index a l)
           as (σ' & Hs & Hframe & Ha); try done;
         cbv zeta in Hs |- *; rewrite Hs;
         exists σ'; split; [done|]; split; [done|];
         intros o Ho; by injection Ho as <-).
  destruct (nested_loop_safe right foreign_field right_collection
              query_field base σ index (length items) 0 items [] items)
    as (lv' & ->); try done.
  { apply Forall_forall. intros it Hit.
    rewrite forallb_forall in Hreg. apply Hreg. by apply list_elem_of_In. }
  cbn [app].
  destruct (scanned right foreign_field right_collection query_field false
                    items) as [|c copied].
  - eexists. split; [reflexivity|]. split; [|done].
    intros b Hb. by rewrite lookup_insert_ne.
  - eexists. split; [reflexivity|]. split.
    + intros b Hb. by rewrite lookup_insert_ne.
    + intros o Ho. injection Ho as <-.
      by rewrite lookup_insert_eq, dict_set_set.
Qed.

(** *** All left documents *)

Lemma omap_cons {A B : Type} (f : A -> option B) (x : A) (l : list A) :
  omap f (x :: l) =
  match f x with Some y => y :: omap f l | None => omap f l end.
Proof. done. Qed.

Lemma join_loop_safe (right : list dict)
    (local_field foreign_field right_collection : string) (base : nat)
    (index : right_index) (addrs : list nat) (ls : list dict) :
  index_for right foreign_field base index ->
  ∀ (σ : store) (results : list nat),
    Forall2 (fun a l => σ !! a = Some l) addrs ls ->
    NoDup addrs ->
    (∀ a, a ∈ addrs -> (a < base)%nat) ->
    right_intact σ base right ->
    Forall (fun l => safe local_field l = true) ls ->
    ∃ σ' kept,
      join_loop σ index local_field right_collection addrs results =
        (Ok (results ++ kept), σ') ∧
      map (deref σ') kept =
        omap (outcome right local_field foreign_field right_collection) ls ∧
      (∀ b, b ∉ addrs -> σ' !! b = σ !! b).
Proof.
  intros Hidx. revert ls.
  induction addrs as [|a addrs IH]; intros ls σ results Hls Hnd Hlt Hσ Hreg.
  - apply Forall2_nil_inv_l in Hls as ->. exists σ, []. cbn.
    by rewrite app_nil_r.
  - apply Forall2_cons_inv_l in Hls as (l & ls' & Ha & Hls & ->).
    apply NoDup_cons in Hnd as [Hnotin Hnd].
    apply Forall_cons in Hreg as [Hl Hreg].
    destruct (join_left_safe right local_field foreign_field
                right_collection base σ index a l)
      as (σ1 & Hstep & Hframe & Hout); try done.
    cbn [join_loop]. rewrite Hstep.
    assert (Hls1 : Forall2 (fun a l => σ1 !! a = Some l) addrs ls').
    { clear -Hls Hframe Hnotin.
      induction Hls as [|a' l' addrs ls' Ha' _ IH']; constructor.
      - rewrite Hframe; [done|]. set_solver.
      - apply IH'. set_solver. }
    assert (Hlt1 : ∀ a', a' ∈ addrs -> (a' < base)%nat).
    { intros a' Ha'. apply Hlt. by right. }
    assert (Hσ1 : right_intact σ1 base right).
    { intros j r Hj. rewrite Hframe; [by apply Hσ|].
      assert (a < base)%nat by (apply Hlt; left). lia. }
    destruct (IH ls' σ1
                (if match outcome right local_field foreign_field
                                  right_collection l
                    with Some _ => true | None => false end
                 then results ++ [a] else results)
                Hls1 Hnd Hlt1 Hσ1 Hreg)
      as (σ' & kept & -> & Hkept & Hframe').
    rewrite omap_cons.
    destruct (outcome right local_field foreign_field right_collection l)
      as [o|] eqn:Ho.
    + exists σ', (a :: kept). rewrite <- app_assoc. split; [done|].
      split.
      * cbn [map]. rewrite Hkept. f_equal. unfold deref.
        rewrite Hframe' by done. by rewrite (Hout o).
      * intros b Hb. rewrite Hframe' by set_solver.
        apply Hframe. set_solver.
    + exists σ', kept. split; [done|]. split; [done|].
      intros b Hb. rewrite Hframe' by set_solver.
      apply Hframe. set_solver.
Qed.

(** The join of safe documents: the outcomes of the left documents, in
    left-sequence order. *)
Lemma join_safe (left right : list dict)
    (local_field foreign_field right_collection : string) :
  indexable foreign_field right = true ->
  forallb (safe local_field) left = true ->
  (join left right local_field foreign_field right_collection).1 =
  Ok (omap (outcome right local_field foreign_field right_collection) left).
Proof.
  intros Hidx Hreg. unfold join, join_documents.
  destruct (build_index_fetched (fetched left right) (length left) right
              foreign_field) as (index & -> & Hfor); [apply fetched_right|done|].
  destruct (join_loop_safe right local_field foreign_field right_collection
              (length left) index (seq 0 (length left)) left Hfor
              (fetched left right) [])
    as (σ' & kept & -> & Hkept & _).
  - apply Forall2_lookup. intros i.
    destruct (left !! i) as [l|] eqn:Hl.
    + rewrite (lookup_seq_lt _ _ _ (lookup_lt_Some _ _ _ Hl)).
      constructor. by apply fetched_left.
    + rewrite lookup_seq_ge by (by apply lookup_ge_None). constructor.
  - apply NoDup_seq.
  - intros a Ha. apply elem_of_seq in Ha. lia.
  - apply fetched_right.
  - apply Forall_forall. intros l Hl. rewrite forallb_forall in Hreg.
    apply Hreg. by apply list_elem_of_In.
  - cbn. by rewrite Hkept.
Qed.

(** ** Merged fields *)

Lemma dict_get_app (k : string) (d d' : dict) :
  dict_get k (d ++ d') =
  match dict_get k d with Some v => Some v | None => dict_get k d' end.
Proof.
  induction d as [|[k0 v0] d IH]; cbn; [done|].
  by destruct (String.eqb k k0).
Qed.

Lemma dict_get_None_keys (k : string) (d : dict) :
  dict_get k d = None ↔ k ∉ dict_keys d.
Proof.
  induction d as [|[k0 v0] d IH]; cbn.
  - split; [intros _ H; by apply elem_of_nil in H|done].
  - destruct (String.eqb_spec k k0) as [->|Hne].
    + split; [done|]. intros H. exfalso. apply H. left.
    + rewrite IH. split.
      * intros H H'. apply elem_of_cons in H' as [?|?]; done.
      * intros H H'. apply H. by right.
Qed.

Lemma merge_right_snoc (right_collection : string) (r target : dict)
    (k : string) (v : pyval) :
  merge_right right_collection (r ++ [(k, v)]) target =
  if String.eqb k "_id" then merge_right right_collection r target
  else dict_set (prefixed right_collection k) v
                (merge_right right_collection r target).
Proof. unfold merge_right. by rewrite fold_left_app. Qed.

(** A field of a right document, the identity field apart, lands under
    its prefixed name. *)
Lemma merge_right_field (right_collection : string) (r target : dict)
    (k : string) (v : pyval) :
  NoDup (dict_keys r) -> k ≠ "_id" -> dict_get k r = Some v ->
  dict_get (prefixed right_collection k)
           (merge_right right_collection r target) = Some v.
Proof.
  induction r as [|[k0 v0] r IH] using rev_ind; [done|].
  intros Hnd Hk Hget. unfold dict_keys in Hnd. rewrite map_app in Hnd.
  apply NoDup_app in Hnd as (Hnd & Hdisj & _).
  rewrite merge_right_snoc. rewrite dict_get_app in Hget. cbn in Hget.
  destruct (dict_get k r) as [w|] eqn:Hr.
  - injection Hget as ->.
    assert (k0 ≠ k).
    { intros ->. apply (Hdisj k); [|left].
      apply dict_get_elem in Hr. apply list_elem_of_fmap. by exists (k, v). }
    destruct (String.eqb k0 "_id"); [by apply IH|].
    rewrite dict_get_set.
    destruct (String.eqb_spec (prefixed right_collection k)
                              (prefixed right_collection k0)) as [Heq|_].
    + apply prefixed_inj in Heq. congruence.
    + by apply IH.
  - destruct (String.eqb_spec k k0) as [->|]; [|discriminate].
    injection Hget as ->.
    destruct (String.eqb_spec k0 "_id"); [done|].
    by rewrite dict_get_set, String.eqb_refl.
Qed.

(** A field no right field is renamed to stays as it was. *)
Lemma merge_right_other (right_collection : string) (r target : dict)
    (field : string) :
  (∀ k, k ≠ "_id" -> k ∈ dict_keys r ->
        prefixed right_collection k ≠ field) ->
  dict_get field (merge_right right_collection r target) =
  dict_get field target.
Proof.
  induction r as [|[k0 v0] r IH] using rev_ind; [done|].
  intros H. rewrite merge_right_snoc.
  assert (IH' : dict_get field (merge_right right_collection r target) =
                dict_get field target).
  { apply IH. intros k Hk Hin. apply H; [done|].
    unfold dict_keys. rewrite map_app. apply elem_of_app. by left. }
  destruct (String.eqb_spec k0 "_id"); [done|].
  rewrite dict_get_set.
  destruct (String.eqb_spec field (prefixed right_collection k0)) as [->|];
    [|done].
  exfalso. apply (H k0); [done| |done].
  unfold dict_keys. rewrite map_app. apply elem_of_app. right. left.
Qed.

Lemma enrich_snoc (right_collection : string) (matches : list dict)
    (r doc : dict) :
  enrich right_collection (matches ++ [r]) doc =
  merge_right right_collection r (enrich right_collection matches doc).
Proof. unfold enrich. by rewrite fold_left_app. Qed.

(** Later matches overwrite earlier ones. *)
Lemma enrich_last_wins (right_collection : string)
    (earlier later : list dict) (r doc : dict) (k : string) (v : pyval) :
  NoDup (dict_keys r) -> k ≠ "_id" -> dict_get k r = Some v ->
  Forall (fun r' => dict_get k r' = None) later ->
  dict_get (prefixed right_collection k)
           (enrich right_collection (earlier ++ r :: later) doc) = Some v.
Proof.
  intros Hnd Hk Hget.
  induction later as [|r' later IH] using rev_ind; intros Hlater.
  - rewrite enrich_snoc. by apply merge_right_field.
  - apply Forall_app in Hlater as [Hlater Hr'].
    apply Forall_cons in Hr' as [Hr' _].
    rewrite app_comm_cons, app_assoc, enrich_snoc.
    rewrite merge_right_other; [by apply IH|].
    intros k' Hk' Hin Heq. apply prefixed_inj in Heq as ->.
    by apply dict_get_None_keys in Hr'.
Qed.

(** Fields that no match renames a field to are left alone; among them
    the prefixed identity field. *)
Lemma enrich_other (right_collection : string) (matches : list dict)
    (doc : dict) (field : string) :
  (∀ r k, r ∈ matches -> k ≠ "_id" -> k ∈ dict_keys r ->
          prefixed right_collection k ≠ field) ->
  dict_get field (enrich right_collection matches doc) = dict_get field doc.
Proof.
  induction matches as [|r matches IH] using rev_ind; [done|].
  intros H. rewrite enrich_snoc, merge_right_other.
  - apply IH. intros r' k Hr'. apply H. apply elem_of_app. by left.
  - intros k. apply H. apply elem_of_app. right. left.
Qed.

Lemma matching_holds (right : list dict) (foreign_field : string)
    (key : pyval) (r : dict) :
  r ∈ matching right foreign_field key ->
  r ∈ right ∧ field_value foreign_field r ≠ VNone ∧
  py_eq (field_value foreign_field r) key = true.
Proof.
  unfold matching. rewrite list_elem_of_In, filter_In, <- list_elem_of_In.
  unfold holds_key. intros [Hin Hk]. split; [done|].
  by destruct (field_value foreign_field r).
Qed.

Lemma matching_sublist (right : list dict) (foreign_field : string)
    (key : pyval) :
  matching right foreign_field key `sublist_of` right.
Proof.
  unfold matching. induction right as [|r right IH]; cbn; [done|].
  destruct (holds_key foreign_field key r); by constructor.
Qed.

(** ** The scalar branch *)

Lemma outcome_scalar (right : list dict)
    (local_field foreign_field right_collection : string) (doc : dict) :
  scalar_branch local_field doc = true ->
  outcome right local_field foreign_field right_collection doc =
  Some (enrich right_collection
          (matching right foreign_field (field_value local_field doc)) doc).
Proof.
  unfold scalar_branch, outcome.
  destruct (split_field local_field) as [pre_field query_field]. cbn [fst].
  by destruct (field_value pre_field doc).
Qed.

Lemma omap_scalar (right : list dict)
    (local_field foreign_field right_collection : string) (left : list dict) :
  forallb (scalar_branch local_field) left = true ->
  omap (outcome right local_field foreign_field right_collection) left =
  map (fun l => enrich right_collection
                  (matching right foreign_field (field_value local_field l)) l)
      left.
Proof.
  induction left as [|l left IH]; [done|]. cbn [forallb]. intros H.
  apply andb_prop in H as [Hl H].
  rewrite omap_cons, outcome_scalar by done. cbn [map]. by rewrite IH.
Qed.

(** C5, as the join has it.  Take a join in which no key is unhashable:
    every right document has a hashable foreign-field value, and on every
    left document the values looked up are hashable (its local-field
    value in the scalar branch, the leaf values of the mappings in its
    array otherwise).  Then the output lists the outcomes of the left
    documents in left-sequence order; a left document of the scalar
    branch is always retained, as itself enriched with the right documents
    whose foreign field equals the value under its full dotted local
    field -- unchanged when there is none; each of their fields but the
    identity field lands under its prefixed name, a later match
    overwriting an earlier one, and no other field changes.  With two
    matches named A and B the output document has right_name B. *)
Theorem join_scalar_branch (left right : list dict)
    (local_field foreign_field right_collection : string) :
  indexable foreign_field right = true ->
  forallb (safe local_field) left = true ->
  let matches l :=
    matching right foreign_field (field_value local_field l) in
  let enriched l := enrich right_collection (matches l) l in
  (join left right local_field foreign_field right_collection).1 =
    Ok (omap (outcome right local_field foreign_field right_collection) left)
  ∧ (∀ l, scalar_branch local_field l = true ->
          outcome right local_field foreign_field right_collection l =
          Some (enriched l))
  ∧ (forallb (scalar_branch local_field) left = true ->
     (join left right local_field foreign_field right_collection).1 =
     Ok (map enriched left))
  ∧ (∀ l r, r ∈ matches l ↔
            r ∈ right ∧ holds_key foreign_field (field_value local_field l) r
                        = true)
  ∧ (∀ l, matches l = [] -> enriched l = l)
  ∧ (∀ l earlier r later k v,
       matches l = earlier ++ r :: later ->
       NoDup (dict_keys r) -> k ≠ "_id" -> dict_get k r = Some v ->
       Forall (fun r' => dict_get k r' = None) later ->
       dict_get (prefixed right_collection k) (enriched l) = Some v)
  ∧ (∀ l field,
       (∀ r k, r ∈ matches l -> k ≠ "_id" -> k ∈ dict_keys r ->
               prefixed right_collection k ≠ field) ->
       dict_get field (enriched l) = dict_get field l)
  ∧ (∀ l, dict_get (prefixed right_collection "_id") (enriched l) =
          dict_get (prefixed right_collection "_id") l)
  ∧ (join [[("id", VInt 2); ("uid", VInt 7)]]
          [[("uid", VInt 7); ("name", VStr "A")];
           [("uid", VInt 7); ("name", VStr "B")]]
          "uid" "uid" "right").1 =
    Ok [[("id", VInt 2); ("uid", VInt 7);
         ("right_uid", VInt 7); ("right_name", VStr "B")]].
Proof.
  intros Hidx Hreg matches enriched.
  pose proof (join_safe left right local_field foreign_field
                right_collection Hidx Hreg) as Hjoin.
  repeat apply conj.
  - done.
  - intros l Hl. by apply outcome_scalar.
  - intros Hs. rewrite Hjoin. f_equal. by apply omap_scalar.
  - intros l r. subst matches. cbn beta. unfold matching.
    by rewrite list_elem_of_In, filter_In, <- list_elem_of_In.
  - intros l Hl. subst enriched. cbn beta. by rewrite Hl.
  - intros l earlier r later k v Hm Hnd Hk Hget Hlater.
    subst enriched. cbn beta. rewrite Hm. by apply enrich_last_wins.
  - intros l field H. by apply enrich_other.
  - intros l. apply enrich_other. intros r k _ Hk _ Heq.
    by apply prefixed_inj in Heq.
  - vm_compute. reflexivity.
Qed.

Lemma join_scalar_branch_witness :
  (join [[("id", VInt 2); ("uid", VInt 7)]; [("id", VInt 3); ("uid", VInt 8)]]
        [[("_id", VInt 1); ("uid", VInt 7); ("name", VStr "A")];
         [("_id", VInt 2); ("uid", VInt 7); ("name", VStr "B")]]
        "uid" "uid" "right").1 =
  Ok (omap (outcome [[("_id", VInt 1); ("uid", VInt 7); ("name", VStr "A")];
                     [("_id", VInt 2); ("uid", VInt 7); ("name", VStr "B")]]
                    "uid" "uid" "right")
           [[("id", VInt 2); ("uid", VInt 7)];
            [("id", VInt 3); ("uid", VInt 8)]]).
Proof.
  refine (proj1 (join_scalar_branch
                   [[("id", VInt 2); ("uid", VInt 7)];
                    [("id", VInt 3); ("uid", VInt 8)]]
                   [[("_id", VInt 1); ("uid", VInt 7); ("name", VStr "A")];
                    [("_id", VInt 2); ("uid", VInt 7); ("name", VStr "B")]]
                   "uid" "uid" "right" _ _)); vm_compute; reflexivity.
Defined.

(** C5, as the claim states it, fails where a key is unhashable: a left
    document of the scalar branch whose local field holds an array ends
    the join with a type error, and no left document is retained, not
    even the one before it, which has a match. *)
Lemma join_scalar_claim_counterexample :
  forallb (scalar_branch "uid")
          [[("id", VInt 2); ("uid", VInt 7)];
           [("id", VInt 3); ("uid", VList [VInt 7; VInt 8])]] = true
  ∧ (join [[("id", VInt 2); ("uid", VInt 7)];
           [("id", VInt 3); ("uid", VList [VInt 7; VInt 8])]]
          [[("uid", VInt 7); ("name", VStr "A")]]
          "uid" "uid" "right").1 =
    Raise (Exn TypeError "unhashable type: 'list'")
  ∧ ¬ ∃ docs,
        (join [[("id", VInt 2); ("uid", VInt 7)];
               [("id", VInt 3); ("uid", VList [VInt 7; VInt 8])]]
              [[("uid", VInt 7); ("name", VStr "A")]]
              "uid" "uid" "right").1 = Ok docs.
Proof.
  assert (Hjoin : (join [[("id", VInt 2); ("uid", VInt 7)];
                         [("id", VInt 3); ("uid", VList [VInt 7; VInt 8])]]
                        [[("uid", VInt 7); ("name", VStr "A")]]
                        "uid" "uid" "right").1 =
                  Raise (Exn TypeError "unhashable type: 'list'"))
    by (vm_compute; reflexivity).
  split; [reflexivity|]. split; [exact Hjoin|].
  intros [docs Hdocs]. rewrite Hjoin in Hdocs. discriminate.
Qed.

(** ** The nested-array branch *)

Lemma regular_safe (right : list dict) (local_field foreign_field : string)
    (doc : dict) :
  regular right local_field foreign_field doc = true ->
  safe local_field doc = true.
Proof.
  unfold regular, safe.
  destruct (split_field local_field) as [pre_field query_field].
  destruct (field_value pre_field doc) as [| | | |items| |]; try done.
  intros H. apply andb_prop in H as [H _].
  rewrite forallb_forall in H |- *. intros it Hit. specialize (H it Hit).
  destruct it; try done. cbn in H |- *. by apply andb_prop in H as [H _].
Qed.

Lemma outcome_nested (right : list dict)
    (local_field foreign_field right_collection : string) (doc : dict)
    (items : list pyval) :
  regular right local_field foreign_field doc = true ->
  field_value (split_field local_field).1 doc = VList items ->
  outcome right local_field foreign_field right_collection doc =
  match rebuilt right foreign_field right_collection
                (split_field local_field).2 items with
  | [] => None
  | copied => Some (dict_set (split_field local_field).1 (VList copied) doc)
  end.
Proof.
  unfold outcome, regular.
  destruct (split_field local_field) as [pre_field query_field]. cbn [fst snd].
  intros Hreg Hl. rewrite Hl in Hreg |- *.
  apply andb_prop in Hreg as [Hplain Hlost].
  by rewrite scanned_regular.
Qed.

Lemma dict_keys_set (k : string) (v : pyval) (d : dict) :
  dict_keys (dict_set k v d) =
  if dict_mem k d then dict_keys d else dict_keys d ++ [k].
Proof.
  unfold dict_mem, dict_keys. induction d as [|[k0 v0] d IH]; cbn; [done|].
  destruct (String.eqb_spec k k0) as [->|Hne]; cbn; [done|].
  rewrite IH. by destruct (dict_get k d).
Qed.

Lemma dict_set_NoDup (k : string) (v : pyval) (d : dict) :
  NoDup (dict_keys d) -> NoDup (dict_keys (dict_set k v d)).
Proof.
  intros Hnd. rewrite dict_keys_set. unfold dict_mem.
  destruct (dict_get k d) eqn:Hk; [done|].
  apply NoDup_app. split; [done|]. split; [|apply NoDup_singleton].
  intros k' Hin Hk'. apply list_elem_of_singleton in Hk' as ->.
  by apply dict_get_None_keys in Hk.
Qed.

Lemma merge_right_NoDup (right_collection : string) (r target : dict) :
  NoDup (dict_keys target) ->
  NoDup (dict_keys (merge_right right_collection r target)).
Proof.
  induction r as [|[k0 v0] r IH] using rev_ind; [done|].
  intros Hnd. rewrite merge_right_snoc.
  destruct (String.eqb k0 "_id"); [by apply IH|].
  by apply dict_set_NoDup, IH.
Qed.

Lemma dict_merge_get (field : string) (item extra : dict) :
  NoDup (dict_keys extra) ->
  dict_get field (dict_merge item extra) =
  match dict_get field extra with
  | Some v => Some v
  | None => dict_get field item
  end.
Proof.
  unfold dict_merge.
  induction extra as [|[k0 v0] extra IH] using rev_ind; [done|].
  intros Hnd. unfold dict_keys in Hnd. rewrite map_app in Hnd.
  apply NoDup_app in Hnd as (Hnd & Hdisj & _).
  rewrite fold_left_app, dict_get_app. cbn. rewrite dict_get_set.
  destruct (String.eqb_spec field k0) as [->|Hne].
  - assert (dict_get k0 extra = None) as ->; [|done].
    apply dict_get_None_keys. intros Hin. apply (Hdisj k0); [done|left].
  - rewrite IH by done. by destruct (dict_get field extra).
Qed.

(** A merged copy holds the right document's fields, the identity field
    apart, under their prefixed names, and the element's other fields. *)
Lemma merged_copy_fields (right_collection : string) (item r : dict) :
  NoDup (dict_keys r) ->
  (∀ k v, k ≠ "_id" -> dict_get k r = Some v ->
     dict_get (prefixed right_collection k)
              (merged_copy right_collection item r) = Some v) ∧
  (∀ field,
     (∀ k, k ≠ "_id" -> k ∈ dict_keys r ->
           prefixed right_collection k ≠ field) ->
     dict_get field (merged_copy right_collection item r) =
     dict_get field item).
Proof.
  intros Hnd. unfold merged_copy. split.
  - intros k v Hk Hget.
    rewrite dict_merge_get by (apply merge_right_NoDup; constructor).
    by rewrite (merge_right_field right_collection r [] k v).
  - intros field H.
    rewrite dict_merge_get by (apply merge_right_NoDup; constructor).
    by rewrite merge_right_other.
Qed.

(** C4, as the join has it.  Take a join in which every right document
    has a hashable foreign-field value and every left document is regular:
    when its parentPath holds an array, every element is a mapping with a
    hashable leaf value, matched by at most one right document or by right
    documents that lend the same fields in the same order, and no element
    with a match is among those the loop passes over, which are the
    elements that follow an element without a match it visits; otherwise
    its local-field value is hashable.  Then the output lists the outcomes of
    the left documents in order; a left document whose parentPath holds an
    array appears exactly when the rebuilt array is not empty, with
    parentPath replaced by it; the rebuilt array drops every element
    without a match and holds, for a matching element, one merged copy
    for each matching right document: the fields of that right document,
    the identity field apart and the foreign field included, under their
    prefixed names.  On the example the refs of the output are
    [{k:5, right_k:5, right_v:"x"}], and an element with two matches of
    the same fields gives two copies. *)
Theorem join_nested_branch (left right : list dict)
    (local_field foreign_field right_collection : string) :
  indexable foreign_field right = true ->
  forallb (regular right local_field foreign_field) left = true ->
  let pre_field := (split_field local_field).1 in
  let query_field := (split_field local_field).2 in
  let rebuild := rebuilt right foreign_field right_collection query_field in
  (join left right local_field foreign_field right_collection).1 =
    Ok (omap (outcome right local_field foreign_field right_collection) left)
  ∧ (∀ l items, l ∈ left -> field_value pre_field l = VList items ->
       outcome right local_field foreign_field right_collection l =
       match rebuild items with
       | [] => None
       | copied => Some (dict_set pre_field (VList copied) l)
       end)
  ∧ (∀ item items,
       matching right foreign_field (field_value query_field item) = [] ->
       rebuild (VDict item :: items) = rebuild items)
  ∧ (∀ item items,
       rebuild (VDict item :: items) =
       map (fun r => VDict (merged_copy right_collection item r))
           (matching right foreign_field (field_value query_field item))
       ++ rebuild items)
  ∧ (∀ item r, NoDup (dict_keys r) ->
       (∀ k v, k ≠ "_id" -> dict_get k r = Some v ->
          dict_get (prefixed right_collection k)
                   (merged_copy right_collection item r) = Some v) ∧
       (∀ field,
          (∀ k, k ≠ "_id" -> k ∈ dict_keys r ->
                prefixed right_collection k ≠ field) ->
          dict_get field (merged_copy right_collection item r) =
          dict_get field item))
  ∧ (join [[("id", VInt 1);
            ("refs", VList [VDict [("k", VInt 5)]; VDict [("k", VInt 6)]])]]
          [[("k", VInt 5); ("v", VStr "x")]]
          "refs.k" "k" "right").1 =
    Ok [[("id", VInt 1);
         ("refs", VList [VDict [("k", VInt 5); ("right_k", VInt 5);
                                ("right_v", VStr "x")]])]]
  ∧ (join [[("id", VInt 1); ("refs", VList [VDict [("k", VInt 5)]])]]
          [[("_id", VInt 8); ("k", VInt 5); ("v", VStr "x")];
           [("_id", VInt 9); ("k", VInt 5); ("v", VStr "y")]]
          "refs.k" "k" "right").1 =
    Ok [[("id", VInt 1);
         ("refs", VList [VDict [("k", VInt 5); ("right_k", VInt 5);
                                ("right_v", VStr "x")];
                         VDict [("k", VInt 5); ("right_k", VInt 5);
                                ("right_v", VStr "y")]])]].
Proof.
  intros Hidx Hreg pre_field query_field rebuild.
  repeat apply conj.
  - apply join_safe; [done|]. apply forallb_forall. intros l Hl.
    rewrite forallb_forall in Hreg. by eapply regular_safe, Hreg.
  - intros l items Hin Hl. apply outcome_nested; [|done].
    rewrite forallb_forall in Hreg. by apply Hreg, list_elem_of_In.
  - intros item items Hm. subst rebuild. unfold rebuilt. cbn [flat_map].
    by rewrite Hm.
  - done.
  - intros item r Hnd. by apply merged_copy_fields.
  - vm_compute. reflexivity.
  - vm_compute. reflexivity.
Qed.

Lemma join_nested_branch_witness :
  (join [[("id", VInt 1);
          ("refs", VList [VDict [("k", VInt 5)]; VDict [("k", VInt 6)]])];
         [("id", VInt 2); ("refs", VList [VDict [("k", VInt 7)]])]]
        [[("_id", VInt 8); ("k", VInt 5); ("v", VStr "x")];
         [("_id", VInt 9); ("k", VInt 5); ("v", VStr "y")]]
        "refs.k" "k" "right").1 =
  Ok (omap (outcome [[("_id", VInt 8); ("k", VInt 5); ("v", VStr "x")];
                     [("_id", VInt 9); ("k", VInt 5); ("v", VStr "y")]]
                    "refs.k" "k" "right")
           [[("id", VInt 1);
             ("refs", VList [VDict [("k", VInt 5)]; VDict [("k", VInt 6)]])];
            [("id", VInt 2); ("refs", VList [VDict [("k", VInt 7)]])]]).
Proof.
  refine (proj1 (join_nested_branch
                   [[("id", VInt 1);
                     ("refs", VList [VDict [("k", VInt 5)];
                                     VDict [("k", VInt 6)]])];
                    [("id", VInt 2); ("refs", VList [VDict [("k", VInt 7)]])]]
                   [[("_id", VInt 8); ("k", VInt 5); ("v", VStr "x")];
                    [("_id", VInt 9); ("k", VInt 5); ("v", VStr "y")]]
                   "refs.k" "k" "right" _ _)); vm_compute; reflexivity.
Defined.

(** C4, as the claim states it, fails five times.  On its own example
    the foreign field of the right document is copied too, so the refs of
    the output are not [{k:5, right_v:"x"}].  Removing from the array
    while iterating over it passes over the element after one without a
    match: the matching element of [{k:6},{k:5}] is lost and the document
    dropped.  The loop variable is rebound, so the copy for a second match
    also carries the fields of the first.  A right document with an array
    as foreign-field value ends the join with a type error, whatever the
    arrays of the left documents, and so does an array element whose leaf
    value is a mapping. *)
Lemma join_nested_example_counterexample :
  (∃ doc,
     (join [[("id", VInt 1);
             ("refs", VList [VDict [("k", VInt 5)]; VDict [("k", VInt 6)]])]]
           [[("k", VInt 5); ("v", VStr "x")]]
           "refs.k" "k" "right").1 = Ok [doc] ∧
     field_value "refs" doc =
       VList [VDict [("k", VInt 5); ("right_k", VInt 5);
                     ("right_v", VStr "x")]] ∧
     py_eq (field_value "refs" doc)
           (VList [VDict [("k", VInt 5); ("right_v", VStr "x")]]) = false)
  ∧ (join [[("id", VInt 1);
            ("refs", VList [VDict [("k", VInt 6)]; VDict [("k", VInt 5)]])]]
          [[("k", VInt 5); ("v", VStr "x")]]
          "refs.k" "k" "right").1 = Ok []
  ∧ (join [[("id", VInt 1); ("refs", VList [VDict [("k", VInt 5)]])]]
          [[("k", VInt 5); ("a", VStr "x")]; [("k", VInt 5); ("b", VStr "y")]]
          "refs.k" "k" "right").1 =
    Ok [[("id", VInt 1);
         ("refs",
          VList [VDict [("k", VInt 5); ("right_k", VInt 5);
                        ("right_a", VStr "x")];
                 VDict [("k", VInt 5); ("right_k", VInt 5);
                        ("right_a", VStr "x"); ("right_b", VStr "y")]])]]
  ∧ (join [[("id", VInt 1); ("refs", VList [VDict [("k", VInt 5)]])]]
          [[("k", VInt 5); ("v", VStr "x")]; [("k", VList [VInt 5])]]
          "refs.k" "k" "right").1 =
    Raise (Exn TypeError "unhashable type: 'list'")
  ∧ (join [[("id", VInt 1);
            ("refs", VList [VDict [("k", VInt 5)];
                            VDict [("k", VDict [("n", VInt 5)])]])]]
          [[("k", VInt 5); ("v", VStr "x")]]
          "refs.k" "k" "right").1 =
    Raise (Exn TypeError "unhashable type: 'dict'").
Proof.
  repeat apply conj; try (vm_compute; reflexivity).
  eexists. split; [vm_compute; reflexivity|]. split; reflexivity.
Qed.

(** ** The right documents *)

(** C9: whatever the inputs, and whether the join ends with documents or
    with an exception, every right document stands in the final store as
    it was fetched; and the index, built from an empty one at each call,
    holds under every key the right documents that have the foreign field
    with that value, in right-sequence order, and none that lacks it. *)
Theorem join_leaves_right_documents (left right : list dict)
    (local_field foreign_field right_collection : string) :
  (∀ j r, right !! j = Some r ->
     (join left right local_field foreign_field right_collection).2
       !! (length left + j)%nat = Some r)
  ∧ (indexable foreign_field right = true ->
     ∃ index,
       build_index (fetched left right) foreign_field
                   (seq (length left) (length right)) [] = Ok index ∧
       ∀ key, hashable key = true ->
         map (deref (fetched left right)) (default [] (index_get key index)) =
         matching right foreign_field key)
  ∧ (∀ key r, r ∈ matching right foreign_field key ->
       r ∈ right ∧ field_value foreign_field r ≠ VNone ∧
       py_eq (field_value foreign_field r) key = true)
  ∧ (∀ key, matching right foreign_field key `sublist_of` right).
Proof.
  repeat apply conj.
  - intros j r Hr.
    assert (Hframe : (join_documents (fetched left right)
                        (seq 0 (length left))
                        (seq (length left) (length right))
                        local_field foreign_field right_collection).2
                     !! (length left + j)%nat =
                     fetched left right !! (length left + j)%nat).
    { unfold join_documents.
      destruct (build_index _ _ _ _) as [index|e]; [|done].
      apply join_loop_frame. intros Hin. apply elem_of_seq in Hin. lia. }
    unfold join.
    destruct (join_documents _ _ _ _ _ _) as [results σ']. cbn [snd] in *.
    rewrite Hframe. by apply fetched_right.
  - intros Hidx.
    destruct (build_index_fetched (fetched left right) (length left) right
                foreign_field) as (index & Hb & _ & Hget);
      [apply fetched_right|done|].
    exists index. split; [done|]. intros key Hkey. apply Hget; [done|].
    apply fetched_right.
  - intros key r. apply matching_holds.
  - intros key. apply matching_sublist.
Qed.

(* ================================================================== *)
(** * Further properties of the tools                                  *)
(* ================================================================== *)

(** ** The entries of an analysis *)

Lemma for_each_raise {A B : Type} (f : A -> result B) (before after : list A)
    (done_before : list B) (x : A) (e : exn) :
  for_each f before = Ok done_before -> f x = Raise e ->
  for_each f (before ++ x :: after) = Raise e.
Proof.
  revert done_before. induction before as [|y before IH]; cbn;
    intros done_before Hb Hx.
  - by rewrite Hx.
  - apply bind_Ok in Hb as (z & Hz & Hb).
    apply bind_Ok in Hb as (zs & Hzs & _).
    rewrite Hz. cbn. by rewrite (IH _ Hzs Hx).
Qed.

(** X1: the analysis of a query without pipeline has one entry; that of a
    pipeline has one entry for each stage of the explain output, in the
    order of the stages, each computed from its stage alone. *)
Theorem analysis_one_entry_per_stage (output : dict) (projection : pyval)
    (a : Analysis) :
  analyze_explain_metrics (VDict output) projection = Ok a ->
  match dict_get "stages" output with
  | None => length (stagesAnalysis a) = 1%nat
  | Some stages =>
      ∃ entries,
        py_iter stages = Ok entries ∧
        length (stagesAnalysis a) = length entries ∧
        ∀ i entry m, entries !! i = Some entry ->
                     stagesAnalysis a !! i = Some m ->
                     staged_metrics projection entry = Ok m
  end.
Proof.
  unfold analyze_explain_metrics. cbn [py_contains mbind result_bind].
  unfold dict_mem. cbn [py_getitem].
  destruct (dict_get "stages" output) as [stages|]; cbn [negb]; intros H.
  - apply bind_Ok in H as (s & Hs & H). injection Hs as <-.
    apply bind_Ok in H as (entries & He & H).
    apply bind_Ok in H as (results & Hr & H). injection H as <-.
    cbn [stagesAnalysis]. apply for_each_Forall2 in Hr.
    exists entries. split; [done|]. split.
    + symmetry. by eapply Forall2_length.
    + intros i entry m Hi Hm.
      by eapply (Forall2_lookup_lr _ _ _ _ _ _ Hr Hi Hm).
  - apply bind_Ok in H as ([wp st] & _ & H).
    apply bind_Ok in H as (m & _ & H). by injection H as <-.
Qed.

Lemma analysis_one_entry_per_stage_witness :
  ∃ entries,
    py_iter (VList [VDict [("$cursor", VDict [])];
                    VDict [("$sort", VDict [])]]) = Ok entries ∧
    length [ {| stage := VStr "CURSOR";
                healthMetrics :=
                  {| nReturned := VInt 0; totalDocsExamined := VInt 0;
                     totalKeysExamined := VInt 0;
                     amplificationRatio := Infinity; keyDocRatio := Infinity;
                     triggersSort := false; covered := false |} |};
             {| stage := VStr "SORT";
                healthMetrics :=
                  {| nReturned := VInt 0; totalDocsExamined := VInt 0;
                     totalKeysExamined := VInt 0;
                     amplificationRatio := Infinity; keyDocRatio := Infinity;
                     triggersSort := false; covered := false |} |} ]
    = length entries ∧
    ∀ i entry m, entries !! i = Some entry ->
      [ {| stage := VStr "CURSOR";
           healthMetrics :=
             {| nReturned := VInt 0; totalDocsExamined := VInt 0;
                totalKeysExamined := VInt 0;
                amplificationRatio := Infinity; keyDocRatio := Infinity;
                triggersSort := false; covered := false |} |};
        {| stage := VStr "SORT";
           healthMetrics :=
             {| nReturned := VInt 0; totalDocsExamined := VInt 0;
                totalKeysExamined := VInt 0;
                amplificationRatio := Infinity; keyDocRatio := Infinity;
                triggersSort := false; covered := false |} |} ] !! i = Some m ->
      staged_metrics VNone entry = Ok m.
Proof.
  apply (analysis_one_entry_per_stage
           [("stages", VList [VDict [("$cursor", VDict [])];
                              VDict [("$sort", VDict [])]])]
           VNone
           {| stagesAnalysis := _ |}).
  vm_compute. reflexivity.
Defined.

(** ** Stage labels *)

Lemma list_ascii_rev_app (s t : string) :
  list_ascii_of_string (String.rev_app s t) =
  reverse (list_ascii_of_string s) ++ list_ascii_of_string t.
Proof.
  revert t. induction s as [|c s IH]; intros t;
    cbn [String.rev_app list_ascii_of_string]; [done|].
  rewrite IH, reverse_cons. cbn [list_ascii_of_string].
  by rewrite <- app_assoc.
Qed.

Lemma list_ascii_rev (s : string) :
  list_ascii_of_string (String.rev s) = reverse (list_ascii_of_string s).
Proof.
  unfold String.rev. rewrite list_ascii_rev_app. cbn. by rewrite app_nil_r.
Qed.

Lemma lstrip_dollar_head (s : string) :
  head (list_ascii_of_string (lstrip_dollar s)) ≠ Some "$"%char.
Proof.
  induction s as [|c s IH]; [done|].
  destruct (Ascii.eqb_spec c "$") as [->|Hc]; [done|].
  assert (lstrip_dollar (String c s) = String c s) as ->.
  { destruct c as [[] [] [] [] [] [] [] []];
      first [reflexivity | by destruct Hc]. }
  cbn. congruence.
Qed.

Lemma lstrip_dollar_suffix (s : string) :
  ∃ dollars, list_ascii_of_string s =
             dollars ++ list_ascii_of_string (lstrip_dollar s).
Proof.
  induction s as [|c s [dollars IH]]; [by exists []|].
  destruct (Ascii.eqb_spec c "$") as [->|Hc].
  - exists ("$"%char :: dollars). cbn. by rewrite IH.
  - exists []. destruct c as [[] [] [] [] [] [] [] []];
      first [reflexivity | by destruct Hc].
Qed.

Lemma strip_dollar_ends (s : string) :
  head (list_ascii_of_string (strip_dollar s)) ≠ Some "$"%char ∧
  last (list_ascii_of_string (strip_dollar s)) ≠ Some "$"%char.
Proof.
  unfold strip_dollar. rewrite list_ascii_rev.
  set (u := lstrip_dollar s).
  destruct (lstrip_dollar_suffix (String.rev u)) as [dollars Hd].
  rewrite list_ascii_rev in Hd.
  set (v := list_ascii_of_string (lstrip_dollar (String.rev u))) in *.
  split.
  - rewrite head_reverse. intros Hv.
    assert (Hl : last (reverse (list_ascii_of_string u)) = Some "$"%char).
    { rewrite Hd, last_app, Hv. done. }
    rewrite last_reverse in Hl. by apply (lstrip_dollar_head s).
  - rewrite last_reverse. apply lstrip_dollar_head.
Qed.

Lemma list_ascii_app (s t : string) :
  list_ascii_of_string (s +:+ t) =
  list_ascii_of_string s ++ list_ascii_of_string t.
Proof.
  induction s as [|c s IH]; [done|].
  change (String c s +:+ t) with (String c (s +:+ t)).
  cbn [list_ascii_of_string app]. by rewrite IH.
Qed.

Lemma upper_ascii_not_lower (c : ascii) : is_lower (upper_ascii c) = false.
Proof. destruct c as [[] [] [] [] [] [] [] []]; reflexivity. Qed.

Lemma upper_ascii_dollar (c : ascii) :
  upper_ascii c = "$"%char -> c = "$"%char.
Proof. destruct c as [[] [] [] [] [] [] [] []]; cbv; congruence. Qed.

Lemma upper_table_clean : forallb clean_image upper_table = true.
Proof. vm_compute. reflexivity. Qed.

Lemma upper_entry_clean (s source image : string) :
  upper_entry upper_table s = Some (source, image) ->
  image ≠ EmptyString ∧
  Forall (fun c => is_lower c = false ∧ c ≠ "$"%char)
         (list_ascii_of_string image).
Proof.
  pose proof upper_table_clean as Hclean. revert Hclean.
  generalize upper_table. intros table.
  induction table as [|[src img] table IH]; cbn [upper_entry forallb];
    [done|].
  intros Hc. apply andb_true_iff in Hc as [Hentry Htable].
  destruct (String.prefix src s); [|by apply IH].
  intros H. injection H as -> ->. unfold clean_image in Hentry.
  cbn [snd] in Hentry. apply andb_true_iff in Hentry as [Hne Hchars].
  split.
  - intros ->. discriminate.
  - apply Forall_forall. intros c Hc. rewrite forallb_forall in Hchars.
    apply list_elem_of_In, Hchars, andb_true_iff in Hc as [Hl Hd].
    split; [by destruct (is_lower c)|].
    intros ->. discriminate.
Qed.

Lemma upper_from_no_lowercase (s : string) :
  ∀ skip, Forall (fun c => is_lower c = false)
                 (list_ascii_of_string (upper_from skip s)).
Proof.
  induction s as [|c s IH]; intros skip; cbn [upper_from]; [constructor|].
  destruct skip as [|skip]; [|apply IH].
  destruct (upper_entry upper_table (String c s)) as [[source image]|] eqn:He.
  - rewrite list_ascii_app. apply Forall_app. split; [|apply IH].
    apply upper_entry_clean in He as [_ He].
    eapply Forall_impl; [exact He|]. by intros x [Hx _].
  - cbn. constructor; [apply upper_ascii_not_lower|apply IH].
Qed.

Lemma upper_from_head (s : string) :
  head (list_ascii_of_string (upper_from 0 s)) = Some "$"%char ->
  head (list_ascii_of_string s) = Some "$"%char.
Proof.
  destruct s as [|c s]; cbn [upper_from]; [done|].
  destruct (upper_entry upper_table (String c s)) as [[source image]|] eqn:He.
  - apply upper_entry_clean in He as [Hne He]. rewrite list_ascii_app.
    destruct image as [|x image]; [done|]. cbn. intros H. injection H as ->.
    apply Forall_cons in He as [[_ Hx] _]. done.
  - cbn. intros H. injection H as H. f_equal. by apply upper_ascii_dollar.
Qed.

Lemma upper_from_empty (s : string) :
  upper_from 0 s = EmptyString -> s = EmptyString.
Proof.
  destruct s as [|c s]; cbn [upper_from]; [done|].
  destruct (upper_entry upper_table (String c s)) as [[source image]|] eqn:He;
    [|discriminate].
  apply upper_entry_clean in He as [Hne _].
  destruct image; [done|discriminate].
Qed.

Lemma upper_from_last (s : string) :
  ∀ skip,
    last (list_ascii_of_string (upper_from skip s)) = Some "$"%char ->
    last (list_ascii_of_string s) = Some "$"%char.
Proof.
  induction s as [|c s IH]; intros skip; cbn [upper_from]; [done|].
  cbn [list_ascii_of_string]. rewrite last_cons.
  destruct skip as [|skip].
  - destruct (upper_entry upper_table (String c s))
      as [[source image]|] eqn:He.
    + apply upper_entry_clean in He as [_ He].
      rewrite list_ascii_app, last_app.
      destruct (last (list_ascii_of_string
                        (upper_from (String.length source - 1) s)))
        as [y|] eqn:Hy.
      * intros H. injection H as ->. by rewrite (IH _ Hy).
      * intros H. apply last_Some in H as [l' Hl']. rewrite Hl' in He.
        apply Forall_app in He as [_ He].
        apply Forall_cons in He as [[_ Hx] _]. done.
    + cbn [list_ascii_of_string]. rewrite last_cons.
      destruct (last (list_ascii_of_string (upper_from 0 s))) as [y|] eqn:Hy.
      * intros H. injection H as ->. by rewrite (IH _ Hy).
      * intros H. injection H as H. apply upper_ascii_dollar in H as ->.
        destruct (list_ascii_of_string (upper_from 0 s)) as [|x l] eqn:Hl.
        -- assert (Hs : upper_from 0 s = EmptyString).
           { by destruct (upper_from 0 s). }
           by rewrite (upper_from_empty _ Hs).
        -- rewrite last_cons in Hy. by destruct (last l).
  - intros H. by rewrite (IH _ H).
Qed.

(** X2: the label of an entry is the [stage] of its winning plan.  For a
    plan without one it is [UNKNOWN] when the query has no pipeline, and
    for a pipeline stage the stage's own name without its dollar signs at
    both ends and in capitals, those of Unicode: no lowercase ASCII letter
    is left in it, and it neither starts nor ends with a dollar sign. *)
Theorem stage_label_of_plan :
  (∀ output projection a,
     analyze_explain_metrics (VDict output) projection = Ok a ->
     dict_get "stages" output = None ->
     ∃ plan stats m,
       plan_and_stats (VDict output) = Ok (VDict plan, stats) ∧
       stagesAnalysis a = [m] ∧
       stage m = default (VStr "UNKNOWN") (dict_get "stage" plan))
  ∧ (∀ projection name detail rest m,
       staged_metrics projection (VDict ((name, detail) :: rest)) = Ok m ->
       ∃ plan stats,
         plan_and_stats detail = Ok (VDict plan, stats) ∧
         stage m = default (VStr (upper (strip_dollar name)))
                           (dict_get "stage" plan))
  ∧ (∀ name,
       let label := list_ascii_of_string (upper (strip_dollar name)) in
       Forall (fun c => is_lower c = false) label ∧
       head label ≠ Some "$"%char ∧ last label ≠ Some "$"%char)
  ∧ upper (strip_dollar "$cursor") = "CURSOR"
  ∧ upper (strip_dollar "$$group$") = "GROUP"
  ∧ upper (strip_dollar "$straße") = "STRASSE"
  ∧ upper (strip_dollar "$ﬁltré") = "FILTRÉ".
Proof.
  assert (Hstage : ∀ wp st dflt projection m,
             stage_metrics wp st dflt projection = Ok m ->
             ∃ plan, wp = VDict plan ∧
                     stage m = default (VStr dflt) (dict_get "stage" plan)).
  { intros wp st dflt projection m H. unfold stage_metrics in H.
    apply bind_Ok in H as (label & Hl & H). bind_inv H. injection H as <-.
    destruct wp; try discriminate. cbn in Hl. injection Hl as <-. eauto. }
  repeat apply conj.
  - intros output projection a H Hnone. unfold analyze_explain_metrics in H.
    cbn [py_contains mbind result_bind] in H. unfold dict_mem in H.
    rewrite Hnone in H. cbn [negb] in H.
    apply bind_Ok in H as ([wp st] & Hp & H).
    apply bind_Ok in H as (m & Hm & H). injection H as <-.
    destruct (Hstage _ _ _ _ _ Hm) as (plan & -> & Hs).
    by exists plan, st, m.
  - intros projection name detail rest m H. unfold staged_metrics in H.
    cbn [py_items mbind result_bind] in H.
    apply bind_Ok in H as ([wp st] & Hp & H).
    destruct (Hstage _ _ _ _ _ H) as (plan & -> & Hs).
    by exists plan, st.
  - intros name label. subst label. unfold upper.
    destruct (strip_dollar_ends name) as [Hh Hl]. repeat apply conj.
    + apply upper_from_no_lowercase.
    + intros H. by apply Hh, upper_from_head.
    + intros H. by apply Hl, (upper_from_last _ 0%nat).
  - vm_compute. reflexivity.
  - vm_compute. reflexivity.
  - vm_compute. reflexivity.
  - vm_compute. reflexivity.
Qed.

(** ** The advisor and its analyser *)

Lemma analysis_without_projection (explain_output projection : pyval)
    (a : Analysis) :
  analyze_explain_metrics explain_output projection = Ok a ->
  truthy projection = false ->
  Forall (fun m => covered (healthMetrics m) = false) (stagesAnalysis a).
Proof.
  intros Ha Hp. apply Forall_forall. intros m Hm.
  destruct (analysis_entry _ _ _ _ Ha Hm) as (wp & st & dflt & Hs).
  apply stage_metrics_covered in Hs. unfold covered_by_index in Hs.
  rewrite Hp in Hs. by injection Hs.
Qed.

Lemma bundle_after_explain_Success (ctx : Ctx)
    (db_name collection_name : string) (explain_output projection : pyval)
    (b : DiagnosticBundle) :
  bundle_after_explain ctx db_name collection_name explain_output projection
  = Ok (Success b) ->
  explain b = explain_output ∧
  analyze_explain_metrics explain_output projection = Ok (analysis b).
Proof.
  unfold bundle_after_explain. intros H.
  apply bind_Ok in H as (a & Ha & H). bind_inv H. by injection H as <-.
Qed.

Lemma advised (ctx : Ctx) (db_name collection_name : string)
    (tool : result pyval) (explain_output projection : pyval) :
  tool = Ok explain_output ->
  try_except
    (tool ≫= fun explain_output =>
       bundle_after_explain ctx db_name collection_name explain_output
                            projection)
    error_response =
  match analyze_explain_metrics explain_output projection with
  | Ok a =>
      Ok (Success {| explain := explain_output; analysis := a;
                     indexes := default VNone
                       (match list_indexes ctx db_name collection_name with
                        | Ok v => Some v | Raise _ => None end);
                     indexes_stats := default VNone
                       (match index_stats ctx db_name collection_name with
                        | Ok v => Some v | Raise _ => None end);
                     collections_stats := default VNone
                       (match collection_stats ctx db_name collection_name with
                        | Ok v => Some v | Raise _ => None end) |})
  | Raise e => Ok (ErrorResponse (str e))
  end.
Proof.
  intros ->. cbn [mbind result_bind]. unfold bundle_after_explain.
  destruct (analyze_explain_metrics explain_output projection) as [a|e];
    [|done].
  cbn [mbind result_bind].
  unfold list_indexes, index_stats, collection_stats.
  destruct (coll_list_indexes ctx db_name collection_name) as [l|e];
    destruct (coll_aggregate ctx db_name collection_name _) as [s|e'];
    destruct (db_command ctx db_name _) as [c|e'']; reflexivity.
Qed.

Lemma explain_tools_answer (ctx : Ctx) (db_name collection_name : string)
    (query sort limit projection : pyval) :
  (∃ out, explain_find_query ctx db_name collection_name query sort limit
                             projection = Ok out) ∧
  (∃ out, explain_count_query ctx db_name collection_name query = Ok out) ∧
  (∃ out, explain_aggregate_query ctx db_name collection_name query = Ok out).
Proof.
  unfold explain_find_query, explain_count_query, explain_aggregate_query.
  cbv zeta. repeat split;
    match goal with
    | |- ∃ _, try_except ?body _ = _ => destruct body; cbn; eauto
    end.
Qed.

(** X3: none of the three advisors raises, and each answers an error exactly
    when the analyser raises on what its explain tool returned, with the
    analyser's message; otherwise it answers a bundle that holds that
    explain output and its analysis, whatever the listing of indexes, the
    index statistics and the collection statistics did. *)
Theorem advisor_fails_only_with_analyser (ctx : Ctx)
    (db_name collection_name : string)
    (query sort limit projection pipeline : pyval) :
  let verdict (explain_tool : result pyval) (projection : pyval)
              (r : result (response DiagnosticBundle)) : Prop :=
    ∃ explain_output,
      explain_tool = Ok explain_output ∧
      match analyze_explain_metrics explain_output projection with
      | Ok a => ∃ listed stats sizes,
          r = Ok (Success {| explain := explain_output; analysis := a;
                             indexes := listed; indexes_stats := stats;
                             collections_stats := sizes |})
      | Raise e => r = Ok (ErrorResponse (str e))
      end in
  verdict (explain_find_query ctx db_name collection_name query sort limit
                              projection)
          projection
          (optimize_find_query ctx db_name collection_name query sort limit
                               projection)
  ∧ verdict (explain_count_query ctx db_name collection_name query) VNone
            (optimize_count_query ctx db_name collection_name query)
  ∧ verdict (explain_aggregate_query ctx db_name collection_name pipeline)
            VNone
            (optimize_aggregate_query ctx db_name collection_name pipeline).
Proof.
  intros verdict.
  assert (Hv : ∀ tool projection out,
             tool = Ok out ->
             verdict tool projection
               (try_except
                  (tool ≫= fun explain_output =>
                     bundle_after_explain ctx db_name collection_name
                                          explain_output projection)
                  error_response)).
  { intros tool p out Htool. exists out. split; [done|].
    rewrite (advised _ _ _ _ _ _ Htool).
    destruct (analyze_explain_metrics out p); [|done]. by eexists _, _, _. }
  destruct (explain_tools_answer ctx db_name collection_name query sort limit
              projection) as ((o1 & H1) & (o2 & H2) & _).
  destruct (explain_tools_answer ctx db_name collection_name pipeline sort
              limit projection) as (_ & _ & (o3 & H3)).
  repeat apply conj.
  - by apply (Hv _ _ o1).
  - by apply (Hv _ _ o2).
  - by apply (Hv _ _ o3).
Qed.

(** X4: the count and aggregate advisors pass no projection to the analyser,
    and the find advisor may be given none or an empty one: no stage of
    the bundle they answer is then reported covered. *)
Theorem no_projection_no_covered_stage (ctx : Ctx)
    (db_name collection_name : string) (query sort limit pipeline : pyval) :
  let uncovered (b : DiagnosticBundle) : Prop :=
    Forall (fun m => covered (healthMetrics m) = false)
           (stagesAnalysis (analysis b)) in
  (∀ b, optimize_count_query ctx db_name collection_name query
        = Ok (Success b) -> uncovered b)
  ∧ (∀ b, optimize_aggregate_query ctx db_name collection_name pipeline
          = Ok (Success b) -> uncovered b)
  ∧ (∀ b projection, truthy projection = false ->
       optimize_find_query ctx db_name collection_name query sort limit
                           projection = Ok (Success b) -> uncovered b).
Proof.
  intros uncovered.
  assert (Hu : ∀ tool projection b,
             truthy projection = false ->
             try_except
               (tool ≫= fun explain_output =>
                  bundle_after_explain ctx db_name collection_name
                                       explain_output projection)
               error_response = Ok (Success b) -> uncovered b).
  { intros tool p b Hp H. destruct tool as [out|e]; [|discriminate].
    cbn [mbind result_bind] in H. unfold try_except in H.
    destruct (bundle_after_explain _ _ _ _ _) as [r|e] eqn:Hb;
      [|discriminate].
    injection H as ->. apply bundle_after_explain_Success in Hb as [_ Ha].
    by eapply analysis_without_projection. }
  repeat apply conj.
  - intros b. by apply Hu.
  - intros b. by apply Hu.
  - intros b p Hp. by apply Hu.
Qed.

(** X5: a pipeline explain with an empty stage mapping, after stages that
    analyse: taking the first item of the empty mapping ends the analysis
    with a [StopIteration], whose text is empty, and the aggregate advisor
    answers an error response with an empty message. *)
Theorem empty_stage_gives_empty_error (ctx : Ctx)
    (db_name collection_name : string) (pipeline : pyval) (output : dict)
    (before after : list pyval) (analysed : list StageMetrics) :
  explain_aggregate_query ctx db_name collection_name pipeline
  = Ok (VDict output) ->
  dict_get "stages" output = Some (VList (before ++ VDict [] :: after)) ->
  for_each (staged_metrics VNone) before = Ok analysed ->
  analyze_explain_metrics (VDict output) VNone
  = Raise (Exn StopIteration EmptyString) ∧
  optimize_aggregate_query ctx db_name collection_name pipeline
  = Ok (ErrorResponse EmptyString).
Proof.
  intros Hout Hstages Hbefore.
  assert (Ha : analyze_explain_metrics (VDict output) VNone
               = Raise (Exn StopIteration EmptyString)).
  { unfold analyze_explain_metrics. cbn [py_contains mbind result_bind].
    unfold dict_mem. cbn [py_getitem]. rewrite Hstages.
    cbn [negb mbind result_bind py_iter].
    by rewrite (for_each_raise (staged_metrics VNone) before after analysed
                  (VDict []) (Exn StopIteration EmptyString) Hbefore). }
  split; [done|]. unfold optimize_aggregate_query.
  rewrite (advised _ _ _ _ _ _ Hout). by rewrite Ha.
Qed.

Lemma empty_stage_gives_empty_error_witness :
  analyze_explain_metrics
    (VDict [("stages", VList [VDict [("$cursor", VDict [])]; VDict []])]) VNone
  = Raise (Exn StopIteration EmptyString) ∧
  optimize_aggregate_query empty_stage_server "db" "coll" (VList [])
  = Ok (ErrorResponse EmptyString).
Proof.
  eapply (empty_stage_gives_empty_error empty_stage_server "db" "coll"
            (VList [])
            [("stages", VList [VDict [("$cursor", VDict [])]; VDict []])]
            [VDict [("$cursor", VDict [])]] []);
    vm_compute; reflexivity.
Defined.

(** ** The command of [explain_find_query] *)

Lemma set_unless_none_spec (key : string) (v : pyval) (d : dict) :
  set_unless_none key v d = if is_none v then d else dict_set key v d.
Proof. by destruct v. Qed.

(** X6: the find command the tool explains holds the collection under [find]
    and then, in this order, each of filter, sort, limit and projection
    that was given, that is, is not [None]: a given value is sent even
    when it is falsy, as a limit of 0 or an empty sort.  The tool returns
    the driver's answer, or an error response with the driver's message. *)
Theorem explain_find_command (ctx : Ctx) (db_name collection_name : string)
    (query sort limit projection : pyval) :
  let given :=
    List.filter (fun kv => negb (is_none kv.2))
                [("filter", query); ("sort", sort); ("limit", limit);
                 ("projection", projection)] in
  explain_find_query ctx db_name collection_name query sort limit projection
  = Ok match db_command ctx db_name
               (VDict [("explain",
                        VDict (("find", VStr collection_name) :: given));
                       ("verbosity", VStr "executionStats")]) with
       | Ok explain_output => explain_output
       | Raise e => VErr (str e)
       end.
Proof.
  cbv zeta. unfold explain_find_query. cbv zeta.
  rewrite !set_unless_none_spec. cbn [List.filter snd].
  destruct (is_none query), (is_none sort), (is_none limit),
    (is_none projection); cbn [negb dict_set String.eqb Ascii.eqb Bool.eqb];
    cbn; by destruct (db_command ctx db_name _).
Qed.

(** ** Pages of [find_documents] *)

(** X7: with an empty filter the total is the collection's estimated count
    and the exact count is not asked; with any other filter it is the
    exact count.  Over a driver that pages a fixed list of results,
    [has_more] tells exactly whether results remain after the page. *)
Theorem find_documents_has_more (ctx : Ctx) (db_name collection_name : string)
    (query : dict) (all : list dict) (limit skip : Z) :
  pages ctx db_name collection_name query all ->
  0 <= skip -> 0 < limit ->
  ∃ r,
    find_documents ctx db_name collection_name query limit skip
    = Ok (Success r) ∧
    documents r = take (Z.to_nat limit) (drop (Z.to_nat skip) all) ∧
    total_count r = Z.of_nat (length all) ∧
    (has_more r = true ↔ skip + limit < Z.of_nat (length all)) ∧
    (has_more r = false ↔
     drop (Z.to_nat skip + Z.to_nat limit) all = []).
Proof.
  intros (Hfind & Hest & Hcount) Hskip Hlimit.
  unfold find_documents. rewrite (Hfind _ _ Hskip Hlimit).
  cbn [mbind result_bind].
  assert (Htotal :
            (if negb (truthy (VDict query))
             then coll_estimated_document_count ctx db_name collection_name
             else coll_count_documents ctx db_name collection_name query)
            = Ok (Z.of_nat (length all))).
  { destruct query as [|kv query]; cbn [truthy negb].
    - by apply Hest.
    - by apply Hcount. }
  rewrite Htotal. cbn [mbind result_bind try_except].
  eexists. split; [reflexivity|]. cbn [documents total_count has_more].
  assert (Hlen : skip + Z.of_nat (length (take (Z.to_nat limit)
                                            (drop (Z.to_nat skip) all)))
                 < Z.of_nat (length all)
                 ↔ skip + limit < Z.of_nat (length all)).
  { rewrite length_take, length_drop. lia. }
  repeat apply conj; try done.
  - rewrite Z.ltb_lt. apply Hlen.
  - intros H. by apply Z.ltb_lt, Hlen.
  - rewrite Z.ltb_ge, length_take, length_drop. intros H.
    apply drop_ge. lia.
  - intros H. apply Z.ltb_ge. rewrite length_take, length_drop.
    apply (f_equal length) in H. rewrite length_drop in H. cbn in H. lia.
Qed.

Lemma find_documents_has_more_witness :
  ∃ r,
    find_documents three_documents "db" "coll" [] 2 0 = Ok (Success r) ∧
    documents r =
      take (Z.to_nat 2)
           (drop (Z.to_nat 0)
                 [[("n", VInt 1)]; [("n", VInt 2)]; [("n", VInt 3)]]) ∧
    total_count r = Z.of_nat (length [[("n", VInt 1)]; [("n", VInt 2)];
                                      [("n", VInt 3)]]) ∧
    (has_more r = true ↔
     0 + 2 < Z.of_nat (length [[("n", VInt 1)]; [("n", VInt 2)];
                               [("n", VInt 3)]])) ∧
    (has_more r = false ↔
     drop (Z.to_nat 0 + Z.to_nat 2)
          [[("n", VInt 1)]; [("n", VInt 2)]; [("n", VInt 3)]] = []).
Proof.
  apply (find_documents_has_more three_documents "db" "coll" []
           [[("n", VInt 1)]; [("n", VInt 2)]; [("n", VInt 3)]] 2 0);
    [|lia|lia].
  repeat split; done.
Defined.

(** ** Failed fetches of the join *)

Lemma find_documents_answers (ctx : Ctx) (db_name collection_name : string)
    (query : dict) (limit skip : Z) :
  ∃ r, find_documents ctx db_name collection_name query limit skip = Ok r.
Proof.
  unfold find_documents.
  destruct (coll_find ctx db_name collection_name query skip limit)
    as [docs|e]; cbn; [|by eauto].
  destruct (if negb _ then _ else _) as [n|e]; cbn; eauto.
Qed.

(** X8: the join tool never raises.  A failed left fetch is reported as such,
    with the driver's message, whatever the right fetch did; a failed
    right fetch is reported when the left one succeeded; with both
    fetched, the answer is the joined documents with their number as
    total count, or the message of the exception that ended the join. *)
Theorem join_reports_failed_fetch (ctx : Ctx)
    (left_db right_db left_collection right_collection : string)
    (local_field foreign_field : string) (left_query right_query : dict)
    (limit skip : Z) :
  let tool :=
    query_on_different_collections ctx left_db right_db left_collection
      right_collection local_field foreign_field left_query right_query
      limit skip in
  let left_resp :=
    find_documents ctx left_db left_collection left_query limit skip in
  let right_resp :=
    find_documents ctx right_db right_collection right_query 100 0 in
  (∃ r, tool = Ok r)
  ∧ (∀ e, coll_find ctx left_db left_collection left_query skip limit
          = Raise e ->
          tool = Ok (JoinError ("left query failed: " +:+ str e)))
  ∧ (∀ error, left_resp = Ok (ErrorResponse error) ->
       tool = Ok (JoinError ("left query failed: " +:+ error)))
  ∧ (∀ l error, left_resp = Ok (Success l) ->
       right_resp = Ok (ErrorResponse error) ->
       tool = Ok (JoinError ("right query failed: " +:+ error)))
  ∧ (∀ l r, left_resp = Ok (Success l) -> right_resp = Ok (Success r) ->
       tool = Ok match (join (documents l) (documents r) local_field
                             foreign_field right_collection).1 with
                 | Ok docs => JoinDocuments docs (Z.of_nat (length docs))
                 | Raise e => JoinError (str e)
                 end).
Proof.
  intros tool left_resp right_resp.
  destruct (find_documents_answers ctx left_db left_collection left_query
              limit skip) as [l Hl].
  destruct (find_documents_answers ctx right_db right_collection right_query
              100 0) as [r Hr].
  assert (Htool : tool =
            Ok match l, r with
               | ErrorResponse error, _ =>
                   JoinError ("left query failed: " +:+ error)
               | _, ErrorResponse error =>
                   JoinError ("right query failed: " +:+ error)
               | Success l, Success r =>
                   match (join (documents l) (documents r) local_field
                               foreign_field right_collection).1 with
                   | Ok docs => JoinDocuments docs (Z.of_nat (length docs))
                   | Raise e => JoinError (str e)
                   end
               end).
  { subst tool. unfold query_on_different_collections. rewrite Hl, Hr.
    cbn [mbind result_bind].
    destruct l as [l|error], r as [r|error']; try done.
    by destruct (join _ _ _ _ _).1. }
  subst left_resp right_resp. rewrite Hl, Hr, Htool.
  repeat apply conj.
  - eauto.
  - intros e He. unfold find_documents in Hl. rewrite He in Hl. cbn in Hl.
    by injection Hl as <-.
  - intros error H. by injection H as ->.
  - intros l' error H H'. injection H as ->. by injection H' as ->.
  - intros l' r' H H'. injection H as ->. by injection H' as ->.
Qed.

(** ** What the join makes of the left documents *)

Lemma join_loop_sublist (index : right_index)
    (local_field right_collection : string) (left_docs : list nat) :
  ∀ (σ σ' : store) (results out : list nat),
    join_loop σ index local_field right_collection left_docs results
    = (Ok out, σ') ->
    ∃ kept, out = results ++ kept ∧ kept `sublist_of` left_docs.
Proof.
  induction left_docs as [|a left_docs IH]; intros σ σ' results out;
    cbn [join_loop].
  - intros H. injection H as <- _. exists []. by rewrite app_nil_r.
  - destruct (join_left σ index local_field right_collection a)
      as [[appended|e] σ1]; [|discriminate].
    intros H. apply IH in H as (kept & -> & Hsub). destruct appended.
    + exists (a :: kept). rewrite <- app_assoc. split; [done|].
      by apply sublist_skip.
    + exists kept. split; [done|]. by apply sublist_cons.
Qed.

Lemma deref_insert (σ : store) (a b : nat) (d : dict) :
  deref (<[a := d]> σ) b = if decide (a = b) then d else deref σ b.
Proof.
  unfold deref. destruct (decide (a = b)) as [->|Hne].
  - by rewrite lookup_insert_eq.
  - by rewrite lookup_insert_ne.
Qed.

Lemma merged_fields_other (σ : store) (right_collection : string)
    (bucket : list nat) (doc : dict) (field : string) :
  (∀ k, field ≠ prefixed right_collection k) ->
  dict_get field
    (fold_left (fun d r => merge_right right_collection (deref σ r) d)
               bucket doc)
  = dict_get field doc.
Proof.
  intros Hf. revert doc. induction bucket as [|r bucket IH]; intros doc;
    cbn [fold_left]; [done|].
  rewrite IH. apply merge_right_other. intros k _ _ Hk. by apply (Hf k).
Qed.

Lemma join_left_fields (σ : store) (index : right_index)
    (local_field right_collection : string) (a b : nat) (field : string) :
  field ≠ (split_field local_field).1 ->
  (∀ k, field ≠ prefixed right_collection k) ->
  dict_get field
    (deref (join_left σ index local_field right_collection a).2 b)
  = dict_get field (deref σ b).
Proof.
  intros Hpre Hf. unfold join_left.
  destruct (split_field local_field) as [pre_field query_field].
  cbn [fst] in Hpre.
  assert (Hset : ∀ v d, dict_get field (dict_set pre_field v d)
                        = dict_get field d).
  { intros v d. rewrite dict_get_set.
    by destruct (String.eqb_spec field pre_field). }
  assert (Hscalar :
    dict_get field
      (deref (match field_value local_field (deref σ a) with
              | VNone => (Ok true, σ)
              | key =>
                  if hashable key then
                    match index_get key index with
                    | None => (Ok true, σ)
                    | Some bucket =>
                        (Ok true,
                         <[a := fold_left
                                  (fun d r => merge_right right_collection
                                                          (deref σ r) d)
                                  bucket (deref σ a)]> σ)
                    end
                  else (Raise (unhashable key), σ)
              end).2 b)
    = dict_get field (deref σ b)).
  { destruct (field_value local_field (deref σ a)); cbn [hashable snd];
      try done;
      match goal with
      | |- context [index_get ?k index] =>
          destruct (index_get k index); cbn [snd]; try done;
          rewrite deref_insert; destruct (decide (a = b)) as [->|]; try done;
          by apply merged_fields_other
      end. }
  destruct (field_value pre_field (deref σ a)) as [| | | |lv| |];
    try exact Hscalar.
  destruct (nested_loop _ _ _ _ _ _ _ _) as [[lv' copied] [e|]];
    [|destruct copied]; cbn [snd]; rewrite deref_insert;
    destruct (decide (a = b)) as [->|]; try done;
    by rewrite ?Hset.
Qed.

Lemma join_loop_fields (index : right_index)
    (local_field right_collection : string) (left_docs : list nat)
    (b : nat) (field : string) :
  field ≠ (split_field local_field).1 ->
  (∀ k, field ≠ prefixed right_collection k) ->
  ∀ (σ : store) (results : list nat),
    dict_get field
      (deref (join_loop σ index local_field right_collection left_docs
                        results).2 b)
    = dict_get field (deref σ b).
Proof.
  intros Hpre Hf. induction left_docs as [|a left_docs IH];
    intros σ results; cbn [join_loop]; [done|].
  pose proof (join_left_fields σ index local_field right_collection a b
                field Hpre Hf) as Hl.
  destruct (join_left σ index local_field right_collection a)
    as [[appended|e] σ1]; cbn [snd] in Hl |- *; [|done].
  by rewrite IH.
Qed.

(** X9: whenever the join ends with documents, these are left documents, each
    at most once and in the order they were fetched, so there are at most
    as many as left documents; and each keeps the value it was fetched
    with under every field that is neither the parent of the local field
    nor a name prefixed with the right collection's. *)
Theorem join_output_from_left (left right : list dict)
    (local_field foreign_field right_collection : string)
    (docs : list dict) :
  (join left right local_field foreign_field right_collection).1 = Ok docs ->
  ∃ kept : list nat,
    kept `sublist_of` seq 0 (length left) ∧
    (length docs <= length left)%nat ∧
    Forall2
      (fun a doc =>
         ∃ l, left !! a = Some l ∧
              ∀ field, field ≠ (split_field local_field).1 ->
                       (∀ k, field ≠ prefixed right_collection k) ->
                       dict_get field doc = dict_get field l)
      kept docs.
Proof.
  unfold join, join_documents.
  destruct (build_index _ _ _ _) as [index|e]; [|discriminate].
  pose proof (fun b field Hpre Hf =>
                join_loop_fields index local_field right_collection
                  (seq 0 (length left)) b field Hpre Hf
                  (fetched left right) []) as Hfields.
  destruct (join_loop _ _ _ _ _ _) as [[results|e] σ'] eqn:Hloop;
    cbn [fst snd mbind result_bind] in *; [|discriminate].
  intros H. injection H as <-.
  destruct (join_loop_sublist _ _ _ _ _ _ _ _ Hloop)
    as (kept & -> & Hkept).
  cbn [app]. exists kept. split; [done|]. split.
  - rewrite length_map. apply sublist_length in Hkept.
    by rewrite length_seq in Hkept.
  - apply Forall2_fmap_r, Forall_Forall2_diag, Forall_forall.
    intros a Ha.
    assert (Hin : a ∈ seq 0 (length left)) by by eapply elem_of_sublist.
    apply elem_of_seq in Hin.
    destruct (lookup_lt_is_Some_2 left a) as [l Hl]; [lia|].
    exists l. split; [done|]. intros field Hpre Hf.
    rewrite (Hfields a field Hpre Hf). unfold deref.
    by rewrite (fetched_left _ _ _ _ Hl).
Qed.

Lemma join_output_from_left_witness :
  ∃ kept : list nat,
    kept `sublist_of`
      seq 0 (length [[("_id", VInt 2); ("uid", VInt 7)];
                     [("_id", VInt 3); ("refs", VList [])]]) ∧
    (length [[("_id", VInt 2); ("uid", VInt 7); ("right_uid", VInt 7);
              ("right_name", VStr "A")];
             [("_id", VInt 3); ("refs", VList [])]]
     <= length [[("_id", VInt 2); ("uid", VInt 7)];
                [("_id", VInt 3); ("refs", VList [])]])%nat ∧
    Forall2
      (fun a doc =>
         ∃ l, [[("_id", VInt 2); ("uid", VInt 7)];
               [("_id", VInt 3); ("refs", VList [])]] !! a = Some l ∧
              ∀ field, field ≠ (split_field "uid").1 ->
                       (∀ k, field ≠ prefixed "right" k) ->
                       dict_get field doc = dict_get field l)
      kept
      [[("_id", VInt 2); ("uid", VInt 7); ("right_uid", VInt 7);
        ("right_name", VStr "A")];
       [("_id", VInt 3); ("refs", VList [])]].
Proof.
  apply (join_output_from_left
           [[("_id", VInt 2); ("uid", VInt 7)];
            [("_id", VInt 3); ("refs", VList [])]]
           [[("_id", VInt 1); ("uid", VInt 7); ("name", VStr "A")]]
           "uid" "uid" "right").
  vm_compute. reflexivity.
Defined.

(** ** The field path *)

Lemma concat_dot_cons (c : ascii) (part : string) (parts : list string) :
  String.concat "." (String c part :: parts) =
  String c (String.concat "." (part :: parts)).
Proof. by destruct parts. Qed.

Lemma split_dot_spec (s : string) :
  ∃ init lst,
    split_dot s = init ++ [lst] ∧
    has_dot lst = false ∧
    s = match init with
        | [] => lst
        | _ => String.concat "." init +:+ "." +:+ lst
        end ∧
    (init = [] ↔ has_dot s = false).
Proof.
  induction s as [|c s (init & lst & Hs & Hlst & Heq & Hdot)].
  - by exists [], EmptyString.
  - cbn [split_dot has_dot]. rewrite Hs.
    destruct (Ascii.eqb_spec c ".") as [->|Hc]; cbn [orb].
    + exists (EmptyString :: init), lst. repeat split; try done.
      * by destruct init.
      * rewrite Heq at 1. by destruct init.
    + destruct init as [|part init].
      * exists [], (String c lst). cbn [app has_dot]. repeat split; try done.
        -- destruct (Ascii.eqb_spec c "."); done.
        -- by rewrite Heq.
        -- intros _. by apply Hdot.
      * exists (String c part :: init), lst. cbn [app]. repeat split; try done.
        -- rewrite concat_dot_cons. by rewrite Heq at 1.
        -- intros H. by apply Hdot in H.
Qed.

(** X10: the local field is split at its last dot.  The leaf holds no dot; a
    field without dot has an empty parent and is its own leaf; otherwise
    parent, dot and leaf make up the field again. *)
Theorem split_field_round_trip (local_field : string) :
  let pre_field := (split_field local_field).1 in
  let query_field := (split_field local_field).2 in
  has_dot query_field = false
  ∧ (has_dot local_field = false ->
     pre_field = EmptyString ∧ query_field = local_field)
  ∧ (has_dot local_field = true ->
     local_field = pre_field +:+ "." +:+ query_field)
  ∧ split_field "orders.items.sku" = ("orders.items", "sku").
Proof.
  cbv zeta. unfold split_field. cbv zeta.
  destruct (split_dot_spec local_field)
    as (init & lst & Hs & Hlst & Heq & Hdot).
  rewrite Hs, removelast_last, last_last. cbn [fst snd].
  split; [done|]. split; [|split]; [| |reflexivity].
  - intros H. apply Hdot in H. subst init. by rewrite Heq.
  - intros H. destruct init as [|part init]; [|done].
    rewrite (proj1 Hdot eq_refl) in H. discriminate.
Qed.

(** ** Keys that cannot be hashed *)

Lemma build_index_app (σ : store) (foreign_field : string)
    (docs docs' : list nat) (index : right_index) :
  build_index σ foreign_field (docs ++ docs') index =
  build_index σ foreign_field docs index ≫=
  build_index σ foreign_field docs'.
Proof.
  revert index. induction docs as [|doc docs IH]; intros index; [done|].
  cbn [app build_index].
  destruct (field_value foreign_field (deref σ doc)); cbn [hashable];
    by rewrite ?IH.
Qed.

(** X11: a right document whose foreign field holds an array or a mapping
    cannot key the index: the first such document ends the join with a
    type error, whatever the left documents are, even when there is none,
    and before any of them is touched.  The tool then answers that error
    and no document. *)
Theorem join_fails_on_unhashable_key (left right before after : list dict)
    (r : dict) (local_field foreign_field right_collection : string) :
  right = before ++ r :: after ->
  Forall (fun r' => hashable (field_value foreign_field r') = true) before ->
  hashable (field_value foreign_field r) = false ->
  join left right local_field foreign_field right_collection
  = (Raise (unhashable (field_value foreign_field r)), fetched left right)
  ∧ str (unhashable (field_value foreign_field r))
    = "unhashable type: '" +:+ type_name (field_value foreign_field r) +:+ "'"
  ∧ ∀ ctx left_db right_db left_collection left_query right_query limit skip
      left_resp right_resp,
      find_documents ctx left_db left_collection left_query limit skip
      = Ok (Success left_resp) ->
      find_documents ctx right_db right_collection right_query 100 0
      = Ok (Success right_resp) ->
      documents left_resp = left -> documents right_resp = right ->
      query_on_different_collections ctx left_db right_db left_collection
        right_collection local_field foreign_field left_query right_query
        limit skip
      = Ok (JoinError (str (unhashable (field_value foreign_field r)))).
Proof.
  intros Hright Hbefore Hr.
  assert (Hindex :
            build_index (fetched left right) foreign_field
                        (seq (length left) (length right)) []
            = Raise (unhashable (field_value foreign_field r))).
  { pose proof (fetched_right left right) as Hfetched.
    assert (Hlen : length right = (length before + S (length after))%nat).
    { subst right. rewrite length_app. done. }
    rewrite Hlen, seq_app. cbn [seq]. rewrite build_index_app.
    destruct (build_index_spec (fetched left right) foreign_field
                (seq (length left) (length before)) [])
      as (index & -> & _).
    - constructor.
    - apply Forall_forall. intros a Ha. apply elem_of_seq in Ha.
      destruct (lookup_lt_is_Some_2 before (a - length left)) as [r' Hr'];
        [lia|].
      assert (Hra : right !! (a - length left)%nat = Some r').
      { subst right. by apply lookup_app_l_Some. }
      apply Hfetched in Hra.
      replace (length left + (a - length left))%nat with a in Hra by lia.
      unfold deref. rewrite Hra. cbn.
      rewrite Forall_forall in Hbefore. apply Hbefore.
      by eapply list_elem_of_lookup_2.
    - cbn [mbind result_bind build_index].
      assert (Hra : right !! (length before) = Some r).
      { subst right. by rewrite list_lookup_middle. }
      apply Hfetched in Hra. unfold deref at 1. rewrite Hra.
      cbn [default from_option]. unfold id.
      destruct (field_value foreign_field r); try discriminate; done. }
  assert (Hjoin :
            join left right local_field foreign_field right_collection
            = (Raise (unhashable (field_value foreign_field r)),
               fetched left right)).
  { unfold join, join_documents. by rewrite Hindex. }
  split; [done|]. split; [done|].
  intros ctx left_db right_db left_collection left_query right_query limit
         skip left_resp right_resp Hl Hrr <- <-.
  unfold query_on_different_collections. rewrite Hl, Hrr.
  cbn [mbind result_bind]. by rewrite Hjoin.
Qed.

Lemma join_fails_on_unhashable_key_witness :
  join [] [[("k", VInt 1)]; [("k", VList [VInt 1; VInt 2])]] "k" "k" "right"
  = (Raise (unhashable (field_value "k" [("k", VList [VInt 1; VInt 2])])),
     fetched [] [[("k", VInt 1)]; [("k", VList [VInt 1; VInt 2])]])
  ∧ str (unhashable (field_value "k" [("k", VList [VInt 1; VInt 2])]))
    = "unhashable type: '"
      +:+ type_name (field_value "k" [("k", VList [VInt 1; VInt 2])]) +:+ "'"
  ∧ ∀ ctx left_db right_db left_collection left_query right_query limit skip
      left_resp right_resp,
      find_documents ctx left_db left_collection left_query limit skip
      = Ok (Success left_resp) ->
      find_documents ctx right_db "right" right_query 100 0
      = Ok (Success right_resp) ->
      documents left_resp = [] ->
      documents right_resp
      = [[("k", VInt 1)]; [("k", VList [VInt 1; VInt 2])]] ->
      query_on_different_collections ctx left_db right_db left_collection
        "right" "k" "k" left_query right_query limit skip
      = Ok (JoinError
              (str (unhashable
                      (field_value "k" [("k", VList [VInt 1; VInt 2])])))).
Proof.
  apply (join_fails_on_unhashable_key []
           [[("k", VInt 1)]; [("k", VList [VInt 1; VInt 2])]]
           [[("k", VInt 1)]] [] [("k", VList [VInt 1; VInt 2])]
           "k" "k" "right").
  - reflexivity.
  - by repeat constructor.
  - reflexivity.
Defined.

(** ** Left documents, one by one *)

Lemma forallb_app_true {A : Type} (p : A -> bool) (l l' : list A) :
  forallb p (l ++ l') = true ↔ forallb p l = true ∧ forallb p l' = true.
Proof. rewrite forallb_app. apply andb_true_iff. Qed.

(** X12: over right documents that can key the index, and left documents on
    which no lookup fails, each left document is joined on its own: the
    join of a batch of left documents is the join of its first part
    followed by the join of the rest. *)
Theorem join_left_documents_independently (left left' right : list dict)
    (local_field foreign_field right_collection : string) :
  indexable foreign_field right = true ->
  forallb (safe local_field) (left ++ left') = true ->
  ∃ docs docs',
    (join left right local_field foreign_field right_collection).1 = Ok docs ∧
    (join left' right local_field foreign_field right_collection).1
    = Ok docs' ∧
    (join (left ++ left') right local_field foreign_field
          right_collection).1 = Ok (docs ++ docs').
Proof.
  intros Hidx Hsafe. pose proof Hsafe as Hboth.
  apply forallb_app_true in Hboth as [Hl Hl'].
  rewrite !join_safe by done. rewrite omap_app. by eexists _, _.
Qed.

Lemma join_left_documents_independently_witness :
  ∃ docs docs',
    (join [[("uid", VInt 7)]] [[("uid", VInt 7); ("name", VStr "A")]]
          "uid" "uid" "right").1 = Ok docs ∧
    (join [[("uid", VInt 8)]] [[("uid", VInt 7); ("name", VStr "A")]]
          "uid" "uid" "right").1 = Ok docs' ∧
    (join ([[("uid", VInt 7)]] ++ [[("uid", VInt 8)]])
          [[("uid", VInt 7); ("name", VStr "A")]]
          "uid" "uid" "right").1 = Ok (docs ++ docs').
Proof.
  apply (join_left_documents_independently
           [[("uid", VInt 7)]] [[("uid", VInt 8)]]
           [[("uid", VInt 7); ("name", VStr "A")]] "uid" "uid" "right");
    reflexivity.
Defined.

Lemma scanned_no_mapping (right : list dict)
    (foreign_field right_collection query_field : string)
    (items : list pyval) :
  Forall (fun it => isinstance_dict it = false) items ->
  scanned right foreign_field right_collection query_field false items = [].
Proof.
  induction 1 as [|it items Hit _ IH]; [done|].
  cbn [scanned]. by destruct it.
Qed.

(** X13: the nested-array branch is an inner join: a left document whose
    parent field holds an array without any mapping in it, an empty array
    or an array of scalars, is left out of the result, and the other left
    documents are joined as if it had not been fetched. *)
Theorem join_drops_array_without_mapping (before after right : list dict)
    (l : dict) (items : list pyval)
    (local_field foreign_field right_collection : string) :
  indexable foreign_field right = true ->
  forallb (safe local_field) (before ++ after) = true ->
  field_value (split_field local_field).1 l = VList items ->
  Forall (fun it => isinstance_dict it = false) items ->
  (join [l] right local_field foreign_field right_collection).1 = Ok [] ∧
  (join (before ++ l :: after) right local_field foreign_field
        right_collection).1
  = (join (before ++ after) right local_field foreign_field
          right_collection).1.
Proof.
  intros Hidx Hsafe Hl Hitems.
  assert (Hl_safe : safe local_field l = true).
  { unfold safe. destruct (split_field local_field) as [pre query].
    cbn [fst] in Hl. rewrite Hl. apply forallb_forall. intros it Hit.
    rewrite Forall_forall in Hitems. apply list_elem_of_In in Hit.
    apply Hitems in Hit. by destruct it. }
  assert (Hout : outcome right local_field foreign_field right_collection l
                 = None).
  { unfold outcome. destruct (split_field local_field) as [pre query].
    cbn [fst] in Hl. rewrite Hl. by rewrite scanned_no_mapping. }
  apply forallb_app_true in Hsafe as [Hb Ha]. split.
  - rewrite join_safe; [|done|by cbn [forallb]; rewrite Hl_safe].
    by rewrite omap_cons, Hout.
  - rewrite !join_safe; try done.
    + rewrite !omap_app, omap_cons. by rewrite Hout.
    + by apply forallb_app_true.
    + apply forallb_app_true. split; [done|]. cbn [forallb].
      by rewrite Hl_safe.
Qed.

Lemma join_drops_array_without_mapping_witness :
  (join [[("_id", VInt 1); ("refs", VList [VInt 5; VInt 6])]]
        [[("k", VInt 5); ("v", VStr "x")]] "refs.k" "k" "right").1 = Ok [] ∧
  (join ([[("_id", VInt 0); ("refs", VList [VDict [("k", VInt 5)]])]]
         ++ [("_id", VInt 1); ("refs", VList [VInt 5; VInt 6])] :: [])
        [[("k", VInt 5); ("v", VStr "x")]] "refs.k" "k" "right").1
  = (join ([[("_id", VInt 0); ("refs", VList [VDict [("k", VInt 5)]])]] ++ [])
          [[("k", VInt 5); ("v", VStr "x")]] "refs.k" "k" "right").1.
Proof.
  apply (join_drops_array_without_mapping
           [[("_id", VInt 0); ("refs", VList [VDict [("k", VInt 5)]])]] []
           [[("k", VInt 5); ("v", VStr "x")]]
           [("_id", VInt 1); ("refs", VList [VInt 5; VInt 6])]
           [VInt 5; VInt 6] "refs.k" "k" "right").
  - reflexivity.
  - reflexivity.
  - reflexivity.
  - by repeat constructor.
Defined.

(** ** The command of [current_ops] *)

Lemma dict_set_head (k k0 : string) (v v0 : pyval) (d : dict) :
  ∃ v' d', dict_set k v ((k0, v0) :: d) = (k0, v') :: d'.
Proof. cbn. destruct (String.eqb k k0); eauto. Qed.

Lemma dict_merge_head (k0 : string) (v0 : pyval) (d extra : dict) :
  ∃ v' d', dict_merge ((k0, v0) :: d) extra = (k0, v') :: d'.
Proof.
  unfold dict_merge. revert v0 d.
  induction extra as [|[k v] extra IH]; intros v0 d;
    cbn [fold_left fst snd]; [eauto|].
  destruct (dict_set_head k k0 v v0 d) as (v' & d' & ->). apply IH.
Qed.

(** X14: the command sent to the admin database always opens with [currentOp].
    Without a filter, or with an empty one, it is [{"currentOp": True}]
    alone; otherwise every entry of the filter is sent as given, and a
    filter that itself holds [currentOp] overrides the flag.
    The tool returns the server's answer, or an error response with the
    server's message. *)
Theorem current_ops_command (ops : option dict) :
  let command := current_op_command ops in
  (∃ flag rest, command = ("currentOp", flag) :: rest)
  ∧ (ops = None ∨ ops = Some [] -> command = [("currentOp", VBool true)])
  ∧ (∀ filter k, ops = Some filter -> NoDup (dict_keys filter) ->
       dict_get k command =
       match dict_get k filter with
       | Some v => Some v
       | None => if String.eqb k "currentOp" then Some (VBool true) else None
       end)
  ∧ (∀ (World : Type) (client : Client World) (w : World),
       current_ops client ops w =
       match admin_command client command w with
       | (Ok answer, w') => (Ok answer, w')
       | (Raise e, w') => (Ok (VErr (str e)), w')
       end).
Proof.
  cbv zeta. repeat apply conj.
  - destruct ops as [[|kv filter]|]; unfold current_op_command; eauto.
    apply dict_merge_head.
  - by intros [->| ->].
  - intros filter k -> Hnd. destruct filter as [|kv filter]; [done|].
    unfold current_op_command. rewrite dict_merge_get by done.
    reflexivity.
  - done.
Qed.

(** ** Describing a database *)

Lemma sum_counts_at_rest {World : Type} (client : Client World)
    (db_name : string) (w : World) (names : list string) (counts : list Z) :
  (∀ collection_name,
     (estimated_document_count client db_name collection_name w).2 = w) ->
  Forall2 (fun collection_name n =>
             (estimated_document_count client db_name collection_name w).1
             = Ok n) names counts ->
  ∀ total,
    sum_counts client db_name names total w
    = (Ok (total + foldr Z.add 0 counts), w).
Proof.
  intros Hrest. induction 1 as [|c n names counts Hn _ IH]; intros total.
  - cbn. by rewrite Z.add_0_r.
  - cbn [sum_counts foldr]. unfold mbind, io_bind.
    specialize (Hrest c).
    destruct (estimated_document_count client db_name c w) as [r w'].
    cbn [fst snd] in *. subst. rewrite IH. by rewrite Z.add_assoc.
Qed.

Lemma sum_counts_fails {World : Type} (client : Client World)
    (db_name : string) (w : World) (before after : list string)
    (counts : list Z) (c : string) (e : exn) :
  (∀ collection_name,
     (estimated_document_count client db_name collection_name w).2 = w) ->
  Forall2 (fun collection_name n =>
             (estimated_document_count client db_name collection_name w).1
             = Ok n) before counts ->
  (estimated_document_count client db_name c w).1 = Raise e ->
  ∀ total,
    sum_counts client db_name (before ++ c :: after) total w = (Raise e, w).
Proof.
  intros Hrest Hbefore Hc.
  induction Hbefore as [|c' n names counts Hn _ IH]; intros total.
  - cbn [app sum_counts]. unfold mbind, io_bind. specialize (Hrest c).
    destruct (estimated_document_count client db_name c w) as [r w'].
    cbn [fst snd] in *. by subst.
  - cbn [app sum_counts]. unfold mbind, io_bind at 1. specialize (Hrest c').
    destruct (estimated_document_count client db_name c' w) as [r w'].
    cbn [fst snd] in *. subst. apply IH.
Qed.

(** X15: on a server at rest, where the collections of the database are
    listed as [names]: when every collection is counted, the description
    holds these names, their number under [collections] and the sum of the
    counts under [estimated_total_count]; when the count of a collection
    fails after those before it were counted, the tool answers that
    failure, and the server is left as it was. *)
Theorem get_db_info_at_rest {World : Type} (client : Client World)
    (db_name : string) (w : World) (names : list string) :
  at_rest client db_name w ->
  (list_collection_names client db_name w).1 = Ok names ->
  (∀ counts,
     Forall2 (fun collection_name n =>
                (estimated_document_count client db_name collection_name w).1
                = Ok n) names counts ->
     get_db_info client db_name w
     = (Ok (Success {| database_name := db_name;
                       collection_names := names;
                       stats := [("collections",
                                  VInt (Z.of_nat (length names)));
                                 ("estimated_total_count",
                                  VInt (foldr Z.add 0 counts))] |}), w))
  ∧ (∀ before c after counts e,
       names = before ++ c :: after ->
       Forall2 (fun collection_name n =>
                  (estimated_document_count client db_name collection_name
                                            w).1 = Ok n) before counts ->
       (estimated_document_count client db_name c w).1 = Raise e ->
       get_db_info client db_name w = (Ok (ErrorResponse (str e)), w)).
Proof.
  intros [Hlist Hcount] Hnames.
  assert (Hl : list_collection_names client db_name w = (Ok names, w)).
  { destruct (list_collection_names client db_name w) as [r w'].
    cbn [fst snd] in *. by subst. }
  split.
  - intros counts Hcounts.
    unfold get_db_info, io_try, db_info_stats, mbind, io_bind, mret, io_ret.
    rewrite Hl. cbv beta iota. rewrite Hl. cbv beta iota.
    rewrite (sum_counts_at_rest _ _ _ _ _ Hcount Hcounts). cbv beta iota.
    rewrite Hl. by rewrite Z.add_0_l.
  - intros before c after counts e -> Hbefore Hc.
    unfold get_db_info, io_try, db_info_stats, mbind, io_bind, mret, io_ret.
    rewrite Hl. cbv beta iota. rewrite Hl. cbv beta iota.
    by rewrite (sum_counts_fails _ _ _ _ _ _ _ _ Hcount Hbefore Hc).
Qed.

Lemma get_db_info_at_rest_witness :
  get_db_info two_collections "shop" tt
  = (Ok (Success {| database_name := "shop";
                    collection_names := ["a"; "b"];
                    stats := [("collections", VInt (Z.of_nat (length ["a"; "b"])));
                              ("estimated_total_count",
                               VInt (foldr Z.add 0 [3; 4]))] |}), tt).
Proof.
  refine (proj1 (get_db_info_at_rest two_collections "shop" tt ["a"; "b"]
                   _ _) [3; 4] _).
  - by split.
  - reflexivity.
  - by repeat constructor.
Defined.

(** X16: the generation variant builds the same statistics and then leaves
    them out: it calls the server exactly as [get_db_info] does, fails
    exactly when it fails, with the same message, and otherwise answers
    the same database name and collection names with its fixed hint;
    both leave the server in the same state. *)
Theorem get_db_info_for_generation_agrees {World : Type}
    (client : Client World) (db_name : string) (w : World) :
  ∃ r w',
    get_db_info client db_name w = (Ok r, w') ∧
    get_db_info_for_generation client db_name w
    = (Ok (for_generation r), w').
Proof.
  unfold get_db_info, get_db_info_for_generation, io_try, mbind, io_bind.
  destruct (db_info_stats client db_name w) as [[info|e] w1];
    [|by eexists _, _].
  destruct (list_collection_names client db_name w1) as [[names|e] w2];
    by eexists _, _.
Qed.

(** ** Explain outputs the analyser can read *)

Lemma for_each_total {A B : Type} (f : A -> result B) (xs : list A) :
  Forall (fun x => ∃ y, f x = Ok y) xs -> ∃ ys, for_each f xs = Ok ys.
Proof.
  induction 1 as [|x xs [y Hy] _ [ys IH]]; cbn; [by eexists|].
  rewrite Hy. cbn. rewrite IH. by eexists.
Qed.

Lemma covered_by_index_answers (projection winning_plan : pyval) :
  projection = VNone ∨ isinstance_dict projection = true ->
  well_formed_plan winning_plan ->
  ∃ b, covered_by_index projection winning_plan = Ok b.
Proof.
  intros Hp (plan & -> & _ & _ & Hinput). unfold covered_by_index.
  destruct (truthy projection) eqn:Ht; [|by eexists].
  destruct Hp as [->|Hp]; [done|].
  destruct projection as [| | | | |fields|]; try done.
  cbn [py_get py_get_default py_items mbind result_bind].
  destruct (dict_get "inputStage" plan) as [input_stage|];
    cbn [default from_option]; unfold id; [|by eexists].
  destruct Hinput as [Hfalsy|(child & -> & Hkey)].
  - rewrite Hfalsy. by eexists.
  - destruct (truthy (VDict child)); [|by eexists].
    cbn [py_get_default mbind result_bind].
    destruct (default (VDict []) (dict_get "keyPattern" child));
      try done. cbn. by eexists.
Qed.

Lemma int64_quotient_in_range (m n : Z) :
  - 2 ^ 63 <= m < 2 ^ 63 -> n ≠ 0 -> float_overflow m n = false.
Proof.
  intros Hm Hn. unfold float_overflow. apply Z.leb_gt.
  assert (Hbig : 2 ^ 63 < 2 ^ 1024 - 2 ^ 970) by (vm_compute; reflexivity).
  set (top := 2 ^ 1024 - 2 ^ 970) in *. set (bound := 2 ^ 63) in *.
  assert (top * 1 <= top * Z.abs n) by (apply Z.mul_le_mono_nonneg_l; lia).
  lia.
Qed.

Lemma ratio_or_inf_int64 (num den : Z) :
  - 2 ^ 63 <= num < 2 ^ 63 ->
  ∃ r, ratio_or_inf (VInt num) (VInt den) = Ok r.
Proof.
  intros Hnum. rewrite ratio_or_inf_counters.
  destruct (Z.eqb_spec den 0); [by eexists|].
  rewrite int64_quotient_in_range by done. by eexists.
Qed.

Lemma stage_metrics_answers (winning_plan execution_stats : pyval)
    (default_stage : string) (projection : pyval) :
  well_formed_plan winning_plan ->
  integer_counters execution_stats ->
  projection = VNone ∨ isinstance_dict projection = true ->
  ∃ m, stage_metrics winning_plan execution_stats default_stage projection
       = Ok m.
Proof.
  intros Hplan (counters & -> & Hcounters) Hp.
  destruct (covered_by_index_answers _ _ Hp Hplan) as [is_covered Hc].
  destruct Hplan as (plan & -> & Htree & _).
  destruct (search_for_sort_tree (S (depth (VDict plan))) (VDict plan))
    as (sorts & Hs & _); [lia|done|].
  destruct (Hcounters "nReturned") as (n & Hn & _);
    [by repeat constructor|].
  destruct (Hcounters "totalDocsExamined") as (docs & Hd & Hdocs);
    [by repeat constructor|].
  destruct (Hcounters "totalKeysExamined") as (keys & Hk & Hkeys);
    [by repeat constructor|].
  destruct (ratio_or_inf_int64 docs n Hdocs) as [amplification Ha].
  destruct (ratio_or_inf_int64 keys docs Hkeys) as [key_doc Hkd].
  unfold stage_metrics, triggers_sort.
  cbn [py_get_default mbind result_bind].
  rewrite Hn, Hd, Hk, Ha. cbn [mbind result_bind].
  rewrite Hkd. cbn [mbind result_bind]. rewrite Hc. cbn [mbind result_bind].
  rewrite Hs. cbn [mbind result_bind]. by eexists.
Qed.

(** X17: the analyser answers on every explain output shaped as a server
    shapes it, for a projection that is a mapping or is not given: a
    query explain whose winning plan is a plan tree of at most 100 levels
    with a readable input stage and whose counters are integers of 64
    bits, and a pipeline explain whose stages are all of that kind.  The
    sort search of such a plan answers on any stack of more than 100
    frames, with the answer the analysis reports. *)
Theorem analyser_answers_on_server_output (output : dict)
    (projection : pyval) :
  projection = VNone ∨ isinstance_dict projection = true ->
  match dict_get "stages" output with
  | None =>
      ∃ winning_plan execution_stats,
        plan_and_stats (VDict output) = Ok (winning_plan, execution_stats) ∧
        well_formed_plan winning_plan ∧ integer_counters execution_stats
  | Some stages =>
      ∃ entries, stages = VList entries ∧ Forall readable_stage entries
  end ->
  (∃ a, analyze_explain_metrics (VDict output) projection = Ok a)
  ∧ (∀ winning_plan limit,
       well_formed_plan winning_plan -> (100 < limit)%nat ->
       search_for_sort limit winning_plan = triggers_sort winning_plan).
Proof.
  intros Hp Hout. split.
  - unfold analyze_explain_metrics.
    cbn [py_contains mbind result_bind]. unfold dict_mem. cbn [py_getitem].
    destruct (dict_get "stages" output) as [stages|]; cbn [negb].
    + destruct Hout as (entries & -> & Hentries).
      cbn [mbind result_bind py_iter].
      destruct (for_each_total (staged_metrics projection) entries)
        as [results ->]; [|by eexists].
      eapply Forall_impl; [exact Hentries|].
      intros entry (name & detail & rest & wp & st & -> & Hps & Hwp & Hst).
      unfold staged_metrics. cbn [py_items mbind result_bind]. rewrite Hps.
      cbn [mbind result_bind]. by apply stage_metrics_answers.
    + destruct Hout as (wp & st & -> & Hwp & Hst). cbn [mbind result_bind].
      destruct (stage_metrics_answers wp st "UNKNOWN" projection Hwp Hst Hp)
        as [m ->]. by eexists.
  - intros wp limit (plan & -> & _ & Hdepth & _) Hlimit.
    unfold triggers_sort.
    apply (search_for_sort_bounded (S (depth (VDict plan))) (VDict plan));
      lia.
Qed.

Lemma analyser_answers_on_server_output_witness :
  (∃ a, analyze_explain_metrics
          (VDict [("queryPlanner",
                   VDict [("winningPlan",
                           fetch_over [("stage", VStr "IXSCAN");
                                       ("keyPattern",
                                        VDict [("a", VInt 1)])])]);
                  ("executionStats", VDict [("nReturned", VInt 2)])])
          (VDict [("a", VInt 1)]) = Ok a)
  ∧ (∀ winning_plan limit,
       well_formed_plan winning_plan -> (100 < limit)%nat ->
       search_for_sort limit winning_plan = triggers_sort winning_plan).
Proof.
  apply (analyser_answers_on_server_output
           [("queryPlanner",
             VDict [("winningPlan",
                     fetch_over [("stage", VStr "IXSCAN");
                                 ("keyPattern", VDict [("a", VInt 1)])])]);
            ("executionStats", VDict [("nReturned", VInt 2)])]
           (VDict [("a", VInt 1)])).
  - by right.
  - cbn. eexists _, _. split; [reflexivity|]. split.
    + eexists. split; [reflexivity|]. split; [|split].
      * intros node Hnode. apply rtc_inv in Hnode as [<-|(c & Hc & Hnode)];
          [by left|].
        inversion Hc as [plan sub key Hkey Hget|plan items key s Hkey Hget];
          subst; unfold child_links in Hkey;
          repeat (apply elem_of_cons in Hkey as [->|Hkey]);
          try discriminate; try by apply elem_of_nil in Hkey.
        injection Hget as <-.
        apply rtc_inv in Hnode as [<-|(c' & Hc' & _)]; [by left|].
        inversion Hc' as [plan sub key Hkey' Hget'
                         |plan items key s Hkey' Hget'];
          subst; unfold child_links in Hkey';
          repeat (apply elem_of_cons in Hkey' as [->|Hkey']);
          try discriminate; by apply elem_of_nil in Hkey'.
      * cbn. lia.
      * right. eexists. by split.
    + eexists. split; [reflexivity|]. intros k Hk.
      repeat (apply elem_of_cons in Hk as [->|Hk]);
        [eexists; split; [reflexivity|lia]..|by apply elem_of_nil in Hk].
Defined.

(** ** A local value that cannot be hashed *)

Lemma join_loop_app (index : right_index)
    (local_field right_collection : string) (docs docs' : list nat) :
  ∀ (σ : store) (results : list nat),
    join_loop σ index local_field right_collection (docs ++ docs') results =
    match join_loop σ index local_field right_collection docs results with
    | (Ok results', σ') =>
        join_loop σ' index local_field right_collection docs' results'
    | (Raise e, σ') => (Raise e, σ')
    end.
Proof.
  induction docs as [|a docs IH]; intros σ results; [done|].
  cbn [app join_loop].
  destruct (join_left σ index local_field right_collection a)
    as [[appended|e] σ1]; [apply IH|done].
Qed.

(** X18: a left document joined on the field itself whose value is an
    array or a mapping cannot be looked up in the index: it ends the join
    with a type error, after the left documents before it were joined and
    whatever comes after it, so that no document at all is returned. *)
Theorem join_fails_on_unhashable_local_value
    (before after right : list dict) (l : dict)
    (local_field foreign_field right_collection : string) :
  indexable foreign_field right = true ->
  forallb (safe local_field) before = true ->
  scalar_branch local_field l = true ->
  hashable (field_value local_field l) = false ->
  (join (before ++ l :: after) right local_field foreign_field
        right_collection).1
  = Raise (unhashable (field_value local_field l)).
Proof.
  intros Hidx Hsafe Hscalar Hkey.
  set (left := before ++ l :: after).
  unfold join, join_documents.
  destruct (build_index_fetched (fetched left right) (length left) right
              foreign_field) as (index & -> & Hfor);
    [apply fetched_right|done|].
  assert (Hlen : length left = (length before + S (length after))%nat).
  { subst left. by rewrite length_app. }
  rewrite Hlen at 1. rewrite seq_app. cbn [seq plus]. rewrite join_loop_app.
  destruct (join_loop_safe right local_field foreign_field right_collection
              (length left) index (seq 0 (length before)) before Hfor
              (fetched left right) [])
    as (σ' & kept & -> & _ & Hframe).
  - apply Forall2_lookup. intros i.
    destruct (before !! i) as [b|] eqn:Hb.
    + rewrite (lookup_seq_lt _ _ _ (lookup_lt_Some _ _ _ Hb)).
      constructor. apply fetched_left. subst left.
      by apply lookup_app_l_Some.
    + rewrite lookup_seq_ge by (by apply lookup_ge_None). constructor.
  - apply NoDup_seq.
  - intros a Ha. apply elem_of_seq in Ha. lia.
  - apply fetched_right.
  - apply Forall_forall. intros b Hb. rewrite forallb_forall in Hsafe.
    apply Hsafe. by apply list_elem_of_In.
  - assert (Hl : deref σ' (length before) = l).
    { unfold deref. rewrite Hframe.
      - rewrite (fetched_left left right (length before) l); [done|].
        subst left. by rewrite list_lookup_middle.
      - intros Hin. apply elem_of_seq in Hin. lia. }
    cbn [join_loop]. unfold join_left. rewrite Hl.
    unfold scalar_branch in Hscalar.
    destruct (split_field local_field) as [pre_field query_field].
    cbn [fst] in Hscalar.
    destruct (field_value pre_field l); try discriminate;
      destruct (field_value local_field l); try discriminate; done.
Qed.

Lemma join_fails_on_unhashable_local_value_witness :
  (join ([[("uid", VInt 7)]] ++ [("uid", VList [VInt 7; VInt 8])] :: [])
        [[("uid", VInt 7); ("name", VStr "A")]] "uid" "uid" "right").1
  = Raise (unhashable (field_value "uid" [("uid", VList [VInt 7; VInt 8])])).
Proof.
  apply (join_fails_on_unhashable_local_value
           [[("uid", VInt 7)]] [] [[("uid", VInt 7); ("name", VStr "A")]]
           [("uid", VList [VInt 7; VInt 8])] "uid" "uid" "right");
    reflexivity.
Defined.
